(** * Target provisioning of vegeta (lib/targets.go)

    A shallow embedding of the [Target] model, the three [Targeter]
    variants (JSON lines, static round robin, HTTP text), the peeking
    scanner and [ReadAllTargets], followed by the properties the
    specification states about them.

    Go strings and byte slices are byte sequences: they are modelled by
    [string] (a list of [ascii] bytes).  A [nil] byte slice and an empty
    one are not told apart, as the code only ever takes their [len] or
    compares them with [bytes.Equal]. *)

From Stdlib Require Import ZArith Lia Ascii String List.
From Stdlib Require Import DecimalString.
From stdpp Require Import base option list strings gmap fin_maps.

Local Open Scope string_scope.

(** ** Errors *)

(** The sentinel errors of the package are distinct values compared by
    identity ([err == ErrNoTargets]); [io.EOF] is the reader's sentinel.
    [Errorf] stands for an error built by [fmt.Errorf] and carries its
    message; [ExtError] is an error produced by a collaborator (the JSON
    lexer, the file system, the byte source). *)
Inductive error : Type :=
  | ErrNoTargets
  | ErrNilTarget
  | ErrNoMethod
  | ErrNoURL
  | EOF
  | Errorf (msg : string)
  | ExtError (msg : string).

Global Instance error_eq_dec : EqDecision error.
Proof. solve_decision. Defined.

(** [err.Error()], as [fmt.Errorf("...%s", err)] prints it. *)
Definition error_message (e : error) : string :=
  match e with
  | ErrNoTargets => "no targets to attack"
  | ErrNilTarget => "nil target"
  | ErrNoMethod => "target: required method is missing"
  | ErrNoURL => "target: required url is missing"
  | EOF => "EOF"
  | Errorf m => m
  | ExtError m => m
  end.

(** ** Strings *)

Module Strings.

Definition byte_in (c : ascii) (codes : list nat) : bool :=
  bool_decide (nat_of_ascii c ∈ codes).

(** [strings.HasPrefix]. *)
Definition HasPrefix (s p : string) : bool := String.prefix p s.

(** The bytes in reverse order, used for the right-hand side of
    [TrimSpace]. *)
Definition rev (s : string) : string :=
  string_of_list_ascii (List.rev (list_ascii_of_string s)).

(** The UTF-8 encodings of the runes for which [unicode.IsSpace] holds:
    the six ASCII ones, U+0085, U+00A0, U+1680, U+2000..U+200A, U+2028,
    U+2029, U+202F, U+205F and U+3000. *)
Definition bytes (l : list nat) : string :=
  string_of_list_ascii (List.map ascii_of_nat l).

Definition spaceRunes : list string :=
  List.map bytes
    ([ [9]; [10]; [11]; [12]; [13]; [32];
       [194; 133]; [194; 160]; [225; 154; 128] ]
     ++ List.map (fun b => [226; 128; b]) (List.seq 128 11)
     ++ [ [226; 128; 168]; [226; 128; 169]; [226; 128; 175];
          [226; 129; 159]; [227; 128; 128] ]).

(** Drop one leading space rune, if the string starts with one. *)
Fixpoint dropOne (runes : list string) (s : string) : option string :=
  match runes with
  | [] => None
  | r :: runes' =>
      if String.prefix r s
      then Some (String.substring (String.length r)
                   (String.length s - String.length r) s)
      else dropOne runes' s
  end.

Fixpoint trimLeftFuel (runes : list string) (fuel : nat) (s : string) : string :=
  match fuel with
  | O => s
  | S fuel' =>
      match dropOne runes s with
      | Some s' => trimLeftFuel runes fuel' s'
      | None => s
      end
  end.

(** [strings.TrimLeftFunc(s, unicode.IsSpace)]: every dropped rune is at
    least one byte long, so [length s] rounds are enough. *)
Definition TrimLeft (s : string) : string :=
  trimLeftFuel spaceRunes (String.length s) s.

(** [strings.TrimRightFunc(s, unicode.IsSpace)], by reversal. *)
Definition TrimRight (s : string) : string :=
  rev (trimLeftFuel (List.map rev spaceRunes) (String.length s) (rev s)).

(** [strings.TrimSpace] (and [bytes.TrimSpace]). *)
Definition TrimSpace (s : string) : string := TrimRight (TrimLeft s).

(** [strings.SplitN(s, sep, 2)] for a one-byte separator: [None] when
    the separator does not occur (the result has a single token, [s]
    itself), otherwise the text before and after its first occurrence. *)
Fixpoint cut (sep : ascii) (s : string) : option (string * string) :=
  match s with
  | EmptyString => None
  | String c r =>
      if Ascii.eqb c sep then Some (EmptyString, r)
      else match cut sep r with
           | Some (a, b) => Some (String c a, b)
           | None => None
           end
  end.

(** [strings.Fields]: the maximal runs of non-space bytes, for the six
    ASCII space bytes. *)
Definition isAsciiSpace (c : ascii) : bool := byte_in c [9; 10; 11; 12; 13; 32].

Fixpoint fieldsAux (cur : string) (s : string) : list string :=
  match s with
  | EmptyString => if String.eqb cur "" then [] else [rev cur]
  | String c r =>
      if isAsciiSpace c
      then (if String.eqb cur "" then fieldsAux "" r else rev cur :: fieldsAux "" r)
      else fieldsAux (String c cur) r
  end.

Definition Fields (s : string) : list string := fieldsAux "" s.

End Strings.

Import Strings.

(** ** The line source: [bufio.Scanner] with [bufio.ScanLines] *)

(** [bufio.ScanLines] on a whole input: lines end at ['\n'], one trailing
    ['\r'] is dropped, and a last line without a newline is a line too
    unless it is empty. *)
Definition dropCR (rline : string) : string :=
  (* [rline] is the line reversed *)
  match rline with
  | String c r => if Ascii.eqb c "013"%char then Strings.rev r else Strings.rev rline
  | EmptyString => EmptyString
  end.

Fixpoint scanLinesAux (cur : string) (s : string) : list string :=
  match s with
  | EmptyString => if String.eqb cur "" then [] else [dropCR cur]
  | String c r =>
      if Ascii.eqb c "010"%char then dropCR cur :: scanLinesAux "" r
      else scanLinesAux (String c cur) r
  end.

Definition ScanLines (input : string) : list string := scanLinesAux "" input.

(** A [bufio.Scanner]: the lines it has not delivered yet, the current
    token, the error its reader reports once the lines are used up
    ([None] for a clean end of input) and the error [Err] returns now.

    The model is that of a scanner over lines that fit its buffer, and
    over a reader that reports its error on a read of its own, after the
    last line: [Err] turns non-nil when [Scan] first fails. Two things
    are left out. A line of [bufio.MaxScanTokenSize] bytes or more makes
    the scanner stop with [bufio.ErrTooLong]; and a reader that returns
    its error together with data makes the scanner record the error
    while lines are still to be delivered. What depends on either is
    stated below for lines that fit ([fitsBuffer]) and for a source that
    ends without a read error. *)
Record Scanner : Type := mkScanner {
  pending : list string;
  token : string;
  readErr : option error;
  scanErr : option error
}.

Definition NewScanner (lines : list string) (e : option error) : Scanner :=
  mkScanner lines "" e None.

(** [bufio.MaxScanTokenSize]. A line fits the scanner's buffer when it
    does so together with its end-of-line marker. *)
Definition MaxScanTokenSize : Z := (64 * 1024)%Z.

Definition fitsBuffer (line : string) : Prop :=
  (Z.of_nat (String.length line) + 2 <= MaxScanTokenSize)%Z.

Module Src.

Definition Scan (s : Scanner) : bool * Scanner :=
  match pending s with
  | l :: r => (true, mkScanner r l (readErr s) (scanErr s))
  | [] => (false, mkScanner [] "" (readErr s) (readErr s))
  end.

Definition Text (s : Scanner) : string := token s.

Definition Err (s : Scanner) : option error := scanErr s.

End Src.

(** ** The peeking scanner *)

Record peekingScanner : Type := mkPeeking {
  src : Scanner;
  peeked : string
}.

Module Peeking.

Definition Err (s : peekingScanner) : option error := Src.Err (src s).

Definition Peek (s : peekingScanner) : string * peekingScanner :=
  let (ok, src') := Src.Scan (src s) in
  if ok then (Src.Text src', mkPeeking src' (Src.Text src'))
  else ("", mkPeeking src' (peeked s)).

Definition Scan (s : peekingScanner) : bool * peekingScanner :=
  if String.eqb (peeked s) "" then
    let (ok, src') := Src.Scan (src s) in (ok, mkPeeking src' (peeked s))
  else (true, s).

Definition Text (s : peekingScanner) : string * peekingScanner :=
  if String.eqb (peeked s) "" then (Src.Text (src s), s)
  else (peeked s, mkPeeking (src s) "").

(** [Peek], then [Scan], then [Text]: the peeked line, whether [Scan]
    reported a line, the text read back, and the scanner afterwards. *)
Definition peekScanText (s : peekingScanner)
  : string * bool * string * peekingScanner :=
  let (p, s1) := Peek s in
  let (ok, s2) := Scan s1 in
  let (t, s3) := Text s2 in
  (p, ok, t, s3).

(** The lines still to be handed out by [Scan]+[Text]. *)
Definition ahead (s : peekingScanner) : list string :=
  ((if String.eqb (peeked s) "" then [] else [peeked s]) ++ pending (src s))%list.

End Peeking.

(** ** Targets *)

(** [http.Header] is [map[string][]string]; a [nil] map is [None]. *)
Abbreviation HeaderMap := (gmap string (list string)).

Record Target : Type := mkTarget {
  Method : string;
  URL : string;
  Body : string;
  Header : option HeaderMap;
  Name : string
}.

(** The zero value, [var tgt Target]. *)
Definition zeroTarget : Target := mkTarget "" "" "" None "".

(** [len(h)] and [h[k]] on a possibly nil map: a missing key reads as the
    nil slice. *)
Definition headerLen (h : option HeaderMap) : nat :=
  match h with
  | Some m => size m
  | None => 0
  end.

Definition headerGet (h : option HeaderMap) (k : string) : list string :=
  match h with
  | Some m => default [] (m !! k)
  | None => []
  end.

(** The inner loop of [Equal]: [left[i] != right[i]] for [i] in range of
    [left], run after the lengths were found equal. *)
Fixpoint sameAt (left right : list string) : bool :=
  match left, right with
  | [], _ => true
  | l :: ls, r :: rs => String.eqb l r && sameAt ls rs
  | _ :: _, [] => false
  end.

Definition sameValues (left right : list string) : bool :=
  Nat.eqb (length left) (length right) && sameAt left right.

(** [Target.Equal]. The first case of the source, [t == other], needs no
    case of its own: a target compares equal to itself by the general
    case as well. *)
Definition Equal (t other : option Target) : bool :=
  match t, other with
  | None, None => true
  | None, Some _ | Some _, None => false
  | Some t, Some o =>
      String.eqb (Method t) (Method o)
      && String.eqb (URL t) (URL o)
      && String.eqb (Body t) (Body o)
      && Nat.eqb (headerLen (Header t)) (headerLen (Header o))
      && forallb (fun kv => sameValues kv.2 (headerGet (Header o) kv.1))
           (map_to_list (default ∅ (Header t)))
  end.

(** ** The Targeter contract *)

(** How a call ends: it returns an error value ([None] is [nil]), it
    panics, or the model ran out of the rounds it was given. *)
Inductive ret : Type :=
  | Return (err : option error)
  | Panic (msg : string)
  | OutOfFuel.

(** A [Targeter]: [Next] receives a pointer ([None] is the nil pointer)
    and leaves the pointed-to target and its own state updated. *)
Record Targeter : Type := mkTargeter {
  state : Type;
  Next : state -> option Target -> ret * option Target * state
}.

(** ** The JSON line decoder *)

(** A [bufio.Reader] over a byte source: the bytes not read yet and the
    error the source reports after them ([None] is a plain [io.EOF]). *)
Record Reader : Type := mkReader {
  unread : string;
  srcErr : option error
}.

(** [bufio.Reader.ReadBytes] with delimiter ['\n']: the bytes up to and including the
    first newline, or everything left together with the source's error. *)
Definition ReadBytes (r : Reader) : string * option error * Reader :=
  match cut "010"%char (unread r) with
  | Some (a, b) => (a +:+ String "010"%char "", None, mkReader b (srcErr r))
  | None => (unread r, Some (default EOF (srcErr r)), mkReader "" (srcErr r))
  end.

Record jsonTargeter : Type := mkJSON {
  j_body : string;
  j_header : option HeaderMap;
  j_reader : Reader
}.

Definition NewJSONTargeter (input : string) (e : option error)
    (body : string) (header : option HeaderMap) : jsonTargeter :=
  mkJSON body header (mkReader input e).

(** [for k, vs := range extra { h[k] = append(h[k], vs...) }]. *)
Definition appendValues (extra : option HeaderMap) (h : HeaderMap) : HeaderMap :=
  map_fold (fun k vs acc => <[k := (default [] (acc !! k) ++ vs)%list]> acc)
    h (default ∅ extra).

Module Json.
Section Decoder.

(** The generated [jsonTarget.decode] run on one trimmed line by a
  [jlexer.Lexer], with what [jl.Error()] reports afterwards. *)
Variable decode : string -> Target * option error.

(** The reading loop of [Next], [for len(jl.Data) == 0 { ... }]. *)
Fixpoint readLine (fuel : nat) (r : Reader)
  : option (string * option error * Reader) :=
  match fuel with
  | O => None
  | S fuel' =>
      let '(data, err, r') := ReadBytes r in
      match err with
      | Some e => Some (data, Some e, r')
      | None =>
          let data' := TrimSpace data in
          if Nat.eqb (String.length data') 0 then readLine fuel' r'
          else Some (data', None, r')
      end
  end.

Definition Next (d : jsonTargeter) (tgt : option Target)
  : ret * option Target * jsonTargeter :=
  match tgt with
  | None => (Return (Some ErrNilTarget), None, d)
  | Some out =>
      match readLine (S (String.length (unread (j_reader d)))) (j_reader d) with
      | None => (OutOfFuel, tgt, d)
      | Some (data, Some e, r') =>
          let d' := mkJSON (j_body d) (j_header d) r' in
          (Return (Some (if decide (e = EOF) then ErrNoTargets else e)), tgt, d')
      | Some (data, None, r') =>
          let d' := mkJSON (j_body d) (j_header d) r' in
          let (t, jerr) := decode data in
          match jerr with
          | Some e => (Return (Some e), tgt, d')
          | None =>
              if String.eqb (Method t) "" then (Return (Some ErrNoMethod), tgt, d')
              else if String.eqb (URL t) "" then (Return (Some ErrNoURL), tgt, d')
              else
                let body :=
                  if Nat.ltb 0 (String.length (Body t)) then Body t else j_body d in
                let h0 := default ∅ (Header out) in
                let h1 := appendValues (j_header d) h0 in
                let h2 := appendValues (Header t) h1 in
                (Return None,
                 Some (mkTarget (Method t) (URL t) body (Some h2) (Name out)),
                 d')
          end
      end
  end.

Definition targeter : Targeter := mkTargeter jsonTargeter Next.

End Decoder.
End Json.

(** ** The static round-robin decoder *)

Record staticTargeter : Type := mkStatic {
  tgts : list Target;
  i : Z
}.

(** [int64] arithmetic wraps around. *)
Definition wrap64 (z : Z) : Z := ((z + 2 ^ 63) mod 2 ^ 64 - 2 ^ 63)%Z.

(** [atomic.AddInt64(&s.i, delta)]: the new value. *)
Definition AddInt64 (v delta : Z) : Z := wrap64 (v + delta).

Definition NewStaticTargeter (ts : list Target) : staticTargeter :=
  mkStatic ts (-1).

Module Static.

(** [*tgt = s.tgts[atomic.AddInt64(&s.i, 1) % int64(len(s.tgts))]]:
    the counter is advanced first; [%] truncates towards zero and
    panics on a zero divisor; indexing panics out of range. *)
Definition Next (s : staticTargeter) (tgt : option Target)
  : ret * option Target * staticTargeter :=
  match tgt with
  | None => (Return (Some ErrNilTarget), None, s)
  | Some _ =>
      let n := AddInt64 (i s) 1 in
      let s' := mkStatic (tgts s) n in
      let len := Z.of_nat (length (tgts s)) in
      if (len =? 0)%Z
      then (Panic "runtime error: integer divide by zero", tgt, s')
      else
        let idx := Z.rem n len in
        if (idx <? 0)%Z
        then (Panic "runtime error: index out of range", tgt, s')
        else match tgts s !! Z.to_nat idx with
             | Some t => (Return None, Some t, s')
             | None => (Panic "runtime error: index out of range", tgt, s')
             end
  end.

Definition targeter : Targeter := mkTargeter staticTargeter Next.

End Static.

(** ** ReadAllTargets *)

Section ReadAll.

Variable T : Targeter.

(** The [for] loop of [ReadAllTargets], bounded by the number of [Next]
    calls it may make. The results are [(tgts, err)]. *)
Fixpoint readAllLoop (fuel : nat) (s : state T) (acc : list Target)
  : list Target * ret * state T :=
  match fuel with
  | O => ([], OutOfFuel, s)
  | S fuel' =>
      let '(r, out, s') := Next T s (Some zeroTarget) in
      match r with
      | Return (Some ErrNoTargets) =>
          if Nat.eqb (length acc) 0
          then ([], Return (Some ErrNoTargets), s')
          else (acc, Return None, s')
      | Return (Some e) => ([], Return (Some e), s')
      | Return None => readAllLoop fuel' s' (acc ++ [default zeroTarget out])%list
      | Panic m => ([], Panic m, s')
      | OutOfFuel => ([], OutOfFuel, s')
      end
  end.

Definition ReadAllTargets (fuel : nat) (s : state T)
  : list Target * ret * state T :=
  readAllLoop fuel s [].

End ReadAll.

(** ** The HTTP-text decoder *)

Record httpTargeter : Type := mkHTTP {
  h_body : string;
  h_hdr : option HeaderMap;
  h_sc : peekingScanner
}.

Definition NewHTTPTargeter (lines : list string) (e : option error)
    (body : string) (hdr : option HeaderMap) : httpTargeter :=
  mkHTTP body hdr (mkPeeking (NewScanner lines e) "").

Definition isUpper (c : ascii) : bool :=
  Nat.leb 65 (nat_of_ascii c) && Nat.leb (nat_of_ascii c) 90.

(** The regular expression class [\s]: tab, newline, form feed, carriage
    return and space. *)
Definition isReSpace (c : ascii) : bool := byte_in c [9; 10; 12; 13; 32].

(** After a first upper-case letter: more of them, then one [\s]. *)
Fixpoint methodTail (s : string) : bool :=
  match s with
  | EmptyString => false
  | String c r => if isUpper c then methodTail r else isReSpace c
  end.

(** [httpMethodChecker.MatchString(t)] for the expression [^[A-Z]+\s]. *)
Definition startsWithHTTPMethod (t : string) : bool :=
  match t with
  | EmptyString => false
  | String c r => isUpper c && methodTail r
  end.

(** [len(line) != 0 && line[0] != '#']. *)
Definition opensBlock (line : string) : bool :=
  match line with
  | EmptyString => false
  | String c _ => negb (Ascii.eqb c "#"%char)
  end.

(** [tgt.Header = http.Header{}; for k, vs := range hdr { tgt.Header[k] = vs }].
    The slice [vs] is stored as it is, so the target shares its array
    with the provider's header and with every other target handed out.
    The model keeps the values a target holds when [Next] returns; what
    a later [append] to a shared array does to a target handed out
    before is left out, and runs of calls are stated for header lines
    whose names the provider's header does not hold ([ownNames]). *)
Definition copyHeader (hdr : option HeaderMap) : HeaderMap :=
  map_fold (fun k vs acc => <[k := vs]> acc) ∅ (default ∅ hdr).

(** How the header/body loop is left: by running to its end or a [break],
    or by a [return] with an error. *)
Inductive loopExit : Type :=
  | Done
  | Fail (e : error).

Module Http.
Section Decoder.

(** [url.ParseRequestURI], reduced to the error it returns, and
  [ioutil.ReadFile]. *)
Variable ParseRequestURI : string -> option error.
Variable ReadFile : string -> string * option error.

(** Each round of either loop hands out one line of [Peeking.ahead]. *)
Definition rounds (sc : peekingScanner) : nat := S (length (Peeking.ahead sc)).

(** The first loop of [Next]: the next line that is neither blank nor a
  comment, trimmed, or nothing when [Scan] fails. *)
Fixpoint seekLine (fuel : nat) (sc : peekingScanner)
  : option (option string * peekingScanner) :=
  match fuel with
  | O => None
  | S fuel' =>
      let (ok, sc1) := Peeking.Scan sc in
      if ok then
        let (txt, sc2) := Peeking.Text sc1 in
        let line := TrimSpace txt in
        if opensBlock line then Some (Some line, sc2)
        else seekLine fuel' sc2
      else Some (None, sc1)
  end.

Definition setBody (t : Target) (b : string) : Target :=
  mkTarget (Method t) (URL t) b (Header t) (Name t).

Definition setMethod (t : Target) (m : string) : Target :=
  mkTarget m (URL t) (Body t) (Header t) (Name t).

Definition setURL (t : Target) (u : string) : Target :=
  mkTarget (Method t) u (Body t) (Header t) (Name t).

(** [tgt.Header[k] = append(tgt.Header[k], v)]: the values of [k] as the
    target holds them after the call. *)
Definition addHeader (t : Target) (k v : string) : Target :=
  mkTarget (Method t) (URL t) (Body t)
  (Some (<[k := (headerGet (Header t) k ++ [v])%list]> (default ∅ (Header t))))
  (Name t).

(** The second loop of [Next], over the header/body section. *)
Fixpoint readSection (fuel : nat) (sc : peekingScanner) (t : Target)
  : option (loopExit * Target * peekingScanner) :=
  match fuel with
  | O => None
  | S fuel' =>
      let (ok, sc1) := Peeking.Scan sc in
      if ok then
        let (txt, sc2) := Peeking.Text sc1 in
        let line := TrimSpace txt in
        if String.eqb line "" then Some (Done, t, sc2)
        else if HasPrefix line "@" then
          let (data, err) := ReadFile (String.substring 1 (String.length line - 1) line) in
          match err with
          | Some e => Some (Fail (Errorf ("bad body: " +:+ error_message e)),
                            setBody t data, sc2)
          | None => Some (Done, setBody t data, sc2)
          end
        else
          match cut ":"%char line with
          | None => Some (Fail (Errorf ("bad header: " +:+ line)), t, sc2)
          | Some (k, v) =>
              if String.eqb (TrimSpace k) "" then
                Some (Fail (Errorf ("bad header: " +:+ line)), t, sc2)
              else if String.eqb (TrimSpace v) "" then
                Some (Fail (Errorf ("bad header: " +:+ line)), t, sc2)
              else readSection fuel' sc2 (addHeader t (TrimSpace k) (TrimSpace v))
          end
      else Some (Done, t, sc1)
  end.

Definition Next (h : httpTargeter) (tgt : option Target)
  : ret * option Target * httpTargeter :=
  let at_ sc := mkHTTP (h_body h) (h_hdr h) sc in
  match tgt with
  | None => (Return (Some ErrNilTarget), None, h)
  | Some out =>
      match seekLine (rounds (h_sc h)) (h_sc h) with
      | None => (OutOfFuel, tgt, h)
      | Some (None, sc1) => (Return (Some ErrNoTargets), tgt, at_ sc1)
      | Some (Some line, sc1) =>
          let t1 := mkTarget (Method out) (URL out) (h_body h)
                      (Some (copyHeader (h_hdr h))) (Name out) in
          match cut " "%char line with
          | None =>
              (Return (Some (Errorf ("bad target: " +:+ line))), Some t1, at_ sc1)
          | Some (tok0, tok1) =>
              if negb (startsWithHTTPMethod line) then
                (Return (Some (Errorf ("bad method: " +:+ tok0))), Some t1, at_ sc1)
              else
                let t2 := setMethod t1 tok0 in
                match ParseRequestURI tok1 with
                | Some _ =>
                    (Return (Some (Errorf ("bad URL: " +:+ tok1))), Some t2, at_ sc1)
                | None =>
                    let t3 := setURL t2 tok1 in
                    let (pk, sc2) := Peeking.Peek sc1 in
                    let line2 := TrimSpace pk in
                    if String.eqb line2 "" || startsWithHTTPMethod line2 then
                      (Return None, Some t3, at_ sc2)
                    else
                      match readSection (rounds sc2) sc2 t3 with
                      | None => (OutOfFuel, Some t3, at_ sc2)
                      | Some (Fail e, t4, sc3) =>
                          (Return (Some e), Some t4, at_ sc3)
                      | Some (Done, t4, sc3) =>
                          match Peeking.Err sc3 with
                          | Some _ => (Return (Some ErrNoTargets), Some t4, at_ sc3)
                          | None => (Return None, Some t4, at_ sc3)
                          end
                      end
                end
          end
      end
  end.

Definition targeter : Targeter := mkTargeter httpTargeter Next.

End Decoder.
End Http.

(** ** Runs of calls *)

Section Runs.

Variable T : Targeter.

(** [n] consecutive [Next] calls by one caller, each into a fresh
    target: what each call returned and left in its target. *)
Fixpoint callN (n : nat) (s : state T) : list (ret * option Target) * state T :=
  match n with
  | O => ([], s)
  | S n' =>
      let '(r, out, s') := Next T s (Some zeroTarget) in
      let (rest, s'') := callN n' s' in
      ((r, out) :: rest, s'')
  end.

(** [k] consecutive calls that all succeed: the targets they produced,
    in order, and the state they leave. *)
Fixpoint serves (k : nat) (s : state T) : option (list Target * state T) :=
  match k with
  | O => Some ([], s)
  | S k' =>
      match Next T s (Some zeroTarget) with
      | (Return None, out, s') =>
          match serves k' s' with
          | Some (ts, s'') => Some (default zeroTarget out :: ts, s'')
          | None => None
          end
      | _ => None
      end
  end.

End Runs.

(** The last, and the first, byte is not an ASCII space. *)
Fixpoint endsNonSpace (s : string) : bool :=
  match s with
  | EmptyString => false
  | String c EmptyString => negb (isAsciiSpace c)
  | String _ r => endsNonSpace r
  end.

Definition startsNonSpace (s : string) : bool :=
  match s with
  | EmptyString => false
  | String c _ => negb (isAsciiSpace c)
  end.

(** A scanner with nothing peeked, over the given pending lines. *)
Definition idle (lines : list string) (tok : string) (e se : option error)
  : peekingScanner :=
  mkPeeking (mkScanner lines tok e se) "".

(** ** Stand-ins for the collaborators

    The decoders are parameterised by what they call outside the
    package. To run them on examples, these stand in for it: a URI check
    that accepts what starts like an absolute URL or path, an empty file
    system, and a JSON lexer given by a finite table of lines. *)

Definition sampleParseRequestURI (u : string) : option error :=
  if HasPrefix u "http://" || HasPrefix u "https://" || HasPrefix u "/"
  then None
  else Some (ExtError "invalid URI for request").

Definition sampleReadFile (path : string) : string * option error :=
  ("", Some (ExtError ("open " +:+ path +:+ ": no such file or directory"))).

Fixpoint tableDecode (table : list (string * Target)) (line : string)
  : Target * option error :=
  match table with
  | [] => (zeroTarget, Some (ExtError "parse error: syntax error"))
  | (l, t) :: table' =>
      if String.eqb l line then (t, None) else tableDecode table' line
  end.

(** Lines of JSON text for the table: [quoted s] is [s] between double
    quotes. *)
Definition quoted (s : string) : string :=
  String "034"%char s +:+ String "034"%char "".

Definition lineGet : string :=
  "{" +:+ quoted "method" +:+ ":" +:+ quoted "GET" +:+ ","
  +:+ quoted "url" +:+ ":" +:+ quoted "http://x" +:+ ","
  +:+ quoted "header" +:+ ":{" +:+ quoted "A" +:+ ":[" +:+ quoted "2" +:+ "]}}".

Definition lineNoMethod : string :=
  "{" +:+ quoted "url" +:+ ":" +:+ quoted "http://x" +:+ "}".

Definition lineNoURL : string :=
  "{" +:+ quoted "method" +:+ ":" +:+ quoted "GET" +:+ "}".

Definition sampleTable : list (string * Target) :=
  [ (lineGet, mkTarget "GET" "http://x" "" (Some {["A" := ["2"]]}) "");
    (lineNoMethod, mkTarget "" "http://x" "" None "");
    (lineNoURL, mkTarget "GET" "" "" None "") ].

Definition sampleDecode : string -> Target * option error := tableDecode sampleTable.

(** ** Streams of lines *)

Definition newline : string := String "010"%char "".

(** The lines, each followed by a newline. *)
Fixpoint joinLines (ls : list string) : string :=
  match ls with
  | [] => ""
  | l :: ls' => l +:+ newline +:+ joinLines ls'
  end.

(** A line of the stream (it holds no newline) that is blank. *)
Definition blankLine (b : string) : Prop :=
  cut "010"%char b = None /\ TrimSpace (b +:+ newline) = "".

(** ** The JSON form of a target *)

(** What the fields of a target's JSON object hold, as the generated
    code hands them to and takes them from the easyjson writer and lexer:
    a string, a byte slice (a string in base64 on the wire) or the header
    object, whose members are arrays of strings. *)
Inductive jvalue : Type :=
  | JString (s : string)
  | JBytes (b : string)
  | JHeader (entries : list (string * list string)).

Abbreviation jobject := (list (string * jvalue)).

(** Modelled from the spec: [jsonTarget.encode], the generated encoder
    that [NewJSONTargetEncoder] calls, is not under src/. The spec has it
    "encode the target as one compact JSON object using the exact field
    names" of the decoder's grammar: [method], [url], [body]
    (binary-encoded) and [header] (name to ordered list of values); by
    the struct tags of [Target], [body], [header] and [name] are left out
    when empty. *)
Definition encodeTarget (t : Target) : jobject :=
  ([("method", JString (Method t)); ("url", JString (URL t))]
   ++ (if Nat.eqb (String.length (Body t)) 0 then [] else [("body", JBytes (Body t))])
   ++ (if Nat.eqb (headerLen (Header t)) 0 then []
       else [("header", JHeader (map_to_list (default ∅ (Header t))))])
   ++ (if String.eqb (Name t) "" then [] else [("name", JString (Name t))]))%list.

(** The members of a header object, read in turn into a fresh map; a
    repeated name keeps its last array. *)
Definition decodeHeader (entries : list (string * list string)) : HeaderMap :=
  fold_left (fun acc kv => <[kv.1 := kv.2]> acc) entries ∅.

(** One member of the object read into the target; a value of the wrong
    kind is the lexer's error, and a name that is not a field is passed
    over. *)
Definition decodeField (acc : Target * option error) (f : string * jvalue)
  : Target * option error :=
  let (t, err) := acc in
  let bad := (t, Some (default (ExtError "parse error: unexpected value") err)) in
  if String.eqb f.1 "method" then
    match f.2 with
    | JString s => (mkTarget s (URL t) (Body t) (Header t) (Name t), err)
    | _ => bad
    end
  else if String.eqb f.1 "url" then
    match f.2 with
    | JString s => (mkTarget (Method t) s (Body t) (Header t) (Name t), err)
    | _ => bad
    end
  else if String.eqb f.1 "body" then
    match f.2 with
    | JBytes b => (mkTarget (Method t) (URL t) b (Header t) (Name t), err)
    | _ => bad
    end
  else if String.eqb f.1 "header" then
    match f.2 with
    | JHeader es =>
        (mkTarget (Method t) (URL t) (Body t) (Some (decodeHeader es)) (Name t), err)
    | _ => bad
    end
  else if String.eqb f.1 "name" then
    match f.2 with
    | JString s => (mkTarget (Method t) (URL t) (Body t) (Header t) s, err)
    | _ => bad
    end
  else acc.

(** Modelled from the spec: [jsonTarget.decode], the generated decoder
    that [jsonTargeter.Next] calls, is not under src/. The spec's grammar
    for one object: [method] and [url], [body] (optional,
    binary-encoded), [header] (optional, mapping from name to ordered
    list of values); fields that are absent keep their zero value. *)
Definition decodeTarget (o : jobject) : Target * option error :=
  fold_left decodeField o (zeroTarget, None).

(** The decoder of one line, over a lexer [parse] that turns the text
    into the object's members or fails. *)
Definition decodeWith (parse : string -> jobject * option error) (data : string)
  : Target * option error :=
  let (o, err) := parse data in
  match err with
  | Some e => (zeroTarget, Some e)
  | None => decodeTarget o
  end.

(** What the encoder returned by [NewJSONTargetEncoder] writes for one
    target, over a writer [print] of the object: the object's text and a
    newline. *)
Definition Encode (print : jobject -> string) (t : Target) : string :=
  print (encodeTarget t) +:+ newline.

(** The writer's text for [o] is one non-blank line that the lexer reads
    back as [o]. *)
Definition readsBack (print : jobject -> string)
    (parse : string -> jobject * option error) (o : jobject) : Prop :=
  cut "010"%char (print o) = None
  /\ TrimSpace (print o +:+ newline) <> ""
  /\ parse (TrimSpace (print o +:+ newline)) = (o, None).

(** The target of [lineGet]. *)
Definition targetGet : Target :=
  mkTarget "GET" "http://x" "" (Some {["A" := ["2"]]}) "".

(** ** JSON text *)

(** Modelled from the spec: the easyjson writer and lexer that the
    generated [jsonTarget.encode] and [jsonTarget.decode] drive are not
    under src/. The spec has one compact JSON object per line, with the
    body binary-encoded; [NewJSONTargeter]'s comment says base64. The
    writer below prints compact JSON, escaping the double quote, the
    backslash and every control byte; the lexer reads JSON back, with
    white space between tokens, the escapes of a JSON string, and the
    value each member must have by its name. Bytes from 128 up are
    copied as they are. *)
Module JsonText.

Definition dquote : ascii := "034"%char.
Definition backslash : ascii := "092"%char.

Definition hexDigits : string := "0123456789abcdef".

Definition hexChar (n : nat) : ascii := default "0"%char (String.get n hexDigits).

(** One byte of a string, as the writer prints it. *)
Definition escapeByte (c : ascii) : string :=
  if Ascii.eqb c dquote then String backslash (String dquote "")
  else if Ascii.eqb c backslash then String backslash (String backslash "")
  else if Nat.ltb (nat_of_ascii c) 32 then
    String backslash (String "u" (String "0" (String "0"
      (String (hexChar (nat_of_ascii c / 16))
         (String (hexChar (nat_of_ascii c mod 16)) "")))))
  else String c "".

Fixpoint escape (s : string) : string :=
  match s with
  | EmptyString => ""
  | String c r => escapeByte c +:+ escape r
  end.

Definition printString (s : string) : string :=
  String dquote (escape s +:+ String dquote "").

(** Base64, standard alphabet with padding. A sextet is kept in a byte
    whose two high bits are clear. *)
Definition b64chars : string :=
  "ABCDEFGHIJKLMNOPQRSTUVWXYZabcdefghijklmnopqrstuvwxyz0123456789+/".

Definition b64char (sextet : ascii) : ascii :=
  default "A"%char (String.get (nat_of_ascii sextet) b64chars).

Fixpoint indexOf (c : ascii) (s : string) (i : nat) : option nat :=
  match s with
  | EmptyString => None
  | String d r => if Ascii.eqb c d then Some i else indexOf c r (S i)
  end.

Definition b64val (c : ascii) : option ascii :=
  match indexOf c b64chars 0 with
  | Some i => Some (ascii_of_nat i)
  | None => None
  end.

(** The four sextets of three bytes; [Ascii] takes the low bit first. *)
Definition sextet1 (a : ascii) : ascii :=
  let 'Ascii a0 a1 a2 a3 a4 a5 a6 a7 := a in Ascii a2 a3 a4 a5 a6 a7 false false.

Definition sextet2 (a b : ascii) : ascii :=
  let 'Ascii a0 a1 a2 a3 a4 a5 a6 a7 := a in
  let 'Ascii b0 b1 b2 b3 b4 b5 b6 b7 := b in
  Ascii b4 b5 b6 b7 a0 a1 false false.

Definition sextet3 (b c : ascii) : ascii :=
  let 'Ascii b0 b1 b2 b3 b4 b5 b6 b7 := b in
  let 'Ascii c0 c1 c2 c3 c4 c5 c6 c7 := c in
  Ascii c6 c7 b0 b1 b2 b3 false false.

Definition sextet4 (c : ascii) : ascii :=
  let 'Ascii c0 c1 c2 c3 c4 c5 c6 c7 := c in Ascii c0 c1 c2 c3 c4 c5 false false.

(** And the three bytes of four sextets. *)
Definition byte1 (s1 s2 : ascii) : ascii :=
  let 'Ascii p0 p1 p2 p3 p4 p5 _ _ := s1 in
  let 'Ascii q0 q1 q2 q3 q4 q5 _ _ := s2 in
  Ascii q4 q5 p0 p1 p2 p3 p4 p5.

Definition byte2 (s2 s3 : ascii) : ascii :=
  let 'Ascii q0 q1 q2 q3 q4 q5 _ _ := s2 in
  let 'Ascii r0 r1 r2 r3 r4 r5 _ _ := s3 in
  Ascii r2 r3 r4 r5 q0 q1 q2 q3.

Definition byte3 (s3 s4 : ascii) : ascii :=
  let 'Ascii r0 r1 r2 r3 r4 r5 _ _ := s3 in
  let 'Ascii t0 t1 t2 t3 t4 t5 _ _ := s4 in
  Ascii t0 t1 t2 t3 t4 t5 r0 r1.

Definition zeroByte : ascii := "000"%char.

Fixpoint b64encode (s : string) : string :=
  match s with
  | EmptyString => ""
  | String a EmptyString =>
      String (b64char (sextet1 a)) (String (b64char (sextet2 a zeroByte)) "==")
  | String a (String b EmptyString) =>
      String (b64char (sextet1 a)) (String (b64char (sextet2 a b))
        (String (b64char (sextet3 b zeroByte)) "="))
  | String a (String b (String c r)) =>
      String (b64char (sextet1 a)) (String (b64char (sextet2 a b))
        (String (b64char (sextet3 b c)) (String (b64char (sextet4 c)) (b64encode r))))
  end.

Fixpoint b64decode (s : string) : option string :=
  match s with
  | EmptyString => Some ""
  | String c1 (String c2 (String c3 (String c4 r))) =>
      match b64val c1, b64val c2 with
      | Some s1, Some s2 =>
          if Ascii.eqb c3 "="%char then
            if Ascii.eqb c4 "="%char && String.eqb r ""
            then Some (String (byte1 s1 s2) "")
            else None
          else
            match b64val c3 with
            | Some s3 =>
                if Ascii.eqb c4 "="%char then
                  if String.eqb r ""
                  then Some (String (byte1 s1 s2) (String (byte2 s2 s3) ""))
                  else None
                else
                  match b64val c4, b64decode r with
                  | Some s4, Some rest =>
                      Some (String (byte1 s1 s2)
                              (String (byte2 s2 s3) (String (byte3 s3 s4) rest)))
                  | _, _ => None
                  end
            | None => None
            end
      | _, _ => None
      end
  | _ => None
  end.

(** Reading: white space, single characters and strings. *)
Definition isJsonSpace (c : ascii) : bool :=
  Ascii.eqb c " "%char || Ascii.eqb c "009"%char
  || Ascii.eqb c "010"%char || Ascii.eqb c "013"%char.

Fixpoint skipWs (s : string) : string :=
  match s with
  | EmptyString => ""
  | String c r => if isJsonSpace c then skipWs r else s
  end.

Definition expect (c : ascii) (s : string) : option string :=
  match skipWs s with
  | String d r => if Ascii.eqb d c then Some r else None
  | EmptyString => None
  end.

Definition hexVal (c : ascii) : option N :=
  let n := N_of_ascii c in
  if (48 <=? n)%N && (n <=? 57)%N then Some (n - 48)%N
  else if (97 <=? n)%N && (n <=? 102)%N then Some (n - 87)%N
  else if (65 <=? n)%N && (n <=? 70)%N then Some (n - 55)%N
  else None.

(** The UTF-8 bytes of a code point of the basic plane; a surrogate is
    refused. *)
Definition utf8 (n : N) : option string :=
  if (n <? 128)%N then Some (String (ascii_of_N n) "")
  else if (n <? 2048)%N then
    Some (String (ascii_of_N (192 + n / 64))
            (String (ascii_of_N (128 + n mod 64)) ""))
  else if (55296 <=? n)%N && (n <? 57344)%N then None
  else
    Some (String (ascii_of_N (224 + n / 4096))
            (String (ascii_of_N (128 + (n / 64) mod 64))
               (String (ascii_of_N (128 + n mod 64)) ""))).

Definition unescape (e : ascii) : option ascii :=
  if Ascii.eqb e dquote then Some dquote
  else if Ascii.eqb e backslash then Some backslash
  else if Ascii.eqb e "/"%char then Some "/"%char
  else if Ascii.eqb e "b"%char then Some "008"%char
  else if Ascii.eqb e "f"%char then Some "012"%char
  else if Ascii.eqb e "n"%char then Some "010"%char
  else if Ascii.eqb e "r"%char then Some "013"%char
  else if Ascii.eqb e "t"%char then Some "009"%char
  else None.

Definition prepend (p : string) (res : option (string * string))
  : option (string * string) :=
  match res with
  | Some (x, r) => Some (p +:+ x, r)
  | None => None
  end.

(** The characters of a string after its opening quote: the string and
    the text after its closing quote. *)
Fixpoint parseChars (s : string) : option (string * string) :=
  match s with
  | EmptyString => None
  | String c r =>
      if Ascii.eqb c dquote then Some ("", r)
      else if Ascii.eqb c backslash then
        match r with
        | String e r1 =>
            if Ascii.eqb e "u"%char then
              match r1 with
              | String h1 (String h2 (String h3 (String h4 r2))) =>
                  match hexVal h1, hexVal h2, hexVal h3, hexVal h4 with
                  | Some v1, Some v2, Some v3, Some v4 =>
                      match utf8 (((v1 * 16 + v2) * 16 + v3) * 16 + v4)%N with
                      | Some p => prepend p (parseChars r2)
                      | None => None
                      end
                  | _, _, _, _ => None
                  end
              | _ => None
              end
            else
              match unescape e with
              | Some b => prepend (String b "") (parseChars r1)
              | None => None
              end
        | EmptyString => None
        end
      else if Nat.ltb (nat_of_ascii c) 32 then None
      else prepend (String c "") (parseChars r)
  end.

Definition parseString (s : string) : option (string * string) :=
  match expect dquote s with
  | Some r => parseChars r
  | None => None
  end.

(** Items separated by commas, up to a closing bracket. *)
Section Items.

Context {A : Type}.
Variable pr : A -> string.
Variable item : string -> option (A * string).
Variable close : ascii.

Fixpoint printItems (xs : list A) : string :=
  match xs with
  | [] => String close ""
  | x :: xs' =>
      pr x +:+ match xs' with
               | [] => String close ""
               | _ :: _ => String ","%char (printItems xs')
               end
  end.

Fixpoint parseItems (fuel : nat) (s : string) : option (list A * string) :=
  match fuel with
  | O => None
  | S fuel' =>
      match item s with
      | Some (x, r) =>
          match skipWs r with
          | String c r' =>
              if Ascii.eqb c ","%char then
                match parseItems fuel' r' with
                | Some (xs, r'') => Some (x :: xs, r'')
                | None => None
                end
              else if Ascii.eqb c close then Some ([x], r')
              else None
          | EmptyString => None
          end
      | None => None
      end
  end.

(** An item is read back from its text, which begins with a double
    quote. *)
Definition readable (x : A) : Prop :=
  (forall rest, item (pr x +:+ rest) = Some (x, rest))
  /\ exists r, pr x = String dquote r.

(** After the opening bracket; every item takes at least one byte. *)
Definition parseSeq (s : string) : option (list A * string) :=
  match skipWs s with
  | String c r =>
      if Ascii.eqb c close then Some ([], r) else parseItems (String.length s) s
  | EmptyString => None
  end.

End Items.

(** The header object: its members are arrays of strings. *)
Definition printArray (vs : list string) : string :=
  String "["%char (printItems printString "]"%char vs).

Definition parseArray (s : string) : option (list string * string) :=
  match expect "["%char s with
  | Some r => parseSeq parseString "]"%char r
  | None => None
  end.

Definition printMember (kv : string * list string) : string :=
  printString kv.1 +:+ String ":"%char (printArray kv.2).

Definition parseMember (s : string) : option (string * list string * string) :=
  match parseString s with
  | Some (k, r) =>
      match expect ":"%char r with
      | Some r1 =>
          match parseArray r1 with
          | Some (vs, r2) => Some ((k, vs), r2)
          | None => None
          end
      | None => None
      end
  | None => None
  end.

Definition printHeader (es : list (string * list string)) : string :=
  String "{"%char (printItems printMember "}"%char es).

Definition parseHeader (s : string)
  : option (list (string * list string) * string) :=
  match expect "{"%char s with
  | Some r => parseSeq parseMember "}"%char r
  | None => None
  end.

(** The members of the target's object. *)
Definition printValue (v : jvalue) : string :=
  match v with
  | JString s => printString s
  | JBytes b => printString (b64encode b)
  | JHeader es => printHeader es
  end.

Definition printField (f : string * jvalue) : string :=
  printString f.1 +:+ String ":"%char (printValue f.2).

(** The value is read as the member's name asks: base64 for [body], the
    header object for [header], a string for the others. *)
Definition parseField (s : string) : option (string * jvalue * string) :=
  match parseString s with
  | Some (k, r) =>
      match expect ":"%char r with
      | Some r1 =>
          if String.eqb k "body" then
            match parseString r1 with
            | Some (text, r2) =>
                match b64decode text with
                | Some b => Some ((k, JBytes b), r2)
                | None => None
                end
            | None => None
            end
          else if String.eqb k "header" then
            match parseHeader r1 with
            | Some (es, r2) => Some ((k, JHeader es), r2)
            | None => None
            end
          else
            match parseString r1 with
            | Some (v, r2) => Some ((k, JString v), r2)
            | None => None
            end
      | None => None
      end
  | None => None
  end.

(** Modelled from the spec: the easyjson writer, which is not under
    src/, "encode the target as one compact JSON object". *)
Definition print (o : jobject) : string :=
  String "{"%char (printItems printField "}"%char o).

(** Modelled from the spec: the easyjson lexer, which is not under
    src/, "parse the line as a JSON object": one object and nothing
    after it but white space. *)
Definition parse (data : string) : jobject * option error :=
  match expect "{"%char data with
  | Some r =>
      match parseSeq parseField "}"%char r with
      | Some (o, rest) =>
          if String.eqb (skipWs rest) "" then (o, None)
          else ([], Some (ExtError "parse error: invalid character after top-level value"))
      | None => ([], Some (ExtError "parse error: syntax error"))
      end
  | None => ([], Some (ExtError "parse error: syntax error"))
  end.

End JsonText.

(** A member holds the kind of value its name asks for. *)
Definition wellKinded (f : string * jvalue) : bool :=
  match f.2 with
  | JBytes _ => String.eqb f.1 "body"
  | JHeader _ => String.eqb f.1 "header"
  | JString _ => negb (String.eqb f.1 "body") && negb (String.eqb f.1 "header")
  end.

(** ** Requests *)

(** What [Target.Request] builds: the request [http.NewRequest] returned,
    kept as it is in [base], with the two fields the method then writes,
    the header and the host. *)
Record Request (R : Type) : Type := mkRequest {
  base : R;
  rHeader : HeaderMap;
  rHost : string
}.

Arguments mkRequest {R} _ _ _.
Arguments base {R} _.
Arguments rHeader {R} _.
Arguments rHost {R} _.

(** [http.Header.Get(key)] for a key that is already in canonical form,
    as ["Host"] is: the first value stored under it, or the empty string. *)
Definition headerFirst (h : HeaderMap) (key : string) : string :=
  match default [] (h !! key) with
  | v :: _ => v
  | [] => ""
  end.

Section TargetRequest.

Variable R : Type.

(** [http.NewRequest(method, url, body)]: an error, or the request. *)
Variable NewRequest : string -> string -> string -> error + Request R.

(** [Target.Request]. *)
Definition TargetRequest (t : Target) : error + Request R :=
  match NewRequest (Method t) (URL t) (Body t) with
  | inl err => inl err
  | inr req =>
      let h := map_fold (fun k vs acc => <[k := vs]> acc) (rHeader req)
                 (default ∅ (Header t)) in
      let host := headerFirst h "Host" in
      inr (mkRequest (base req) h
             (if String.eqb host "" then rHost req else host))
  end.

End TargetRequest.

(** The target a successful [jsonTargeter.Next] leaves in place of
    [out], for the decoded object [t], over the provider's default body
    and header. *)
Definition jsonResult (body : string) (hdr : option HeaderMap)
    (out t : Target) : Target :=
  mkTarget (Method t) (URL t)
    (if Nat.ltb 0 (String.length (Body t)) then Body t else body)
    (Some (appendValues (Header t) (appendValues hdr (default ∅ (Header out)))))
    (Name out).

(** ** Lines of the HTTP-text format *)

(** The method and URL a line yields when [Next] accepts it as the first
    line of a block: it is not blank and no comment, holds a space,
    starts like a method, and the text after its first space is a
    request URI. *)
Definition methodLine (ParseRequestURI : string -> option error) (raw : string)
  : option (string * string) :=
  let line := TrimSpace raw in
  if opensBlock line then
    match cut " "%char line with
    | Some (m, u) =>
        if startsWithHTTPMethod line then
          match ParseRequestURI u with
          | None => Some (m, u)
          | Some _ => None
          end
        else None
    | None => None
    end
  else None.

(** The name and value a line yields when the header/body loop accepts it
    as a header line. *)
Definition headerLine (raw : string) : option (string * string) :=
  let line := TrimSpace raw in
  if String.eqb line "" then None
  else if HasPrefix line "@" then None
  else match cut ":"%char line with
       | Some (k, v) =>
           if String.eqb (TrimSpace k) "" then None
           else if String.eqb (TrimSpace v) "" then None
           else Some (TrimSpace k, TrimSpace v)
       | None => None
       end.

(** What [Next] tests on the line it peeks at: blank, or starting like a
    method. *)
Definition closesBlock (raw : string) : bool :=
  String.eqb (TrimSpace raw) "" || startsWithHTTPMethod (TrimSpace raw).

(** The target as [Next] has it after the method/URL line: the provider's
    default body and a copy of its default header. *)
Definition httpBase (body : string) (hdr : option HeaderMap) (out : Target)
    (m u : string) : Target :=
  mkTarget m u body (Some (default ∅ hdr)) (Name out).

(** The header lines of a section, added in their order. *)
Definition addHeaders (t : Target) (kvs : list (string * string)) : Target :=
  fold_left (fun t kv => Http.addHeader t kv.1 kv.2) kvs t.

(** The state of a scanner that has reported the end of its input. *)
Definition exhausted (e : option error) : peekingScanner :=
  mkPeeking (mkScanner [] "" e e) "".

(** How [Next] ends once the method/URL line is accepted: the decision
    taken on the peeked line, and the outcome of the header/body loop. *)
Definition afterLine (ReadFile : string -> string * option error)
    (h : httpTargeter) (t3 : Target) (sc1 : peekingScanner)
  : ret * option Target * httpTargeter :=
  let at_ sc := mkHTTP (h_body h) (h_hdr h) sc in
  let (pk, sc2) := Peeking.Peek sc1 in
  if String.eqb (TrimSpace pk) "" || startsWithHTTPMethod (TrimSpace pk) then
    (Return None, Some t3, at_ sc2)
  else
    match Http.readSection ReadFile (Http.rounds sc2) sc2 t3 with
    | None => (OutOfFuel, Some t3, at_ sc2)
    | Some (Fail e, t4, sc3) => (Return (Some e), Some t4, at_ sc3)
    | Some (Done, t4, sc3) =>
        match Peeking.Err sc3 with
        | Some _ => (Return (Some ErrNoTargets), Some t4, at_ sc3)
        | None => (Return None, Some t4, at_ sc3)
        end
    end.

(** ** Blocks of the HTTP-text format *)

(** A block as it is written: the method/URL line, header lines, and the
    blank line that closes it. *)
Record Block : Type := mkBlock {
  bLine : string;
  bHeaders : list string;
  bClose : string
}.

Definition blockLines (b : Block) : list string :=
  (bLine b :: bHeaders b ++ [bClose b])%list.

(** The target a well-formed block stands for, decoded into a zero
    target over the provider's defaults: its first line is a method/URL
    line, its header lines are header lines the first of which does not
    start like a method, and its closing line is blank. *)
Definition blockTarget (ParseRequestURI : string -> option error)
    (body : string) (hdr : option HeaderMap) (b : Block) : option Target :=
  match methodLine ParseRequestURI (bLine b), mapM headerLine (bHeaders b) with
  | Some (m, u), Some kvs =>
      if String.eqb (TrimSpace (bClose b)) ""
         && match bHeaders b with
            | [] => true
            | l1 :: _ => negb (closesBlock l1)
            end
      then Some (addHeaders (httpBase body hdr zeroTarget m u) kvs)
      else None
  | _, _ => None
  end.

(** No header line of the block names a header that the provider's
    default header holds: the block's values go to slices of the target's
    own. *)
Definition ownNames (hdr : option HeaderMap) (b : Block) : Prop :=
  Forall (fun l => match headerLine l with
                   | Some kv => default ∅ hdr !! kv.1 = None
                   | None => True
                   end) (bHeaders b).

(** * Series grouping of the gnuplot report (gnuplot/gnuplot.go) *)

Module Gnuplot.

(** [type GroupByMask uint16]; every value built here stays below 16. *)
Definition GroupByMask := Z.

(** The constants share one [const] block: [GroupByNothing] sits at
    [iota = 0], so [1 << iota] starts at [iota = 1]. *)
Definition GroupByNothing : GroupByMask := 0%Z.
Definition GroupByName : GroupByMask := Z.shiftl 1 1.
Definition GroupByStatusCode : GroupByMask := Z.shiftl 1 2.
Definition GroupByFailure : GroupByMask := Z.shiftl 1 3.

Definition groupByNameStr : string := "name".
Definition groupByCodeStr : string := "statuscode".
Definition groupByFailureStr : string := "failure".
Definition groupByNothingStr : string := "".

(** An error is its message; [g] keeps its zero value in the default
    case. *)
Definition groupByFromString (v : string) : GroupByMask * option string :=
  if String.eqb v groupByNameStr then (GroupByName, None)
  else if String.eqb v groupByCodeStr then (GroupByStatusCode, None)
  else if String.eqb v groupByFailureStr then (GroupByFailure, None)
  else if String.eqb v groupByNothingStr then (GroupByNothing, None)
  else (0%Z, Some ("unkown GroupByMask string value: " +:+ v)).

(** [strings.Split(s, sep)] for a separator of one byte: the pieces
    between its occurrences, the empty ones included; never an empty
    list. *)
Fixpoint Split (s : string) (sep : ascii) : list string :=
  match s with
  | EmptyString => [""]
  | String c r =>
      if Ascii.eqb c sep then "" :: Split r sep
      else match Split r sep with
           | h :: t => String c h :: t
           | [] => [String c ""]
           end
  end.

(** One turn of the loop over the chunks: [iFlag, err =
    groupByFromString(flag)] assigns [err] anew every time. *)
Definition parseChunk (v : string) (st : GroupByMask * option string) (flag : string)
  : GroupByMask * option string :=
  let '(iFlag, err) := groupByFromString flag in
  let err :=
    match err with
    | Some m => Some ("could not parse GroupByMask: " +:+ v +:+ ": " +:+ m)
    | None => None
    end in
  let g := if (iFlag =? GroupByNothing)%Z then st.1 else Z.lor st.1 iFlag in
  (g, err).

Definition GroupByMaskFromString (v : string) : GroupByMask * option string :=
  let chunks := Split v "|" in
  if (length chunks =? 0)%nat then groupByFromString v
  else
    let '(g, err) := fold_left (parseChunk v) chunks (0%Z, None) in
    if negb (Z.land g GroupByStatusCode =? 0)%Z && negb (Z.land g GroupByFailure =? 0)%Z
    then (g, Some ("it's redundant to group by failure and status code: " +:+ v))
    else (g, err).

(** [func (g GroupByMask) String() string]. *)
Definition GroupByMask_String (g : GroupByMask) : string :=
  let str := "" in
  let str :=
    if negb (Z.land g GroupByName =? 0)%Z then str +:+ groupByNameStr else str in
  let str :=
    if negb (Z.land g GroupByFailure =? 0)%Z
    then (if negb (String.length str =? 0)%nat then str +:+ "|" else str)
         +:+ groupByFailureStr
    else str in
  let str :=
    if negb (Z.land g GroupByStatusCode =? 0)%Z
    then (if negb (String.length str =? 0)%nat then str +:+ "|" else str)
         +:+ groupByCodeStr
    else str in
  str.

(** [groupByFlag.Set] of gnuplot-report: the flag's value is replaced
    only by a string that parses without error. *)
Definition Set_ (g : GroupByMask) (v : string) : GroupByMask * option string :=
  let '(value, err) := GroupByMaskFromString v in
  match err with
  | Some e => (g, Some e)
  | None => (value, None)
  end.

(** The fields of [vegeta.Result] that the report reads or writes;
    [Code] is a [uint16], [Timestamp] a [time.Time]. *)
Record Result (Time : Type) : Type := mkResult {
  Attack : string;
  Code : Z;
  Timestamp : Time;
  Error : string
}.

Arguments mkResult {Time}.
Arguments Attack {Time}.
Arguments Code {Time}.
Arguments Timestamp {Time}.
Arguments Error {Time}.

Definition setAttack {Time} (r : Result Time) (a : string) : Result Time :=
  mkResult a (Code r) (Timestamp r) (Error r).

Definition setCode {Time} (r : Result Time) (c : Z) : Result Time :=
  mkResult (Attack r) c (Timestamp r) (Error r).

(** [strconv.FormatInt(n, 10)], which is also what [%d] prints. *)
Definition FormatInt (n : Z) : string := NilZero.string_of_int (Z.to_int n).

(** [updateResultNameByGroupBy], with the plot's [groupBy] as an
    argument; the result is the [Result] as the call leaves it. *)
Definition updateResultNameByGroupBy {Time} (groupBy : GroupByMask) (r : Result Time)
  : Result Time :=
  if (groupBy =? GroupByNothing)%Z then setAttack r "All"
  else
    let r := if (Z.land groupBy GroupByName =? 0)%Z then setAttack r "All" else r in
    let r :=
      if negb (Z.land groupBy GroupByStatusCode =? 0)%Z
      then
        let r := if negb (String.eqb (Error r) "") then setCode r 0 else r in
        if String.eqb (Attack r) ""
        then setAttack r (FormatInt (Code r))
        else setAttack r (Attack r +:+ ":" +:+ FormatInt (Code r))
      else r in
    let r :=
      if negb (Z.land groupBy GroupByFailure =? 0)%Z
      then
        if negb (String.eqb (Error r) "") || ((Code r <? 200)%Z && (Code r >? 299)%Z)
        then
          if String.eqb (Attack r) "" then setAttack r "FAILURE"
          else setAttack r (Attack r +:+ ":FAILURE")
        else
          if String.eqb (Attack r) "" then setAttack r "OK"
          else setAttack r (Attack r +:+ ":SUCCESS")
      else r in
    if String.eqb (Attack r) "" then setAttack r "Series" else r.

End Gnuplot.

(** The error a word leaves behind it in [GroupByMaskFromString]. *)
Definition chunkError (v flag : string) : option string :=
  match (Gnuplot.groupByFromString flag).2 with
  | Some m => Some ("could not parse GroupByMask: " +:+ v +:+ ": " +:+ m)
  | None => None
  end.

Definition redundant (g : Gnuplot.GroupByMask) : bool :=
  negb (Z.land g Gnuplot.GroupByStatusCode =? 0)%Z
  && negb (Z.land g Gnuplot.GroupByFailure =? 0)%Z.

Definition flagValues : list Z := [0; 2; 4; 8]%Z.
Definition maskValues : list Z := [0; 2; 4; 6; 8; 10; 12; 14]%Z.

(** The masks that name a grouping: no bit but the three flags', and
    not status code and failure together. *)
Definition validMask (g : Gnuplot.GroupByMask) : bool :=
  existsb (Z.eqb g) [0; 2; 4; 6; 8; 10]%Z.

(** * Failure counts of the gnuplot report (gnuplot/failures.go) *)

Module Failures.

Section Encoder.

Context {Time : Type} `{Countable Time}.

(** [data] is a [map[string]map[time.Time]testCounts]; [float64] and
    its [++] are kept abstract, and so is
    [Timestamp.Truncate(time.Second)]. *)
Context {float64 : Type}.
Variable zero : float64.
Variable incr : float64 -> float64.
Variable Truncate : Time -> Time.

Record testCounts : Type := mkCounts {
  failures : float64;
  successes : float64
}.

(** [e.data[name][second]]: a read of a missing key gives the zero
    value, at both levels. *)
Definition at_ (d : gmap string (gmap Time testCounts)) (name : string) (second : Time) : testCounts :=
  default (mkCounts zero zero) (default ∅ (d !! name) !! second).

(** [failuresEncoder.Encode], which always returns [nil]: the encoder's
    [data] after the call. *)
Definition Encode (d : gmap string (gmap Time testCounts)) (r : Gnuplot.Result Time)
  : gmap string (gmap Time testCounts) :=
  let d :=
    match d !! Gnuplot.Attack r with
    | Some _ => d
    | None => <[Gnuplot.Attack r := ∅]> d
    end in
  let second := Truncate (Gnuplot.Timestamp r) in
  let tc := at_ d (Gnuplot.Attack r) second in
  let tc :=
    if negb (String.eqb (Gnuplot.Error r) "")
       || ((Gnuplot.Code r <? 200)%Z && (Gnuplot.Code r >? 299)%Z
           && negb (Gnuplot.Code r =? 404)%Z)
    then mkCounts (incr (failures tc)) (successes tc)
    else mkCounts (failures tc) (incr (successes tc)) in
  <[Gnuplot.Attack r := <[second := tc]> (default ∅ (d !! Gnuplot.Attack r))]> d.

End Encoder.

End Failures.

(** * Properties *)

(** ** The peeking scanner *)

Section PeekingFacts.

(** The scanner holds its look-ahead in the single string [peeked], so
    the lines ahead are the source's pending ones and at most one more. *)
Lemma ahead_at_most_one_buffered (s : peekingScanner) :
  length (Peeking.ahead s) <= S (length (pending (src s))).
Proof.
  unfold Peeking.ahead. destruct (String.eqb (peeked s) ""); simpl; lia.
Qed.

(** A peeked line that is not empty is what [Scan]+[Text] deliver next,
    and it is delivered once: afterwards the lines ahead are the ones
    that followed it. *)
Lemma peek_then_scan_text (l : string) (rest : list string) tok e1 e2 :
  l <> "" ->
  let s := mkPeeking (mkScanner (l :: rest) tok e1 e2) "" in
  exists s', Peeking.peekScanText s = (l, true, l, s')
             /\ Peeking.ahead s' = rest.
Proof.
  intros Hl s. unfold Peeking.peekScanText, Peeking.Peek. simpl.
  unfold Peeking.Scan, Peeking.Text. simpl.
  destruct (String.eqb l "") eqn:E.
  - apply String.eqb_eq in E. contradiction.
  - simpl. rewrite E. eexists. split; [reflexivity|]. reflexivity.
Qed.

(** An empty peeked line is not kept: [Scan] takes the empty [peeked]
    for "nothing pending" and advances the source, so [Text] returns
    the line after it. *)
Lemma peek_empty_then_scan_text (next : string) (rest : list string) tok e1 e2 :
  let s := mkPeeking (mkScanner ("" :: next :: rest) tok e1 e2) "" in
  exists s', Peeking.peekScanText s = ("", true, next, s')
             /\ Peeking.ahead s' = rest.
Proof.
  intros s. unfold Peeking.peekScanText, Peeking.Peek. simpl.
  unfold Peeking.Scan, Peeking.Text. simpl.
  eexists. split; reflexivity.
Qed.

End PeekingFacts.

(** C1. Over the line source [""; "x"], [Peek] returns the empty line and
    the following [Scan]+[Text] return ["x"]: the peeked empty line is
    skipped, and nothing is left ahead. The source comment promises the
    peeked value is "around the next time we Scan() + Text()". *)
Theorem peeked_empty_line_is_skipped :
  let s := mkPeeking (NewScanner [""; "x"] None) "" in
  (Peeking.peekScanText s).1 = ("", true, "x")
  /\ Peeking.ahead (Peeking.peekScanText s).2 = [].
Proof. split; reflexivity. Qed.


(** ** The static round-robin decoder *)

Section StaticFacts.

Lemma wrap64_small (z : Z) :
  (- 2 ^ 63 <= z < 2 ^ 63)%Z -> wrap64 z = z.
Proof.
  intros H. unfold wrap64.
  change (2 ^ 63)%Z with 9223372036854775808%Z in *.
  change (2 ^ 64)%Z with 18446744073709551616%Z.
  rewrite Z.mod_small; lia.
Qed.

(** One call, when [c] calls were served before (the counter is [c - 1])
    and the counter has not reached the end of [int64]. *)
Lemma static_next_nth (ts : list Target) (c : nat) (tgt : Target) :
  ts <> [] ->
  (Z.of_nat (length ts) < 2 ^ 63)%Z ->
  (Z.of_nat c < 2 ^ 63)%Z ->
  exists t, ts !! (Nat.modulo c (length ts)) = Some t
    /\ Static.Next (mkStatic ts (Z.of_nat c - 1)) (Some tgt)
       = (Return None, Some t, mkStatic ts (Z.of_nat c)).
Proof.
  intros Hne Hlen Hc.
  assert (HL : 0 < length ts) by (destruct ts; [congruence | simpl; lia]).
  assert (Hm : Nat.modulo c (length ts) < length ts)
    by (apply Nat.mod_upper_bound; lia).
  destruct (lookup_lt_is_Some_2 ts _ Hm) as [t Ht].
  exists t. split; [exact Ht|].
  unfold Static.Next. cbn [i tgts]. unfold AddInt64.
  replace (Z.of_nat c - 1 + 1)%Z with (Z.of_nat c) by lia.
  rewrite wrap64_small by (change (2 ^ 63)%Z with 9223372036854775808%Z in *; lia).
  destruct (Z.eqb_spec (Z.of_nat (length ts)) 0) as [E|_]; [lia|].
  rewrite Z.rem_mod_nonneg by lia.
  destruct (Z.ltb_spec (Z.of_nat c mod Z.of_nat (length ts)) 0) as [E|_].
  { pose proof (Z.mod_pos_bound (Z.of_nat c) (Z.of_nat (length ts))). lia. }
  rewrite <- Nat2Z.inj_mod, Nat2Z.id, Ht. reflexivity.
Qed.

Lemma static_callN (ts : list Target) (n c : nat) :
  ts <> [] ->
  (Z.of_nat (length ts) < 2 ^ 63)%Z ->
  (Z.of_nat (c + n) <= 2 ^ 63)%Z ->
  callN Static.targeter n (mkStatic ts (Z.of_nat c - 1))
  = (List.map (fun j => (Return None, ts !! (Nat.modulo (c + j) (length ts))))
       (List.seq 0 n),
     mkStatic ts (Z.of_nat (c + n) - 1)).
Proof.
  intros Hne Hlen. revert c. induction n as [|n IH]; intros c Hc.
  - simpl. rewrite Nat.add_0_r. reflexivity.
  - cbn [callN]. cbn [Next Static.targeter].
    destruct (static_next_nth ts c zeroTarget Hne Hlen) as (t & Ht & Hnext); [lia|].
    rewrite Hnext.
    replace (Z.of_nat c) with (Z.of_nat (S c) - 1)%Z by lia.
    rewrite (IH (S c)) by lia.
    cbn [List.seq List.map]. rewrite Nat.add_0_r, Ht.
    replace (S c + n) with (c + S n) by lia.
    f_equal. f_equal.
    rewrite <- List.seq_shift, List.map_map.
    apply List.map_ext. intros j. replace (S c + j) with (c + S j) by lia.
    reflexivity.
Qed.

Lemma lookups_in_order (ts : list Target) :
  List.map (fun j => ts !! j) (List.seq 0 (length ts)) = List.map Some ts.
Proof.
  apply list_eq. intros k.
  change (List.map (fun j => ts !! j) (List.seq 0 (length ts)))
    with ((fun j => ts !! j) <$> seq 0 (length ts)).
  change (List.map Some ts) with (Some <$> ts).
  rewrite !list_lookup_fmap.
  destruct (decide (k < length ts)) as [Hk|Hk].
  - rewrite lookup_seq_lt by lia. simpl.
    destruct (lookup_lt_is_Some_2 ts k Hk) as [t Ht]. rewrite Ht. reflexivity.
  - rewrite lookup_seq_ge by lia. rewrite lookup_ge_None_2 by lia. reflexivity.
Qed.

End StaticFacts.

(** C5. Over a non-empty list of [L] targets, the first [L + 1] calls to
    a fresh static decoder all return normally; the first [L] of them
    hand out the list in its order and the next one its first element. *)
Theorem static_round_robin (ts : list Target) :
  ts <> [] ->
  (Z.of_nat (length ts) < 2 ^ 63)%Z ->
  (callN Static.targeter (S (length ts)) (NewStaticTargeter ts)).1
  = List.map (fun t => (Return None, Some t)) (ts ++ take 1 ts)%list.
Proof.
  intros Hne Hlen. unfold NewStaticTargeter.
  change (-1)%Z with (Z.of_nat 0 - 1)%Z.
  rewrite static_callN by (try assumption; lia). cbn [fst].
  replace (S (length ts)) with (length ts + 1) by lia.
  rewrite List.seq_app, !List.map_app. cbn [List.seq List.map Nat.add].
  f_equal.
  - rewrite <- (List.map_map Some (fun o => (Return None, o))).
    rewrite <- lookups_in_order, List.map_map.
    apply List.map_ext_in. intros j Hj. apply List.in_seq in Hj.
    rewrite Nat.mod_small by lia. reflexivity.
  - rewrite Nat.Div0.mod_same.
    destruct ts as [|t ts']; [congruence|]. reflexivity.
Qed.

Lemma static_round_robin_witness :
  let ts := [mkTarget "GET" "http://a" "" None ""; mkTarget "GET" "http://b" "" None ""] in
  (callN Static.targeter 3 (NewStaticTargeter ts)).1
  = List.map (fun t => (Return None, Some t)) (ts ++ take 1 ts)%list.
Proof.
  intros ts. apply (static_round_robin ts).
  - discriminate.
  - vm_compute. reflexivity.
Defined.

(** C6 fails as stated: over the empty list the call does not return; the
    counter is advanced and the modulo by [len(s.tgts) = 0] panics. *)
Lemma static_empty_list_panics :
  Static.Next (NewStaticTargeter []) (Some zeroTarget)
  = (Panic "runtime error: integer divide by zero", Some zeroTarget, mkStatic [] 0)
  /\ ~ (exists t s', Static.Next (NewStaticTargeter []) (Some zeroTarget)
                     = (Return None, Some t, s')).
Proof.
  split; [reflexivity|]. intros (t & s' & H). vm_compute in H. discriminate H.
Qed.

(** C6, amended. [Next] never returns [ErrNoTargets], whatever the list
    and the counter; and over a non-empty list, with [c] calls served so
    far and the counter still below the end of [int64], it returns
    normally with the element at index [c mod length]. *)
Theorem static_next_never_exhausted (s : staticTargeter) (tgt : option Target) :
  (Static.Next s tgt).1.1 <> Return (Some ErrNoTargets)
  /\ forall (c : nat) (out : Target),
       tgt = Some out ->
       tgts s <> [] ->
       (Z.of_nat (length (tgts s)) < 2 ^ 63)%Z ->
       i s = (Z.of_nat c - 1)%Z ->
       (Z.of_nat c < 2 ^ 63)%Z ->
       exists t, Static.Next s tgt = (Return None, Some t, mkStatic (tgts s) (Z.of_nat c))
                 /\ tgts s !! (Nat.modulo c (length (tgts s))) = Some t
                 /\ t ∈ tgts s.
Proof.
  split.
  - unfold Static.Next. destruct tgt as [out|]; [|discriminate].
    destruct (Z.eqb _ 0); [discriminate|].
    destruct (Z.ltb _ 0); [discriminate|].
    destruct (tgts s !! _); discriminate.
  - intros c out -> Hne Hlen Hi Hc. destruct s as [ts z]. cbn [tgts i] in *. subst z.
    destruct (static_next_nth ts c out Hne Hlen Hc) as (t & Ht & Hnext).
    exists t. split; [exact Hnext|]. split; [exact Ht|].
    apply list_elem_of_lookup. eauto.
Qed.

Lemma static_next_never_exhausted_witness :
  let ts := [mkTarget "GET" "http://a" "" None ""; mkTarget "GET" "http://b" "" None ""] in
  exists t, Static.Next (mkStatic ts 2) (Some zeroTarget)
            = (Return None, Some t, mkStatic ts 3)
            /\ ts !! 1 = Some t /\ t ∈ ts.
Proof.
  intros ts.
  apply (proj2 (static_next_never_exhausted (mkStatic ts 2) (Some zeroTarget))
           3 zeroTarget).
  - reflexivity.
  - discriminate.
  - vm_compute. reflexivity.
  - reflexivity.
  - vm_compute. reflexivity.
Defined.

(** After [2^63] calls the counter wraps to [-2^63]; a two-element list
    is then indexed at [-1]. *)
Lemma static_counter_wraps :
  let ts := [zeroTarget; zeroTarget] in
  (Static.Next (mkStatic ts (2 ^ 63 - 2)) (Some zeroTarget)).1.1 = Return None
  /\ (Static.Next (mkStatic ts (2 ^ 63 - 1)) (Some zeroTarget)).1.1 = Return None
  /\ (Static.Next (mkStatic ts (- 2 ^ 63)) (Some zeroTarget)).1.1
     = Panic "runtime error: index out of range".
Proof. vm_compute. repeat split; reflexivity. Qed.

(** ** ReadAllTargets *)

Section ReadAllFacts.

Variable T : Targeter.

Lemma readAllLoop_serves (k : nat) :
  forall (s s' : state T) (ts acc : list Target) (fuel : nat),
    serves T k s = Some (ts, s') ->
    readAllLoop T (k + fuel) s acc = readAllLoop T fuel s' (acc ++ ts)%list.
Proof.
  induction k as [|k IH]; intros s s' ts acc fuel Hs.
  - simpl in Hs. injection Hs as <- <-. rewrite app_nil_r. reflexivity.
  - cbn [serves] in Hs. cbn [Nat.add readAllLoop].
    destruct (Next T s (Some zeroTarget)) as [[r out] s1].
    destruct r as [[e|]| |]; try discriminate Hs.
    destruct (serves T k s1) as [[ts1 s2]|] eqn:E; [|discriminate Hs].
    injection Hs as <- <-.
    rewrite (IH _ _ _ _ _ E). rewrite <- app_assoc. reflexivity.
Qed.

Lemma serves_length (k : nat) :
  forall (s s' : state T) (ts : list Target),
    serves T k s = Some (ts, s') -> length ts = k.
Proof.
  induction k as [|k IH]; intros s s' ts Hs.
  - simpl in Hs. injection Hs as <- <-. reflexivity.
  - cbn [serves] in Hs.
    destruct (Next T s (Some zeroTarget)) as [[r out] s1].
    destruct r as [[e|]| |]; try discriminate Hs.
    destruct (serves T k s1) as [[ts1 s2]|] eqn:E; [|discriminate Hs].
    injection Hs as <- <-. simpl. f_equal. eauto.
Qed.

End ReadAllFacts.

(** C8. Let the first [k] calls to [Next] succeed with the targets [ts],
    and let [ReadAllTargets] be allowed more than [k] calls. If the next
    call returns [ErrNoTargets], the result is [ts] with no error when
    [k >= 1] and the error [ErrNoTargets] with no targets when [k = 0];
    if it returns any other error, the result is that error with no
    targets. *)
Theorem ReadAllTargets_spec (T : Targeter) (k fuel : nat)
    (s s' : state T) (ts : list Target) :
  serves T k s = Some (ts, s') ->
  k < fuel ->
  (forall out s'',
      Next T s' (Some zeroTarget) = (Return (Some ErrNoTargets), out, s'') ->
      1 <= k ->
      ReadAllTargets T fuel s = (ts, Return None, s''))
  /\ (forall out s'',
      Next T s' (Some zeroTarget) = (Return (Some ErrNoTargets), out, s'') ->
      k = 0 ->
      ReadAllTargets T fuel s = ([], Return (Some ErrNoTargets), s''))
  /\ (forall e out s'',
      Next T s' (Some zeroTarget) = (Return (Some e), out, s'') ->
      e <> ErrNoTargets ->
      ReadAllTargets T fuel s = ([], Return (Some e), s'')).
Proof.
  intros Hs Hfuel.
  assert (Hloop : ReadAllTargets T fuel s = readAllLoop T (S (fuel - S k)) s' ts).
  { unfold ReadAllTargets. replace fuel with (k + S (fuel - S k)) at 1 by lia.
    rewrite (readAllLoop_serves T k s s' ts [] _ Hs). reflexivity. }
  pose proof (serves_length T k s s' ts Hs) as Hlen.
  rewrite Hloop. cbn [readAllLoop].
  repeat split.
  - intros out s'' Hn Hk. rewrite Hn.
    destruct (Nat.eqb_spec (length ts) 0) as [E|_]; [lia|]. reflexivity.
  - intros out s'' Hn Hk. rewrite Hn.
    destruct (Nat.eqb_spec (length ts) 0) as [_|E]; [reflexivity|lia].
  - intros e out s'' Hn He. rewrite Hn. destruct e; congruence.
Qed.

Lemma ReadAllTargets_spec_witness :
  let T := Http.targeter sampleParseRequestURI sampleReadFile in
  let get u := mkTarget "GET" u "" (Some ∅) "" in
  (ReadAllTargets T 3 (NewHTTPTargeter ["GET http://a"; ""; "GET http://b"] None "" None)).1
  = ([get "http://a"; get "http://b"], Return None)
  /\ (ReadAllTargets T 1 (NewHTTPTargeter [] None "" None)).1
     = ([], Return (Some ErrNoTargets))
  /\ (ReadAllTargets T 2 (NewHTTPTargeter ["GET http://a"; ""; "BAD"] None "" None)).1
     = ([], Return (Some (Errorf "bad target: BAD"))).
Proof.
  intros T get. split; [|split].
  - set (s := NewHTTPTargeter ["GET http://a"; ""; "GET http://b"] None "" None).
    destruct (serves T 2 s) as [[ts s']|] eqn:E; [|vm_compute in E; discriminate E].
    destruct (Next T s' (Some zeroTarget)) as [[r out] s''] eqn:N.
    assert (Hts : ts = [get "http://a"; get "http://b"])
      by (vm_compute in E; injection E as <- _; reflexivity).
    assert (Hr : r = Return (Some ErrNoTargets)).
    { vm_compute in E. injection E as _ <-. vm_compute in N. congruence. }
    subst r.
    rewrite (proj1 (ReadAllTargets_spec T 2 3 s s' ts E ltac:(lia)) out s'' N ltac:(lia)).
    rewrite Hts. reflexivity.
  - set (s := NewHTTPTargeter [] None "" None).
    destruct (Next T s (Some zeroTarget)) as [[r out] s''] eqn:N.
    assert (Hr : r = Return (Some ErrNoTargets)) by (vm_compute in N; congruence).
    subst r.
    rewrite (proj1 (proj2 (ReadAllTargets_spec T 0 1 s s [] eq_refl ltac:(lia)))
               out s'' N eq_refl).
    reflexivity.
  - set (s := NewHTTPTargeter ["GET http://a"; ""; "BAD"] None "" None).
    destruct (serves T 1 s) as [[ts s']|] eqn:E; [|vm_compute in E; discriminate E].
    destruct (Next T s' (Some zeroTarget)) as [[r out] s''] eqn:N.
    assert (Hr : r = Return (Some (Errorf "bad target: BAD"))).
    { vm_compute in E. injection E as _ <-. vm_compute in N. congruence. }
    subst r.
    rewrite (proj2 (proj2 (ReadAllTargets_spec T 1 2 s s' ts E ltac:(lia)))
               _ out s'' N ltac:(discriminate)).
    reflexivity.
Defined.

(** ** Header maps *)

Section HeaderFacts.

Lemma copyHeader_eq (hdr : option HeaderMap) : copyHeader hdr = default ∅ hdr.
Proof.
  unfold copyHeader.
  apply (map_fold_weak_ind (fun r m => r = m)); [reflexivity|].
  intros k vs m r _ ->. reflexivity.
Qed.

(** After [for k, vs := range extra { h[k] = append(h[k], vs...) }] a key
    of [extra] holds its old values followed by those of [extra], and any
    other key is as before. *)
Lemma appendValues_lookup (extra : option HeaderMap) (h : HeaderMap) (k : string) :
  appendValues extra h !! k
  = match default ∅ extra !! k with
    | Some vs => Some (default [] (h !! k) ++ vs)%list
    | None => h !! k
    end.
Proof.
  unfold appendValues. revert k.
  apply (map_fold_weak_ind
           (fun r m => forall k, r !! k = match m !! k with
                                         | Some vs => Some (default [] (h !! k) ++ vs)%list
                                         | None => h !! k
                                         end)).
  - intros k. rewrite lookup_empty. reflexivity.
  - intros j vs m r Hj IH k.
    destruct (decide (j = k)) as [->|Hne].
    + rewrite !lookup_insert_eq. rewrite IH, Hj. reflexivity.
    + rewrite !lookup_insert_ne by assumption. apply IH.
Qed.

Lemma headerGet_appendValues (extra : option HeaderMap) (h : HeaderMap) (k : string) :
  headerGet (Some (appendValues extra h)) k
  = (headerGet (Some h) k ++ headerGet extra k)%list.
Proof.
  unfold headerGet. rewrite appendValues_lookup.
  destruct extra as [m|]; simpl.
  - destruct (m !! k); simpl; [reflexivity|]. rewrite app_nil_r. reflexivity.
  - rewrite lookup_empty. rewrite app_nil_r. reflexivity.
Qed.

End HeaderFacts.

(** ** The HTTP-text decoder *)

Section HttpFacts.

Variable ParseRequestURI : string -> option error.
Variable ReadFile : string -> string * option error.

Local Abbreviation seekLine := (Http.seekLine).
Local Abbreviation readSection := (Http.readSection ReadFile).
Local Abbreviation Next := (Http.Next ParseRequestURI ReadFile).

(** [Scan] then [Text] hand out the head of [Peeking.ahead]. *)
Lemma scan_text_ahead (sc : peekingScanner) :
  match Peeking.Scan sc with
  | (true, sc1) =>
      Peeking.ahead sc = ((Peeking.Text sc1).1 :: Peeking.ahead (Peeking.Text sc1).2)%list
      /\ peeked (Peeking.Text sc1).2 = ""
  | (false, sc1) => Peeking.ahead sc = [] /\ peeked sc1 = ""
  end.
Proof.
  destruct sc as [[p tok e se] pk]. unfold Peeking.Scan, Peeking.Text, Peeking.ahead.
  cbn [peeked src]. destruct (String.eqb pk "") eqn:E.
  - apply String.eqb_eq in E. subst pk. unfold Src.Scan. cbn [pending].
    destruct p as [|l r]; cbn; [split; reflexivity|].
    split; reflexivity.
  - cbn [peeked src]. rewrite E. cbn. split; reflexivity.
Qed.

(** The two loops end within the rounds [Next] gives them. *)
Lemma seekLine_total (fuel : nat) :
  forall sc, length (Peeking.ahead sc) < fuel -> seekLine fuel sc <> None.
Proof.
  induction fuel as [|fuel IH]; intros sc Hlen; [lia|].
  cbn [Http.seekLine]. pose proof (scan_text_ahead sc) as H.
  destruct (Peeking.Scan sc) as [[|] sc1]; [|discriminate].
  destruct (Peeking.Text sc1) as [txt sc2]. cbn [fst snd] in H.
  destruct H as [Ha _].
  destruct (opensBlock (TrimSpace txt)); [discriminate|].
  apply IH. rewrite Ha in Hlen. simpl in Hlen. lia.
Qed.

Lemma readSection_total (fuel : nat) :
  forall sc t, length (Peeking.ahead sc) < fuel -> readSection fuel sc t <> None.
Proof.
  induction fuel as [|fuel IH]; intros sc t Hlen; [lia|].
  cbn [Http.readSection]. pose proof (scan_text_ahead sc) as H.
  destruct (Peeking.Scan sc) as [[|] sc1]; [|discriminate].
  destruct (Peeking.Text sc1) as [txt sc2]. cbn [fst snd] in H.
  destruct H as [Ha _].
  destruct (String.eqb (TrimSpace txt) ""); [discriminate|].
  destruct (HasPrefix (TrimSpace txt) "@").
  { destruct (ReadFile _) as [data [e|]]; discriminate. }
  destruct (cut ":"%char (TrimSpace txt)) as [[k v]|]; [|discriminate].
  destruct (String.eqb (TrimSpace k) ""); [discriminate|].
  destruct (String.eqb (TrimSpace v) ""); [discriminate|].
  apply IH. rewrite Ha in Hlen. simpl in Hlen. lia.
Qed.

(** [Next] always returns: it never runs out of rounds. *)
Lemma Next_total (h : httpTargeter) (tgt : option Target) :
  (Next h tgt).1.1 <> OutOfFuel.
Proof.
  unfold Http.Next. destruct tgt as [out|]; [|discriminate].
  pose proof (seekLine_total (Http.rounds (h_sc h)) (h_sc h)) as Hs.
  destruct (seekLine _ _) as [[[line|] sc1]|]; [| discriminate |].
  2:{ exfalso. apply Hs; [unfold Http.rounds; lia | reflexivity]. }
  destruct (cut " "%char line) as [[tok0 tok1]|]; [|discriminate].
  destruct (startsWithHTTPMethod line); [|discriminate]. cbn [negb].
  destruct (ParseRequestURI tok1); [discriminate|].
  destruct (Peeking.Peek sc1) as [pk sc2].
  destruct (String.eqb (TrimSpace pk) "" || startsWithHTTPMethod (TrimSpace pk));
    [discriminate|].
  pose proof (readSection_total (Http.rounds sc2) sc2
                (Http.setURL (Http.setMethod
                   (mkTarget (Method out) (URL out) (h_body h)
                      (Some (copyHeader (h_hdr h))) (Name out)) tok0) tok1)) as Hr.
  destruct (readSection _ _ _) as [[[[|e] t4] sc3]|].
  - destruct (Peeking.Err sc3); discriminate.
  - discriminate.
  - exfalso. apply Hr; [unfold Http.rounds; lia | reflexivity].
Qed.

(** A blank or comment line at the head is passed over by the first
    loop, and the token left in the source plays no part. *)
Lemma seekLine_skip (fuel : nat) (c : string) (rest : list string) tok tok' e se :
  opensBlock (TrimSpace c) = false ->
  length rest < fuel ->
  seekLine (S fuel) (idle (c :: rest) tok e se) = seekLine fuel (idle rest tok' e se).
Proof.
  intros Hc Hf. cbn [Http.seekLine]. unfold idle at 1.
  unfold Peeking.Scan, Peeking.Text, Src.Scan, Src.Text.
  cbn [peeked src pending token String.eqb]. rewrite Hc.
  destruct fuel as [|fuel]; [lia|]. cbn [Http.seekLine].
  unfold idle, Peeking.Scan, Src.Scan.
  cbn [peeked src pending token String.eqb readErr scanErr]. reflexivity.
Qed.

Lemma seekLine_found (fuel : nat) (raw : string) (rest : list string) tok e se :
  opensBlock (TrimSpace raw) = true ->
  seekLine (S fuel) (idle (raw :: rest) tok e se)
  = Some (Some (TrimSpace raw), idle rest raw e se).
Proof.
  intros Hc. cbn [Http.seekLine]. unfold idle.
  unfold Peeking.Scan, Peeking.Text, Src.Scan, Src.Text.
  cbn [peeked src pending token String.eqb]. rewrite Hc.
  reflexivity.
Qed.

Lemma seekLine_skip_all (skipped rest : list string) tok e se :
  Forall (fun l => opensBlock (TrimSpace l) = false) skipped ->
  seekLine (S (length (skipped ++ rest))) (idle (skipped ++ rest) tok e se)
  = seekLine (S (length rest)) (idle rest tok e se).
Proof.
  intros H. revert tok. induction H as [|c skipped Hc _ IH]; intros tok; [reflexivity|].
  cbn [app length]. rewrite (seekLine_skip _ c _ tok tok e se Hc) by lia.
  apply IH.
Qed.

(** Blank and comment lines before a block change nothing in what [Next]
    does: it behaves as on the input without them. *)
Lemma Next_skips_leading (skipped rest : list string) body hdr tok e se tgt :
  Forall (fun l => opensBlock (TrimSpace l) = false) skipped ->
  Next (mkHTTP body hdr (idle (skipped ++ rest) tok e se)) tgt
  = match tgt with
    | None => (Return (Some ErrNilTarget), None,
               mkHTTP body hdr (idle (skipped ++ rest) tok e se))
    | Some _ => Next (mkHTTP body hdr (idle rest tok e se)) tgt
    end.
Proof.
  intros H. destruct tgt as [out|]; [|reflexivity].
  unfold Http.Next. cbn [h_sc h_body h_hdr].
  unfold Http.rounds. unfold idle at 1 3. unfold Peeking.ahead. cbn [peeked src pending].
  cbn [String.eqb app]. fold (idle (skipped ++ rest) tok e se). fold (idle rest tok e se).
  rewrite (seekLine_skip_all skipped rest tok e se H).
  pose proof (seekLine_total (S (length rest)) (idle rest tok e se)) as Hs.
  destruct (seekLine _ _) as [[[line|] sc1]|]; [reflexivity | reflexivity |].
  exfalso. apply Hs; [|reflexivity]. unfold idle, Peeking.ahead. cbn. lia.
Qed.

End HttpFacts.

Section HttpFirstLine.

Variable ParseRequestURI : string -> option error.
Variable ReadFile : string -> string * option error.

Local Abbreviation Next := (Http.Next ParseRequestURI ReadFile).

(** What [Next] does with the first line that opens a block, [raw], when
    that line is rejected. By then the target's body and header have been
    set from the provider's defaults. *)
Lemma Next_first_line_errors (skipped : list string) (raw : string)
    (rest : list string) tok e se body hdr (out : Target) :
  Forall (fun l => opensBlock (TrimSpace l) = false) skipped ->
  opensBlock (TrimSpace raw) = true ->
  let h := mkHTTP body hdr (idle (skipped ++ raw :: rest) tok e se) in
  let h' := mkHTTP body hdr (idle rest raw e se) in
  let line := TrimSpace raw in
  let t1 := mkTarget (Method out) (URL out) body (Some (default ∅ hdr)) (Name out) in
  (cut " "%char line = None ->
   Next h (Some out)
   = (Return (Some (Errorf ("bad target: " +:+ line))), Some t1, h'))
  /\ (forall tok0 tok1,
       cut " "%char line = Some (tok0, tok1) ->
       startsWithHTTPMethod line = false ->
       Next h (Some out)
       = (Return (Some (Errorf ("bad method: " +:+ tok0))), Some t1, h'))
  /\ (forall tok0 tok1 err,
       cut " "%char line = Some (tok0, tok1) ->
       startsWithHTTPMethod line = true ->
       ParseRequestURI tok1 = Some err ->
       Next h (Some out)
       = (Return (Some (Errorf ("bad URL: " +:+ tok1))),
          Some (Http.setMethod t1 tok0), h')).
Proof.
  intros Hsk Hraw h h' line t1.
  assert (Hn : Next h (Some out)
               = Next (mkHTTP body hdr (idle (raw :: rest) tok e se)) (Some out)).
  { unfold h. rewrite (Next_skips_leading _ _ skipped (raw :: rest)) by assumption.
    reflexivity. }
  rewrite Hn. unfold Http.Next. cbn [h_sc h_body h_hdr].
  unfold Http.rounds.
  rewrite (seekLine_found _ raw rest tok e se Hraw).
  rewrite copyHeader_eq. fold line. fold t1. fold h'.
  split; [|split].
  - intros Hc. rewrite Hc. reflexivity.
  - intros tok0 tok1 Hc Hm. rewrite Hc, Hm. reflexivity.
  - intros tok0 tok1 err Hc Hm Hp. rewrite Hc, Hm, Hp. reflexivity.
Qed.

End HttpFirstLine.

(** C2. A comment line inside a block's header/body section is not
    skipped: after ["GET http://x/y"], the line ["# comment"] makes
    [Next] fail with a header error, and ["# Foo: bar"] is taken for a
    header named ["# Foo"]. Only the loop looking for the method/URL line
    tests for ['#'] (see [Next_skips_leading]). *)
Theorem comment_in_header_section_not_skipped
    (ParseRequestURI : string -> option error)
    (ReadFile : string -> string * option error) :
  ParseRequestURI "http://x/y" = None ->
  (Http.Next ParseRequestURI ReadFile
     (NewHTTPTargeter ["GET http://x/y"; "# comment"] None "" None)
     (Some zeroTarget)).1.1
  = Return (Some (Errorf "bad header: # comment"))
  /\ (Http.Next ParseRequestURI ReadFile
        (NewHTTPTargeter ["GET http://x/y"; "# Foo: bar"] None "" None)
        (Some zeroTarget)).1
     = (Return None,
        Some (mkTarget "GET" "http://x/y" "" (Some {["# Foo" := ["bar"]]}) "")).
Proof.
  intros Hp. split.
  - vm_compute. rewrite Hp. vm_compute. reflexivity.
  - vm_compute. rewrite Hp. vm_compute. reflexivity.
Qed.

Lemma comment_in_header_section_not_skipped_witness :
  (Http.Next sampleParseRequestURI sampleReadFile
     (NewHTTPTargeter ["GET http://x/y"; "# comment"] None "" None)
     (Some zeroTarget)).1.1
  = Return (Some (Errorf "bad header: # comment"))
  /\ (Http.Next sampleParseRequestURI sampleReadFile
        (NewHTTPTargeter ["GET http://x/y"; "# Foo: bar"] None "" None)
        (Some zeroTarget)).1
     = (Return None,
        Some (mkTarget "GET" "http://x/y" "" (Some {["# Foo" := ["bar"]]}) "")).
Proof.
  apply (comment_in_header_section_not_skipped sampleParseRequestURI sampleReadFile).
  reflexivity.
Defined.

(** C10. On the one-line input ["GET notaurl"], whose URL token is not a
    request URI, [Next] returns the URL error and has by then written the
    provider's default body, a header map holding the provider's default
    header, and the method into the caller's target; its URL and name are
    untouched. *)
Theorem Next_overwrites_target_before_failing
    (ParseRequestURI : string -> option error)
    (ReadFile : string -> string * option error)
    (err : error) (body : string) (hdr : option HeaderMap) (out : Target) :
  ParseRequestURI "notaurl" = Some err ->
  (Http.Next ParseRequestURI ReadFile
     (NewHTTPTargeter ["GET notaurl"] None body hdr) (Some out)).1
  = (Return (Some (Errorf "bad URL: notaurl")),
     Some (mkTarget "GET" (URL out) body (Some (default ∅ hdr)) (Name out))).
Proof.
  intros Hp.
  pose proof (Next_first_line_errors ParseRequestURI ReadFile
                [] "GET notaurl" [] "" None None body hdr out
                (List.Forall_nil _) eq_refl) as (_ & _ & H).
  unfold NewHTTPTargeter, NewScanner. fold (idle ["GET notaurl"] "" None None).
  cbn [app] in H.
  rewrite (H "GET" "notaurl" err eq_refl eq_refl Hp). reflexivity.
Qed.

Lemma Next_overwrites_target_before_failing_witness :
  (Http.Next sampleParseRequestURI sampleReadFile
     (NewHTTPTargeter ["GET notaurl"] None "default body"
        (Some {["X-Default" := ["1"]]}))
     (Some (mkTarget "POST" "http://old" "old body" (Some {["Old" := ["0"]]}) "n"))).1
  = (Return (Some (Errorf "bad URL: notaurl")),
     Some (mkTarget "GET" "http://old" "default body"
             (Some {["X-Default" := ["1"]]}) "n")).
Proof.
  apply (Next_overwrites_target_before_failing sampleParseRequestURI sampleReadFile
           (ExtError "invalid URI for request")).
  reflexivity.
Defined.

(** C4 fails as stated: a line with two tokens separated by a tab, not
    beginning with an upper-case method, is refused as a bad target (it
    holds no space to split at), not as a bad method. *)
Lemma tab_separated_line_is_bad_target :
  let line := "get" +:+ String "009"%char "https://x/y" in
  length (Fields line) = 2
  /\ startsWithHTTPMethod line = false
  /\ (Http.Next sampleParseRequestURI sampleReadFile
        (NewHTTPTargeter [line] None "" None) (Some zeroTarget)).1.1
     = Return (Some (Errorf ("bad target: " +:+ line))).
Proof. vm_compute. split; [|split]; reflexivity. Qed.

(** ** Trimmed lines and their fields *)

Section StringFacts.

Lemma substring_all (s : string) : String.substring 0 (String.length s) s = s.
Proof. induction s as [|c s IH]; [reflexivity|]. simpl. rewrite IH. reflexivity. Qed.

Lemma append_cons (c : ascii) (a b : string) :
  String c a +:+ b = String c (a +:+ b).
Proof. reflexivity. Qed.

Lemma append_assoc (a b c : string) : a +:+ (b +:+ c) = (a +:+ b) +:+ c.
Proof.
  induction a as [|d a IH]; [reflexivity|].
  rewrite !append_cons, IH. reflexivity.
Qed.

Lemma prefix_split (r s : string) :
  String.prefix r s = true ->
  s = r +:+ String.substring (String.length r) (String.length s - String.length r) s.
Proof.
  revert s. induction r as [|c r IH]; intros s H.
  - simpl. rewrite Nat.sub_0_r, substring_all. reflexivity.
  - destruct s as [|d s]; [discriminate H|]. simpl in H.
    destruct (Ascii.ascii_dec c d) as [->|]; [|discriminate H].
    rewrite append_cons. simpl. f_equal. apply IH, H.
Qed.

Lemma length_append (a b : string) :
  String.length (a +:+ b) = String.length a + String.length b.
Proof. induction a as [|c a IH]; [reflexivity|]. simpl. rewrite IH. reflexivity. Qed.

(** What [dropOne] drops is one of the runes, in front of what it keeps. *)
Lemma dropOne_Some (runes : list string) (s s' : string) :
  dropOne runes s = Some s' -> exists r, In r runes /\ s = r +:+ s'.
Proof.
  induction runes as [|r runes IH]; [discriminate|]. simpl.
  destruct (String.prefix r s) eqn:E.
  - intros [= <-]. exists r. split; [left; reflexivity|]. apply prefix_split, E.
  - intros H. destruct (IH H) as (r' & Hin & Hs). exists r'. split; [right|]; assumption.
Qed.

Lemma prefix_append (r s : string) : String.prefix r (r +:+ s) = true.
Proof.
  induction r as [|c r IH]; [destruct s; reflexivity|]. simpl.
  destruct (Ascii.ascii_dec c c); [exact IH|congruence].
Qed.

Lemma dropOne_None (runes : list string) (r s : string) :
  In r runes -> dropOne runes (r +:+ s) <> None.
Proof.
  induction runes as [|r' runes IH]; [intros []|]. simpl. intros [->|Hin].
  - rewrite prefix_append. discriminate.
  - destruct (String.prefix r' (r +:+ s)); [discriminate|]. apply IH, Hin.
Qed.

(** With as many rounds as the string has bytes, trimming stops because
    no rune is left in front, and what is left is a suffix. *)
Lemma trimLeftFuel_done (runes : list string) :
  Forall (fun r => r <> "") runes ->
  forall fuel s, String.length s <= fuel ->
    dropOne runes (trimLeftFuel runes fuel s) = None
    /\ exists w, s = w +:+ trimLeftFuel runes fuel s.
Proof.
  intros Hne fuel. induction fuel as [|fuel IH]; intros s Hlen.
  - destruct s; [|simpl in Hlen; lia]. simpl. split; [|exists ""; reflexivity].
    destruct (dropOne runes "") as [s'|] eqn:E; [|reflexivity].
    destruct (dropOne_Some _ _ _ E) as (r & Hin & Hs).
    rewrite List.Forall_forall in Hne. specialize (Hne r Hin).
    destruct r; [congruence|discriminate Hs].
  - simpl. destruct (dropOne runes s) as [s'|] eqn:E.
    + destruct (dropOne_Some _ _ _ E) as (r & Hin & Hs).
      rewrite List.Forall_forall in Hne. specialize (Hne r Hin).
      assert (Hl : String.length s' <= fuel).
      { subst s. rewrite length_append in Hlen. destruct r; [congruence|]. simpl in Hlen. lia. }
      destruct (IH s' Hl) as [Hd [w Hw]]. split; [exact Hd|].
      exists (r +:+ w). subst s. rewrite Hw at 1. apply append_assoc.
    + split; [exact E|]. exists "". reflexivity.
Qed.

Lemma rev_length (s : string) : String.length (Strings.rev s) = String.length s.
Proof.
  unfold Strings.rev.
  assert (H : forall l, String.length (string_of_list_ascii l) = length l).
  { induction l as [|c l IH]; [reflexivity|]. simpl. rewrite IH. reflexivity. }
  rewrite H, List.length_rev. clear H.
  induction s as [|c s IH]; [reflexivity|]. simpl. rewrite IH. reflexivity.
Qed.

Lemma string_of_list_app (a b : list ascii) :
  string_of_list_ascii (a ++ b)%list = string_of_list_ascii a +:+ string_of_list_ascii b.
Proof. induction a as [|c a IH]; [reflexivity|]. simpl. rewrite IH. reflexivity. Qed.

Lemma list_of_string_app (a b : string) :
  list_ascii_of_string (a +:+ b) = (list_ascii_of_string a ++ list_ascii_of_string b)%list.
Proof. induction a as [|c a IH]; [reflexivity|]. simpl. rewrite IH. reflexivity. Qed.

Lemma rev_append (a b : string) :
  Strings.rev (a +:+ b) = Strings.rev b +:+ Strings.rev a.
Proof.
  unfold Strings.rev. rewrite list_of_string_app, List.rev_app_distr.
  apply string_of_list_app.
Qed.

Lemma rev_involutive (s : string) : Strings.rev (Strings.rev s) = s.
Proof.
  unfold Strings.rev. rewrite list_ascii_of_string_of_list_ascii, List.rev_involutive.
  apply string_of_list_ascii_of_string.
Qed.

Lemma endsNonSpace_append (a : string) (c : ascii) :
  endsNonSpace (a +:+ String c "") = negb (isAsciiSpace c).
Proof.
  induction a as [|d a IH]; [reflexivity|]. simpl.
  destruct (a +:+ String c "") eqn:E; [destruct a; discriminate E|]. exact IH.
Qed.

Lemma one_byte_runes (c : ascii) :
  isAsciiSpace c = true -> In (String c "") spaceRunes.
Proof.
  unfold isAsciiSpace, byte_in. intros H. apply bool_decide_eq_true in H.
  rewrite <- (ascii_nat_embedding c).
  repeat (apply elem_of_cons in H; destruct H as [->|H]); [..|inversion H];
    vm_compute; tauto.
Qed.

Lemma one_byte_runes_rev (c : ascii) :
  isAsciiSpace c = true -> In (String c "") (List.map Strings.rev spaceRunes).
Proof.
  intros H. apply List.in_map_iff. exists (String c ""). split; [reflexivity|].
  apply one_byte_runes, H.
Qed.

Lemma dropOne_startsNonSpace (runes : list string) (s : string) :
  (forall c, isAsciiSpace c = true -> In (String c "") runes) ->
  dropOne runes s = None -> s <> "" -> startsNonSpace s = true.
Proof.
  intros Hr Hd Hs. destruct s as [|c s]; [congruence|]. simpl.
  destruct (isAsciiSpace c) eqn:E; [|reflexivity].
  exfalso. apply (dropOne_None runes (String c "") s (Hr c E)). exact Hd.
Qed.

Lemma spaceRunes_nonempty : Forall (fun r => r <> "") spaceRunes.
Proof. vm_compute. repeat constructor; discriminate. Qed.

Lemma spaceRunes_rev_nonempty : Forall (fun r => r <> "") (List.map Strings.rev spaceRunes).
Proof. vm_compute. repeat constructor; discriminate. Qed.

(** A trimmed string that is not empty begins and ends with a byte that
    is not an ASCII space. *)
Lemma TrimSpace_ends (s : string) :
  TrimSpace s <> "" ->
  startsNonSpace (TrimSpace s) = true /\ endsNonSpace (TrimSpace s) = true.
Proof.
  unfold TrimSpace, TrimRight, TrimLeft. intros Hne.
  set (u := trimLeftFuel spaceRunes (String.length s) s) in *.
  set (v := trimLeftFuel (List.map Strings.rev spaceRunes) (String.length u) (Strings.rev u)) in *.
  destruct (trimLeftFuel_done _ spaceRunes_nonempty (String.length s) s (le_n _))
    as [Hu _]. fold u in Hu.
  destruct (trimLeftFuel_done _ spaceRunes_rev_nonempty (String.length u) (Strings.rev u))
    as [Hv [w Hw]]; [rewrite rev_length; lia|]. fold v in Hv, Hw.
  assert (Hv0 : v <> "") by (intros E; rewrite E in Hne; apply Hne; reflexivity).
  pose proof (dropOne_startsNonSpace _ v one_byte_runes_rev Hv Hv0) as Hsv.
  split.
  - assert (Hu' : u = Strings.rev v +:+ Strings.rev w).
    { rewrite <- rev_append, <- Hw, rev_involutive. reflexivity. }
    assert (Hu0 : u <> "").
    { intros E. rewrite E in Hu'. destruct (Strings.rev v); [apply Hne; reflexivity|discriminate Hu']. }
    pose proof (dropOne_startsNonSpace _ u one_byte_runes Hu Hu0) as Hsu.
    rewrite Hu' in Hsu. destruct (Strings.rev v) as [|c r]; [exfalso; apply Hne; reflexivity|].
    exact Hsu.
  - destruct v as [|c r]; [congruence|]. simpl in Hsv.
    change (String c r) with (String c "" +:+ r). rewrite rev_append.
    change (Strings.rev (String c "")) with (String c "").
    rewrite endsNonSpace_append. exact Hsv.
Qed.

Lemma fieldsAux_nonempty (s : string) :
  forall cur, endsNonSpace s = true -> fieldsAux cur s <> [].
Proof.
  induction s as [|c s IH]; intros cur H; [discriminate H|].
  simpl in H. simpl. destruct s as [|d s].
  - apply negb_true_iff in H. rewrite H. simpl. discriminate.
  - destruct (isAsciiSpace c).
    + destruct (String.eqb cur ""); [apply IH, H|discriminate].
    + apply IH, H.
Qed.

Lemma cut_space_is_space (c : ascii) :
  Ascii.eqb c " "%char = true -> isAsciiSpace c = true.
Proof. intros H. apply Ascii.eqb_eq in H. subst c. reflexivity. Qed.

Lemma fieldsAux_two (s : string) :
  forall cur, cur <> "" -> endsNonSpace s = true -> cut " "%char s <> None ->
    2 <= length (fieldsAux cur s).
Proof.
  induction s as [|c s IH]; intros cur Hcur He Hc; [discriminate He|].
  assert (Hs : s <> "" -> endsNonSpace s = true).
  { intros Hs. simpl in He. destruct s; [congruence|exact He]. }
  cbn [fieldsAux]. destruct (isAsciiSpace c) eqn:Esp.
  - destruct (String.eqb_spec cur ""); [congruence|].
    assert (Hs0 : s <> "").
    { intros ->. simpl in He. rewrite Esp in He. discriminate He. }
    pose proof (fieldsAux_nonempty s "" (Hs Hs0)) as Hf.
    destruct (fieldsAux "" s); [congruence|]. simpl. lia.
  - cbn [cut] in Hc. destruct (Ascii.eqb c " "%char) eqn:E.
    { apply cut_space_is_space in E. congruence. }
    assert (Hs0 : s <> "") by (intros ->; simpl in Hc; congruence).
    apply IH; [discriminate | apply Hs, Hs0 |].
    destruct (cut " "%char s); [discriminate|congruence].
Qed.

(** A trimmed line with fewer than two fields holds no space to split at. *)
Lemma one_field_no_space (raw : string) :
  length (Fields (TrimSpace raw)) < 2 -> cut " "%char (TrimSpace raw) = None.
Proof.
  intros Hlen. destruct (cut " "%char (TrimSpace raw)) as [[a b]|] eqn:Hc; [|reflexivity].
  exfalso.
  assert (Hne : TrimSpace raw <> "") by (intros E; rewrite E in Hc; discriminate Hc).
  destruct (TrimSpace_ends raw Hne) as [Hs He].
  destruct (TrimSpace raw) as [|c s]; [congruence|]. simpl in Hs.
  apply negb_true_iff in Hs.
  unfold Fields in Hlen. cbn [fieldsAux] in Hlen. rewrite Hs in Hlen.
  assert (Hs0 : s <> "").
  { intros ->. simpl in Hc. destruct (Ascii.eqb c " "%char) eqn:E; [|discriminate Hc].
    apply cut_space_is_space in E. congruence. }
  assert (2 <= length (fieldsAux (String c "") s)); [|lia].
  apply fieldsAux_two; [discriminate | | ].
  - simpl in He. destruct s; [congruence|exact He].
  - simpl in Hc. destruct (Ascii.eqb c " "%char) eqn:E.
    + apply cut_space_is_space in E. congruence.
    + destruct (cut " "%char s); [discriminate|discriminate Hc].
Qed.

End StringFacts.

(** ** The JSON line decoder *)

Section JsonFacts.

Variable decode : string -> Target * option error.

Local Abbreviation readLine := (Json.readLine).
Local Abbreviation Next := (Json.Next decode).

Lemma cut_append (sep : ascii) (a b : string) :
  cut sep a = None -> cut sep (a +:+ String sep b) = Some (a, b).
Proof.
  induction a as [|c a IH]; intros H.
  - simpl. rewrite Ascii.eqb_refl. reflexivity.
  - rewrite append_cons. simpl in *. destruct (Ascii.eqb c sep); [discriminate H|].
    destruct (cut sep a) as [[x y]|]; [discriminate H|]. rewrite IH by reflexivity.
    reflexivity.
Qed.

Lemma cut_length (sep : ascii) (s a b : string) :
  cut sep s = Some (a, b) -> String.length s = S (String.length a + String.length b).
Proof.
  revert a b. induction s as [|c s IH]; intros a b H; [discriminate H|].
  simpl in H. destruct (Ascii.eqb c sep).
  - injection H as <- <-. reflexivity.
  - destruct (cut sep s) as [[x y]|]; [|discriminate H]. injection H as <- <-.
    simpl. rewrite (IH x y eq_refl). reflexivity.
Qed.

(** A line and its newline are what [ReadBytes] returns next. *)
Lemma ReadBytes_line (l rest : string) (e : option error) :
  cut "010"%char l = None ->
  ReadBytes (mkReader (l +:+ newline +:+ rest) e)
  = (l +:+ newline, None, mkReader rest e).
Proof.
  intros H. unfold ReadBytes, newline. cbn [unread srcErr].
  rewrite append_cons. change ("" +:+ rest) with rest.
  rewrite (cut_append _ l rest H). reflexivity.
Qed.

(** With no newline left, [ReadBytes] returns the rest and the source's
    error, [io.EOF] for a clean end. *)
Lemma ReadBytes_end (tail : string) (e : option error) :
  cut "010"%char tail = None ->
  ReadBytes (mkReader tail e) = (tail, Some (default EOF e), mkReader "" e).
Proof. intros H. unfold ReadBytes. cbn [unread srcErr]. rewrite H. reflexivity. Qed.

Lemma readLine_fuel (f1 : nat) :
  forall f2 r,
    String.length (unread r) < f1 -> String.length (unread r) < f2 ->
    readLine f1 r = readLine f2 r.
Proof.
  induction f1 as [|f1 IH]; intros f2 r H1 H2; [lia|].
  destruct f2 as [|f2]; [lia|]. cbn [Json.readLine].
  unfold ReadBytes. destruct (cut "010"%char (unread r)) as [[a b]|] eqn:E; [|reflexivity].
  destruct (Nat.eqb _ 0); [|reflexivity].
  apply cut_length in E. apply IH; cbn [unread]; lia.
Qed.

Lemma readLine_total (fuel : nat) :
  forall r, String.length (unread r) < fuel -> readLine fuel r <> None.
Proof.
  induction fuel as [|fuel IH]; intros r H; [lia|]. cbn [Json.readLine].
  unfold ReadBytes. destruct (cut "010"%char (unread r)) as [[a b]|] eqn:E; [|discriminate].
  destruct (Nat.eqb _ 0); [|discriminate].
  apply cut_length in E. apply IH. cbn [unread]. lia.
Qed.

(** [Next] always returns. *)
Lemma json_Next_total (d : jsonTargeter) (tgt : option Target) :
  (Next d tgt).1.1 <> OutOfFuel.
Proof.
  unfold Json.Next. destruct tgt as [out|]; [|discriminate].
  pose proof (readLine_total (S (String.length (unread (j_reader d)))) (j_reader d)) as H.
  destruct (readLine _ _) as [[[data [e|]] r']|].
  - discriminate.
  - destruct (decode data) as [t [e|]]; [discriminate|].
    destruct (String.eqb (Method t) ""); [discriminate|].
    destruct (String.eqb (URL t) ""); discriminate.
  - exfalso. apply H; [lia|reflexivity].
Qed.

Lemma eqb_length_0 (s : string) : Nat.eqb (String.length s) 0 = String.eqb s "".
Proof. destruct s; reflexivity. Qed.

(** Blank lines are read and passed over. *)
Lemma readLine_skip_blanks (blanks : list string) (x : string) (e : option error) :
  Forall blankLine blanks ->
  readLine (S (String.length (joinLines blanks +:+ x))) (mkReader (joinLines blanks +:+ x) e)
  = readLine (S (String.length x)) (mkReader x e).
Proof.
  induction 1 as [|b blanks [Hb Ht] _ IH]; [reflexivity|].
  rewrite <- IH.
  set (R := readLine (S (String.length (joinLines blanks +:+ x))) _).
  cbn [joinLines Json.readLine]. rewrite <- !append_assoc.
  rewrite (ReadBytes_line b _ e Hb). rewrite Ht. cbn [String.length Nat.eqb].
  unfold R. apply readLine_fuel; cbn [unread]; rewrite ?length_append; simpl; lia.
Qed.

Lemma readLine_line (l rest : string) (e : option error) :
  cut "010"%char l = None ->
  TrimSpace (l +:+ newline) <> "" ->
  readLine (S (String.length (l +:+ newline +:+ rest))) (mkReader (l +:+ newline +:+ rest) e)
  = Some (TrimSpace (l +:+ newline), None, mkReader rest e).
Proof.
  intros Hl Ht. cbn [Json.readLine]. rewrite (ReadBytes_line l rest e Hl).
  rewrite eqb_length_0. destruct (String.eqb_spec (TrimSpace (l +:+ newline)) ""); [congruence|].
  reflexivity.
Qed.

End JsonFacts.

(** After any number of blank lines, a non-blank line that a newline
    closes decides the call: a parse failure of its trimmed text is
    returned as it is, an empty method gives [ErrNoMethod], a method
    with an empty URL gives [ErrNoURL]; in all three the caller's target
    is untouched and the stream stands after the line. When no newline
    is left after the blank lines, the call returns [ErrNoTargets]. *)
Theorem json_Next_outcomes (decode : string -> Target * option error)
    (blanks : list string) (body : string) (hdr : option HeaderMap) (out : Target) :
  Forall blankLine blanks ->
  let at_ x e := mkJSON body hdr (mkReader x e) in
  (forall l rest e,
      cut "010"%char l = None ->
      TrimSpace (l +:+ newline) <> "" ->
      let data := TrimSpace (l +:+ newline) in
      let d := at_ (joinLines blanks +:+ l +:+ newline +:+ rest) e in
      (forall t err, decode data = (t, Some err) ->
         Json.Next decode d (Some out) = (Return (Some err), Some out, at_ rest e))
      /\ (forall t, decode data = (t, None) -> Method t = "" ->
            Json.Next decode d (Some out)
            = (Return (Some ErrNoMethod), Some out, at_ rest e))
      /\ (forall t, decode data = (t, None) -> Method t <> "" -> URL t = "" ->
            Json.Next decode d (Some out)
            = (Return (Some ErrNoURL), Some out, at_ rest e)))
  /\ (forall tail,
        cut "010"%char tail = None ->
        Json.Next decode (at_ (joinLines blanks +:+ tail) None) (Some out)
        = (Return (Some ErrNoTargets), Some out, at_ "" None)).
Proof.
  intros Hb at_. split.
  - intros l rest e Hl Ht data d. unfold d, at_, Json.Next. cbn [j_reader unread j_body j_header].
    rewrite (readLine_skip_blanks blanks (l +:+ newline +:+ rest) e Hb).
    rewrite (readLine_line l rest e Hl Ht). fold data.
    split; [|split].
    + intros t err Hd. rewrite Hd. reflexivity.
    + intros t Hd Hm. rewrite Hd, Hm. reflexivity.
    + intros t Hd Hm Hu. rewrite Hd, Hu.
      destruct (String.eqb_spec (Method t) ""); [congruence|]. reflexivity.
  - intros tail Ht. unfold at_, Json.Next. cbn [j_reader unread j_body j_header].
    rewrite (readLine_skip_blanks blanks tail None Hb).
    cbn [Json.readLine]. rewrite (ReadBytes_end tail None Ht). reflexivity.
Qed.

Lemma json_Next_outcomes_witness :
  let at_ x := mkJSON "" None (mkReader x None) in
  let blanks := " " +:+ newline +:+ newline in
  let Next x := Json.Next sampleDecode (at_ x) (Some zeroTarget) in
  Next (blanks +:+ "{oops" +:+ newline +:+ lineGet)
  = (Return (Some (ExtError "parse error: syntax error")), Some zeroTarget, at_ lineGet)
  /\ Next (blanks +:+ lineNoMethod +:+ newline +:+ lineGet)
     = (Return (Some ErrNoMethod), Some zeroTarget, at_ lineGet)
  /\ Next (blanks +:+ lineNoURL +:+ newline +:+ lineGet)
     = (Return (Some ErrNoURL), Some zeroTarget, at_ lineGet)
  /\ Next (blanks +:+ "  ")
     = (Return (Some ErrNoTargets), Some zeroTarget, at_ "").
Proof.
  intros at_ blanks Next.
  assert (Hb : Forall blankLine [" "; ""]) by (repeat constructor).
  pose proof (json_Next_outcomes sampleDecode [" "; ""] "" None zeroTarget Hb) as [H1 H2].
  split; [|split; [|split]].
  - apply (proj1 (H1 "{oops" lineGet None eq_refl ltac:(discriminate)) zeroTarget).
    reflexivity.
  - apply (proj1 (proj2 (H1 lineNoMethod lineGet None eq_refl ltac:(discriminate)))
             (mkTarget "" "http://x" "" None "")); reflexivity.
  - apply (proj2 (proj2 (H1 lineNoURL lineGet None eq_refl ltac:(discriminate)))
             (mkTarget "GET" "" "" None "")); [reflexivity|discriminate|reflexivity].
  - apply (H2 "  " eq_refl).
Defined.

(** The last line of a stream is lost when no newline closes it:
    [ReadBytes] returns it together with [io.EOF]. *)
Lemma json_unterminated_last_line :
  Json.Next sampleDecode (mkJSON "" None (mkReader lineGet None)) (Some zeroTarget)
  = (Return (Some ErrNoTargets), Some zeroTarget, mkJSON "" None (mkReader "" None)).
Proof. reflexivity. Qed.

(** C7. The decoder does not treat every line of its input alike: the
    last line is decoded only if a newline closes it. An object with an
    empty method makes [Next] fail with [ErrNoMethod] when its line ends
    in a newline, as the claim says; the same line at the very end of
    the stream, with no newline after it, is read by [ReadBytes]
    together with [io.EOF], is never handed to the lexer, and the call
    returns [ErrNoTargets] as if the stream had been empty. The same
    goes for a line the lexer rejects, for an object without URL, and
    for a complete target, which is lost. *)
Theorem json_last_line_needs_newline (decode : string -> Target * option error)
    (blanks : list string) (body : string) (hdr : option HeaderMap) (out : Target)
    (l : string) (t : Target) :
  Forall blankLine blanks ->
  cut "010"%char l = None ->
  TrimSpace (l +:+ newline) <> "" ->
  decode (TrimSpace (l +:+ newline)) = (t, None) ->
  Method t = "" ->
  let at_ x := mkJSON body hdr (mkReader x None) in
  Json.Next decode (at_ (joinLines blanks +:+ l +:+ newline)) (Some out)
  = (Return (Some ErrNoMethod), Some out, at_ "")
  /\ Json.Next decode (at_ (joinLines blanks +:+ l)) (Some out)
     = (Return (Some ErrNoTargets), Some out, at_ "").
Proof.
  intros Hb Hl Hne Hd Hm at_.
  destruct (json_Next_outcomes decode blanks body hdr out Hb) as [H1 H2].
  split.
  - destruct (H1 l "" None Hl Hne) as (_ & Hnm & _).
    change (newline +:+ "") with newline in Hnm. apply (Hnm t Hd Hm).
  - apply (H2 l Hl).
Qed.

Lemma json_last_line_needs_newline_witness :
  let at_ x := mkJSON "" None (mkReader x None) in
  Json.Next sampleDecode (at_ (newline +:+ lineNoMethod +:+ newline)) (Some zeroTarget)
  = (Return (Some ErrNoMethod), Some zeroTarget, at_ "")
  /\ Json.Next sampleDecode (at_ (newline +:+ lineNoMethod)) (Some zeroTarget)
     = (Return (Some ErrNoTargets), Some zeroTarget, at_ "").
Proof.
  intros at_.
  apply (json_last_line_needs_newline sampleDecode [""] "" None zeroTarget lineNoMethod
           (mkTarget "" "http://x" "" None "")).
  - repeat constructor.
  - reflexivity.
  - discriminate.
  - reflexivity.
  - reflexivity.
Defined.

(** C3 fails as stated: the header of the caller's target is kept when it
    is not nil, and the defaults and the object's values are appended to
    what it holds. *)
Lemma json_header_keeps_prior_values :
  let d := mkJSON "" (Some {["A" := ["1"]]}) (mkReader (lineGet +:+ newline) None) in
  let out := mkTarget "" "" "" (Some {["A" := ["0"]]}) "" in
  (Json.Next sampleDecode d (Some out)).1
  = (Return None,
     Some (mkTarget "GET" "http://x" "" (Some {["A" := ["0"; "1"; "2"]]}) "")).
Proof. vm_compute. reflexivity. Qed.

Lemma headerGet_default (h : option HeaderMap) (k : string) :
  headerGet (Some (default ∅ h)) k = headerGet h k.
Proof. destruct h; [reflexivity|]. simpl. rewrite lookup_empty. reflexivity. Qed.

Lemma headerLen_0 (h : option HeaderMap) : headerLen h = 0 -> default ∅ h = ∅.
Proof.
  destruct h as [m|]; [|reflexivity]. simpl. intros H. apply map_size_empty_inv, H.
Qed.

(** C3, amended. After a successful [Next] the target's header is a map
    in which every key holds the values the caller's target had for it,
    then the provider's default values, then the decoded object's
    values. When the caller's target had no header entries this is the
    defaults followed by the object's values: default [{"A":["1"]}] and
    object [{"A":["2"]}] give [A = ["1","2"]]. *)
Theorem json_Next_header (decode : string -> Target * option error)
    (d d' : jsonTargeter) (out t' : Target) :
  Json.Next decode d (Some out) = (Return None, Some t', d') ->
  exists data t m,
    decode data = (t, None)
    /\ Header t' = Some m
    /\ (forall k, default [] (m !! k)
                  = (headerGet (Header out) k ++ headerGet (j_header d) k
                     ++ headerGet (Header t) k)%list)
    /\ (headerLen (Header out) = 0 ->
        forall k, default [] (m !! k)
                  = (headerGet (j_header d) k ++ headerGet (Header t) k)%list)
    /\ (headerLen (Header out) = 0 ->
        j_header d = Some {["A" := ["1"]]} ->
        Header t = Some {["A" := ["2"]]} ->
        m = {["A" := ["1"; "2"]]}).
Proof.
  unfold Json.Next.
  destruct (Json.readLine _ _) as [[[data [e|]] r']|]; try discriminate.
  destruct (decode data) as [t [e|]] eqn:Hd; [discriminate|].
  destruct (String.eqb (Method t) ""); [discriminate|].
  destruct (String.eqb (URL t) ""); [discriminate|].
  intros [= <- _]. cbn [Header].
  exists data, t, (appendValues (Header t) (appendValues (j_header d) (default ∅ (Header out)))).
  assert (Hall : forall k,
             default [] (appendValues (Header t)
                           (appendValues (j_header d) (default ∅ (Header out))) !! k)
             = (headerGet (Header out) k ++ headerGet (j_header d) k
                ++ headerGet (Header t) k)%list).
  { intros k.
    change (default [] (?m !! k)) with (headerGet (Some m) k).
    rewrite !headerGet_appendValues, headerGet_default, <- app_assoc. reflexivity. }
  split; [exact Hd|]. split; [reflexivity|]. split; [exact Hall|]. split.
  - intros H0 k. rewrite Hall. rewrite <- headerGet_default, (headerLen_0 _ H0).
    simpl. rewrite lookup_empty. reflexivity.
  - intros H0 Hj Ht. rewrite Hj, Ht, (headerLen_0 _ H0).
    apply map_eq. intros k. rewrite !appendValues_lookup.
    cbn [default from_option id].
    destruct (decide (k = "A")) as [->|Hk].
    + rewrite !lookup_singleton_eq, lookup_empty. reflexivity.
    + rewrite !lookup_singleton_ne by congruence. apply lookup_empty.
Qed.

Lemma json_Next_header_witness :
  let defaults : option HeaderMap := Some {["A" := ["1"]]} in
  exists data t (m : HeaderMap),
    sampleDecode data = (t, None)
    /\ Some ({["A" := ["1"; "2"]]} : HeaderMap) = Some m
    /\ (forall k, default [] (m !! k)
                  = (headerGet None k ++ headerGet defaults k
                     ++ headerGet (Header t) k)%list)
    /\ (headerLen None = 0 ->
        forall k, default [] (m !! k)
                  = (headerGet defaults k ++ headerGet (Header t) k)%list)
    /\ (headerLen None = 0 ->
        defaults = Some {["A" := ["1"]]} ->
        Header t = Some {["A" := ["2"]]} ->
        m = {["A" := ["1"; "2"]]}).
Proof.
  intros defaults.
  apply (json_Next_header sampleDecode
           (mkJSON "" (Some {["A" := ["1"]]}) (mkReader (lineGet +:+ newline) None))
           (mkJSON "" (Some {["A" := ["1"]]}) (mkReader "" None))
           zeroTarget
           (mkTarget "GET" "http://x" "" (Some {["A" := ["1"; "2"]]}) "")).
  vm_compute. reflexivity.
Defined.

(** ** Encoding and decoding again *)

Section RoundTripFacts.

Lemma sameValues_refl (vs : list string) : sameValues vs vs = true.
Proof.
  unfold sameValues. rewrite Nat.eqb_refl. simpl.
  induction vs as [|v vs IH]; [reflexivity|]. simpl. rewrite String.eqb_refl. exact IH.
Qed.

Lemma headerLen_size (h : option HeaderMap) : headerLen h = size (default ∅ h).
Proof. destruct h; [reflexivity|]. simpl. rewrite map_size_empty. reflexivity. Qed.

Lemma headerGet_lookup (h : option HeaderMap) (k : string) :
  headerGet h k = default [] (default ∅ h !! k).
Proof. destruct h; [reflexivity|]. simpl. rewrite lookup_empty. reflexivity. Qed.

(** [Equal] holds of two targets with the same method, URL, body and
    header entries; a nil header and an empty one are the same to it, and
    the name plays no part. *)
Lemma Equal_same_fields (t o : Target) :
  Method t = Method o -> URL t = URL o -> Body t = Body o ->
  default ∅ (Header t) = default ∅ (Header o) ->
  Equal (Some t) (Some o) = true.
Proof.
  intros Hm Hu Hb Hh. unfold Equal.
  rewrite Hm, Hu, Hb, !String.eqb_refl, !headerLen_size, Hh, Nat.eqb_refl. simpl.
  apply forallb_forall. intros [k vs] Hin. cbn [fst snd].
  rewrite headerGet_lookup.
  apply list_elem_of_In, elem_of_map_to_list in Hin. rewrite Hin. apply sameValues_refl.
Qed.

Lemma appendValues_empty (extra : option HeaderMap) :
  appendValues extra ∅ = default ∅ extra.
Proof.
  apply map_eq. intros k. rewrite appendValues_lookup.
  destruct (default ∅ extra !! k); [reflexivity|]. apply lookup_empty.
Qed.

Lemma decodeHeader_list_to_map (entries : list (string * list string)) :
  decodeHeader entries = list_to_map (List.rev entries).
Proof.
  unfold decodeHeader. rewrite <- fold_left_rev_right. reflexivity.
Qed.

(** The members written for a header map read back as that map. *)
Lemma decodeHeader_map_to_list (m : HeaderMap) : decodeHeader (map_to_list m) = m.
Proof.
  rewrite decodeHeader_list_to_map. symmetry. apply list_to_map_flip.
  apply Permutation_rev.
Qed.

Lemma length_0_empty (s : string) : Nat.eqb (String.length s) 0 = true -> s = "".
Proof. destruct s; [reflexivity|discriminate]. Qed.

(** The object written for a target reads back as its method, URL, body,
    header entries and name. *)
Lemma decodeTarget_encodeTarget (t : Target) :
  exists tj, decodeTarget (encodeTarget t) = (tj, None)
    /\ Method tj = Method t /\ URL tj = URL t /\ Body tj = Body t
    /\ default ∅ (Header tj) = default ∅ (Header t).
Proof.
  unfold encodeTarget, decodeTarget.
  destruct (Nat.eqb (String.length (Body t)) 0) eqn:Eb;
    destruct (Nat.eqb (headerLen (Header t)) 0) eqn:Eh;
    destruct (String.eqb (Name t) "") eqn:En;
    cbn -[decodeHeader map_to_list]; eexists; (split; [reflexivity|]);
    cbn -[decodeHeader map_to_list];
    rewrite ?decodeHeader_map_to_list;
    repeat split;
    try (symmetry; apply length_0_empty, Eb);
    try (symmetry; apply headerLen_0, Nat.eqb_eq, Eh).
Qed.

Lemma append_nil_r (s : string) : s +:+ "" = s.
Proof. induction s as [|c s IH]; [reflexivity|]. rewrite append_cons, IH. reflexivity. Qed.

End RoundTripFacts.

(** ** JSON text read back *)

Section JsonTextFacts.

Import JsonText.

(** An escaped byte is read back as that byte. *)
Lemma parseChars_escapeByte (c : ascii) (tail : string) :
  parseChars (escapeByte c +:+ tail) = prepend (String c "") (parseChars tail).
Proof. destruct c as [[] [] [] [] [] [] [] []]; reflexivity. Qed.

Lemma parseChars_escape (s rest : string) :
  parseChars (escape s +:+ String dquote rest) = Some (s, rest).
Proof.
  induction s as [|c s IH]; [reflexivity|].
  cbn [escape]. rewrite <- append_assoc, parseChars_escapeByte, IH. reflexivity.
Qed.

Lemma parseString_print (s rest : string) :
  parseString (printString s +:+ rest) = Some (s, rest).
Proof.
  unfold parseString, printString, expect. rewrite append_cons.
  cbn [skipWs]. change (isJsonSpace dquote) with false. cbn iota.
  change (Ascii.eqb dquote dquote) with true. cbn iota.
  rewrite <- append_assoc. apply parseChars_escape.
Qed.

Lemma printString_starts (s : string) :
  exists r, printString s = String dquote r.
Proof. eexists. reflexivity. Qed.

Section ItemsFacts.

Context {A : Type}.
Variable pr : A -> string.
Variable item : string -> option (A * string).
Variable close : ascii.

Hypothesis close_no_space : isJsonSpace close = false.
Hypothesis close_no_comma : Ascii.eqb close ","%char = false.
Hypothesis close_no_quote : Ascii.eqb dquote close = false.

Lemma printItems_append (x : A) (xs : list A) (rest : string) :
  printItems pr close (x :: xs) +:+ rest
  = pr x +:+ match xs with
             | [] => String close rest
             | _ :: _ => String ","%char (printItems pr close xs +:+ rest)
             end.
Proof. cbn [printItems]. rewrite <- append_assoc. destruct xs; reflexivity. Qed.

Lemma parseItems_print (xs : list A) :
  forall (fuel : nat) (rest : string),
    xs <> [] -> length xs <= fuel -> Forall (readable pr item) xs ->
    parseItems item close fuel (printItems pr close xs +:+ rest) = Some (xs, rest).
Proof.
  induction xs as [|x xs IH]; intros fuel rest Hne Hlen Hall; [congruence|].
  destruct fuel as [|fuel]; [simpl in Hlen; lia|].
  pose proof (List.Forall_inv Hall) as [Hx _].
  pose proof (List.Forall_inv_tail Hall) as Hxs.
  rewrite printItems_append. cbn [parseItems]. rewrite Hx.
  destruct xs as [|y ys].
  - cbn [skipWs]. rewrite close_no_space, close_no_comma, Ascii.eqb_refl. reflexivity.
  - cbn [skipWs]. change (isJsonSpace ","%char) with false. cbn iota.
    rewrite Ascii.eqb_refl.
    rewrite IH; [reflexivity|discriminate|simpl in *; lia|exact Hxs].
Qed.

Lemma length_printItems (xs : list A) :
  Forall (readable pr item) xs -> length xs <= String.length (printItems pr close xs).
Proof.
  induction 1 as [|x xs [_ [r Hr]] _ IH]; [simpl; lia|].
  cbn [printItems]. rewrite length_append, Hr.
  destruct xs; cbn [String.length length] in *; lia.
Qed.

Lemma parseSeq_print (xs : list A) (rest : string) :
  Forall (readable pr item) xs ->
  parseSeq item close (printItems pr close xs +:+ rest) = Some (xs, rest).
Proof.
  intros Hall. unfold parseSeq. destruct xs as [|x xs].
  - cbn [printItems]. rewrite append_cons. cbn [skipWs].
    rewrite close_no_space, Ascii.eqb_refl. reflexivity.
  - pose proof (List.Forall_inv Hall) as [_ [r Hr]].
    pose proof (length_printItems (x :: xs) Hall) as Hlen.
    assert (Hs : exists t, printItems pr close (x :: xs) +:+ rest = String dquote t).
    { rewrite printItems_append, Hr. eexists. reflexivity. }
    destruct Hs as [t Ht]. rewrite Ht at 1. cbn [skipWs].
    change (isJsonSpace dquote) with false. cbn iota. rewrite close_no_quote.
    apply parseItems_print; [discriminate| |exact Hall].
    rewrite length_append. lia.
Qed.

(** The printed items hold no newline and end with the closing bracket. *)
Lemma printItems_one_line (xs : list A) :
  Forall (fun x => cut "010"%char (pr x) = None) xs ->
  Ascii.eqb close "010"%char = false ->
  cut "010"%char (printItems pr close xs) = None.
Proof.
  intros Hall Hc. induction Hall as [|x xs Hx _ IH].
  - cbn [printItems cut]. rewrite Hc. reflexivity.
  - cbn [printItems].
    assert (Hcut : forall a b, cut "010"%char a = None -> cut "010"%char b = None ->
                     cut "010"%char (a +:+ b) = None).
    { intros a b Ha Hb. induction a as [|c a IHa]; [exact Hb|].
      rewrite append_cons. cbn [cut] in *. destruct (Ascii.eqb c "010"%char); [discriminate Ha|].
      destruct (cut "010"%char a) as [[u v]|]; [discriminate Ha|].
      rewrite IHa by reflexivity. reflexivity. }
    apply Hcut; [exact Hx|]. destruct xs as [|y ys].
    + cbn [cut]. rewrite Hc. reflexivity.
    + cbn [cut]. change (Ascii.eqb ","%char "010"%char) with false. cbn iota.
      rewrite IH. reflexivity.
Qed.

Lemma printItems_ends (xs : list A) :
  exists mid, printItems pr close xs = mid +:+ String close "".
Proof.
  induction xs as [|x xs [mid IH]]; [exists ""; reflexivity|].
  cbn [printItems]. destruct xs as [|y ys].
  - exists (pr x). reflexivity.
  - exists (pr x +:+ String ","%char mid). rewrite IH, <- append_assoc. reflexivity.
Qed.

End ItemsFacts.

Lemma cut_append_None (sep : ascii) (a b : string) :
  cut sep a = None -> cut sep b = None -> cut sep (a +:+ b) = None.
Proof.
  intros Ha Hb. induction a as [|c a IH]; [exact Hb|].
  rewrite append_cons. cbn [cut] in *. destruct (Ascii.eqb c sep); [discriminate Ha|].
  destruct (cut sep a) as [[u v]|]; [discriminate Ha|].
  rewrite IH by reflexivity. reflexivity.
Qed.

Lemma escapeByte_one_line (c : ascii) : cut "010"%char (escapeByte c) = None.
Proof. destruct c as [[] [] [] [] [] [] [] []]; reflexivity. Qed.

Lemma printString_one_line (s : string) : cut "010"%char (printString s) = None.
Proof.
  unfold printString. cbn [cut]. change (Ascii.eqb dquote "010"%char) with false. cbn iota.
  assert (H : cut "010"%char (escape s +:+ String dquote "") = None).
  { induction s as [|c s IH]; [reflexivity|].
    cbn [escape]. rewrite <- append_assoc.
    apply cut_append_None; [apply escapeByte_one_line|exact IH]. }
  rewrite H. reflexivity.
Qed.

Lemma readable_string (s : string) :
  readable printString parseString s.
Proof. split; [intros rest; apply parseString_print|apply printString_starts]. Qed.

Lemma parseArray_print (vs : list string) (rest : string) :
  parseArray (printArray vs +:+ rest) = Some (vs, rest).
Proof.
  unfold parseArray, printArray, expect. rewrite append_cons. cbn [skipWs].
  change (isJsonSpace "["%char) with false. cbn iota.
  change (Ascii.eqb "["%char "["%char) with true. cbn iota.
  apply parseSeq_print; try reflexivity.
  apply List.Forall_forall. intros s _. apply readable_string.
Qed.

Lemma expect_head (c : ascii) (r : string) :
  isJsonSpace c = false -> expect c (String c r) = Some r.
Proof. intros H. unfold expect. cbn [skipWs]. rewrite H, Ascii.eqb_refl. reflexivity. Qed.

Lemma parseMember_print (kv : string * list string) (rest : string) :
  parseMember (printMember kv +:+ rest) = Some (kv, rest).
Proof.
  unfold parseMember, printMember. rewrite <- append_assoc, parseString_print.
  rewrite append_cons, expect_head by reflexivity.
  rewrite parseArray_print. destruct kv; reflexivity.
Qed.

Lemma readable_member (kv : string * list string) :
  readable printMember parseMember kv.
Proof.
  split; [intros rest; apply parseMember_print|].
  unfold printMember, printString. eexists. reflexivity.
Qed.

Lemma parseHeader_print (es : list (string * list string)) (rest : string) :
  parseHeader (printHeader es +:+ rest) = Some (es, rest).
Proof.
  unfold parseHeader, printHeader. rewrite append_cons, expect_head by reflexivity.
  apply parseSeq_print; try reflexivity.
  apply List.Forall_forall. intros kv _. apply readable_member.
Qed.

(** Base64. *)
Lemma b64val_char (x0 x1 x2 x3 x4 x5 : bool) :
  b64val (b64char (Ascii x0 x1 x2 x3 x4 x5 false false))
  = Some (Ascii x0 x1 x2 x3 x4 x5 false false)
  /\ Ascii.eqb (b64char (Ascii x0 x1 x2 x3 x4 x5 false false)) "="%char = false.
Proof. destruct x0, x1, x2, x3, x4, x5; split; reflexivity. Qed.

Lemma b64_sextet1 (a : ascii) :
  b64val (b64char (sextet1 a)) = Some (sextet1 a).
Proof. destruct a as [a0 a1 a2 a3 a4 a5 a6 a7]. apply b64val_char. Qed.

Lemma b64_sextet2 (a b : ascii) :
  b64val (b64char (sextet2 a b)) = Some (sextet2 a b).
Proof.
  destruct a as [a0 a1 a2 a3 a4 a5 a6 a7], b as [b0 b1 b2 b3 b4 b5 b6 b7].
  apply b64val_char.
Qed.

Lemma b64_sextet3 (b c : ascii) :
  b64val (b64char (sextet3 b c)) = Some (sextet3 b c)
  /\ Ascii.eqb (b64char (sextet3 b c)) "="%char = false.
Proof.
  destruct b as [b0 b1 b2 b3 b4 b5 b6 b7], c as [c0 c1 c2 c3 c4 c5 c6 c7].
  apply b64val_char.
Qed.

Lemma b64_sextet4 (c : ascii) :
  b64val (b64char (sextet4 c)) = Some (sextet4 c)
  /\ Ascii.eqb (b64char (sextet4 c)) "="%char = false.
Proof. destruct c as [c0 c1 c2 c3 c4 c5 c6 c7]. apply b64val_char. Qed.

Lemma bytes_of_sextets (a b c : ascii) :
  byte1 (sextet1 a) (sextet2 a b) = a
  /\ byte2 (sextet2 a b) (sextet3 b c) = b
  /\ byte3 (sextet3 b c) (sextet4 c) = c.
Proof.
  destruct a as [a0 a1 a2 a3 a4 a5 a6 a7], b as [b0 b1 b2 b3 b4 b5 b6 b7],
           c as [c0 c1 c2 c3 c4 c5 c6 c7].
  repeat split.
Qed.

Lemma b64decode_encode_upto (n : nat) :
  forall s, String.length s <= n -> b64decode (b64encode s) = Some s.
Proof.
  induction n as [|n IH]; intros s Hlen.
  - destruct s; [reflexivity|simpl in Hlen; lia].
  - destruct s as [|a [|b [|c r]]]; [reflexivity| | |].
    + cbn [b64encode b64decode]. rewrite b64_sextet1, b64_sextet2.
      cbn [Ascii.eqb Bool.eqb String.eqb andb].
      destruct (bytes_of_sextets a zeroByte zeroByte) as (-> & _). reflexivity.
    + cbn [b64encode b64decode]. rewrite b64_sextet1, b64_sextet2.
      destruct (b64_sextet3 b zeroByte) as [-> ->].
      cbn [Ascii.eqb Bool.eqb String.eqb andb].
      destruct (bytes_of_sextets a b zeroByte) as (-> & -> & _). reflexivity.
    + cbn [b64encode b64decode]. rewrite b64_sextet1, b64_sextet2.
      destruct (b64_sextet3 b c) as [-> ->]. destruct (b64_sextet4 c) as [-> ->].
      rewrite IH by (simpl in Hlen; lia).
      destruct (bytes_of_sextets a b c) as (-> & -> & ->). reflexivity.
Qed.

Lemma b64decode_encode (s : string) : b64decode (b64encode s) = Some s.
Proof. apply (b64decode_encode_upto (String.length s)). lia. Qed.

(** The members of the target's object. *)
Lemma parseField_print (f : string * jvalue) (rest : string) :
  wellKinded f = true ->
  parseField (printField f +:+ rest) = Some (f, rest).
Proof.
  destruct f as [k v]. unfold wellKinded, parseField, printField. cbn [fst snd].
  intros Hk. rewrite <- append_assoc, parseString_print.
  rewrite append_cons, expect_head by reflexivity.
  destruct v as [s|b|es]; cbn [printValue].
  - apply andb_prop in Hk as [H1 H2]. apply negb_true_iff in H1, H2.
    rewrite H1, H2, parseString_print. reflexivity.
  - rewrite Hk, parseString_print, b64decode_encode. reflexivity.
  - destruct (String.eqb k "body") eqn:E.
    { apply String.eqb_eq in E. subst k. discriminate Hk. }
    rewrite Hk, parseHeader_print. reflexivity.
Qed.

Lemma printValue_one_line (v : jvalue) : cut "010"%char (printValue v) = None.
Proof.
  destruct v as [s|b|es]; cbn [printValue]; try apply printString_one_line.
  unfold printHeader. cbn [cut]. change (Ascii.eqb "{"%char "010"%char) with false. cbn iota.
  rewrite printItems_one_line; [reflexivity| |reflexivity].
  apply List.Forall_forall. intros [k vs] _. unfold printMember, printArray. cbn [fst snd].
  apply cut_append_None; [apply printString_one_line|].
  cbn [cut]. change (Ascii.eqb ":"%char "010"%char) with false.
  change (Ascii.eqb "["%char "010"%char) with false. cbn iota.
  rewrite printItems_one_line; [reflexivity| |reflexivity].
  apply List.Forall_forall. intros s _. apply printString_one_line.
Qed.

(** The writer's text for an object whose members have the kinds their
    names ask for is read back as that object; it is one line, between
    braces. *)
Lemma parse_print (o : jobject) :
  forallb wellKinded o = true -> parse (print o) = (o, None).
Proof.
  intros Hk. unfold parse, print. rewrite expect_head by reflexivity.
  rewrite <- (append_nil_r (printItems printField "}"%char o)).
  rewrite parseSeq_print; [reflexivity|reflexivity..|].
  apply List.Forall_forall. intros f Hin. split.
  - intros rest. apply parseField_print.
    rewrite forallb_forall in Hk. apply Hk, Hin.
  - unfold printField, printString. eexists. reflexivity.
Qed.

Lemma print_one_line (o : jobject) : cut "010"%char (print o) = None.
Proof.
  unfold print. cbn [cut]. change (Ascii.eqb "{"%char "010"%char) with false. cbn iota.
  rewrite printItems_one_line; [reflexivity| |reflexivity].
  apply List.Forall_forall. intros [k v] _. unfold printField. cbn [fst snd].
  apply cut_append_None; [apply printString_one_line|].
  cbn [cut]. change (Ascii.eqb ":"%char "010"%char) with false. cbn iota.
  rewrite printValue_one_line. reflexivity.
Qed.

Lemma print_braces (o : jobject) :
  exists mid, print o = String "{"%char (mid +:+ "}").
Proof.
  unfold print. destruct (printItems_ends printField "}"%char o) as [mid ->].
  exists mid. reflexivity.
Qed.

End JsonTextFacts.

(** ** The encoder's line, trimmed *)

Section EncodedLine.

Lemma dropOne_brace (x : string) : dropOne spaceRunes (String "{"%char x) = None.
Proof. vm_compute. reflexivity. Qed.

Lemma dropOne_rev_brace (x : string) :
  dropOne (List.map Strings.rev spaceRunes) (String "}"%char x) = None.
Proof. vm_compute. reflexivity. Qed.

Lemma dropOne_rev_newline (y : string) :
  dropOne (List.map Strings.rev spaceRunes) (String "010"%char y) = Some y.
Proof.
  change (List.map Strings.rev spaceRunes)
    with (String "009"%char "" :: String "010"%char ""
            :: tl (tl (List.map Strings.rev spaceRunes))).
  cbn [dropOne String.prefix].
  destruct (Ascii.ascii_dec "009" "010") as [E|_]; [discriminate E|].
  destruct (Ascii.ascii_dec "010" "010") as [_|E]; [|congruence].
  replace (String.prefix "" y) with true by (destruct y; reflexivity).
  cbn [String.length Nat.sub String.substring].
  rewrite Nat.sub_0_r, substring_all. reflexivity.
Qed.

(** Trimming the line of an object takes its newline away and nothing
    else. *)
Lemma TrimSpace_object_line (mid : string) :
  TrimSpace (String "{"%char (mid +:+ "}") +:+ newline) = String "{"%char (mid +:+ "}").
Proof.
  set (text := String "{"%char (mid +:+ "}")).
  unfold TrimSpace, TrimLeft.
  assert (Hl : trimLeftFuel spaceRunes (String.length (text +:+ newline)) (text +:+ newline)
               = text +:+ newline).
  { unfold text. rewrite append_cons. cbn [String.length trimLeftFuel].
    rewrite dropOne_brace. reflexivity. }
  rewrite Hl. unfold TrimRight.
  assert (Hr : Strings.rev (text +:+ newline)
               = String "010"%char (String "}"%char (Strings.rev mid +:+ "{"))).
  { rewrite rev_append. change (Strings.rev newline) with newline.
    unfold text. change (String "{"%char (mid +:+ "}")) with ("{" +:+ (mid +:+ "}")).
    rewrite !rev_append. reflexivity. }
  rewrite Hr.
  assert (Hn : exists k, String.length (text +:+ newline) = S (S k)).
  { unfold text. rewrite append_cons. cbn [String.length].
    rewrite !length_append. cbn [String.length newline]. exists (S (String.length mid)). lia. }
  destruct Hn as [k ->]. cbn [trimLeftFuel].
  rewrite dropOne_rev_newline, dropOne_rev_brace.
  change (String "}"%char (Strings.rev mid +:+ "{")) with ("}" +:+ (Strings.rev mid +:+ "{")).
  rewrite !rev_append, rev_involutive. reflexivity.
Qed.

Lemma encodeTarget_wellKinded (t : Target) :
  forallb wellKinded (encodeTarget t) = true.
Proof.
  unfold encodeTarget.
  destruct (Nat.eqb (String.length (Body t)) 0), (Nat.eqb (headerLen (Header t)) 0),
           (String.eqb (Name t) ""); reflexivity.
Qed.

(** The writer and the lexer of [JsonText] make a pair for which the
    encoder's line is read back. *)
Lemma readsBack_JsonText (t : Target) :
  readsBack JsonText.print JsonText.parse (encodeTarget t).
Proof.
  unfold readsBack. destruct (print_braces (encodeTarget t)) as [mid Hmid].
  split; [apply print_one_line|].
  rewrite Hmid, TrimSpace_object_line, <- Hmid.
  split; [rewrite Hmid; discriminate|].
  apply parse_print, encodeTarget_wellKinded.
Qed.

(** Over any writer and lexer that make such a pair, the encoder's line
    for a target with a method and a URL is decoded by a fresh decoder
    without defaults into a target with the same method, URL, body and
    header entries. *)
Lemma round_trip_over (print : jobject -> string)
    (parse : string -> jobject * option error) (t : Target) :
  Method t <> "" ->
  URL t <> "" ->
  readsBack print parse (encodeTarget t) ->
  exists t',
    Json.Next (decodeWith parse) (NewJSONTargeter (Encode print t) None "" None)
      (Some zeroTarget)
    = (Return None, Some t', NewJSONTargeter "" None "" None)
    /\ Method t' = Method t /\ URL t' = URL t /\ Body t' = Body t
    /\ Header t' = Some (default ∅ (Header t)).
Proof.
  intros Hm Hu (Hcut & Hnb & Hparse).
  destruct (decodeTarget_encodeTarget t) as (tj & Hd & Hjm & Hju & Hjb & Hjh).
  unfold Json.Next, NewJSONTargeter, Encode. cbn [j_reader unread j_body j_header].
  rewrite <- (append_nil_r (print (encodeTarget t) +:+ newline)), <- append_assoc.
  rewrite (readLine_line (print (encodeTarget t)) "" None Hcut Hnb).
  unfold decodeWith. rewrite Hparse, Hd, Hjm, Hju.
  destruct (String.eqb_spec (Method t) ""); [congruence|].
  destruct (String.eqb_spec (URL t) ""); [congruence|].
  eexists. split; [reflexivity|].
  cbn [Method URL Body Header zeroTarget default from_option id].
  repeat split.
  - rewrite Hjb. destruct (Body t); reflexivity.
  - f_equal. unfold appendValues at 2. cbn [default from_option id].
    rewrite map_fold_empty, appendValues_empty. exact Hjh.
Qed.

End EncodedLine.

(** C9. A target with a method and a URL, as every target the JSON
    decoder produces has, is written by the encoder as one line that a
    fresh decoder without defaults reads into a target with the same
    method, URL and body bytes and the same header mapping, every name
    with its values in their order: the two are [Equal], either way
    round. The writer and the lexer are those of [JsonText]. *)
Theorem json_encode_decode_round_trip (t : Target) :
  Method t <> "" ->
  URL t <> "" ->
  exists t',
    Json.Next (decodeWith JsonText.parse)
      (NewJSONTargeter (Encode JsonText.print t) None "" None) (Some zeroTarget)
    = (Return None, Some t', NewJSONTargeter "" None "" None)
    /\ Method t' = Method t /\ URL t' = URL t /\ Body t' = Body t
    /\ default ∅ (Header t') = default ∅ (Header t)
    /\ (forall k, headerGet (Header t') k = headerGet (Header t) k)
    /\ Equal (Some t) (Some t') = true
    /\ Equal (Some t') (Some t) = true.
Proof.
  intros Hm Hu.
  destruct (round_trip_over JsonText.print JsonText.parse t Hm Hu (readsBack_JsonText t))
    as (t' & Hn & Hm' & Hu' & Hb' & Hh').
  assert (Hd : default ∅ (Header t') = default ∅ (Header t)) by (rewrite Hh'; reflexivity).
  exists t'. split; [exact Hn|]. repeat split; try assumption.
  - intros k. rewrite !headerGet_lookup, Hd. reflexivity.
  - apply Equal_same_fields; congruence.
  - apply Equal_same_fields; congruence.
Qed.

Lemma json_encode_decode_round_trip_witness :
  let t := mkTarget "POST" "http://x/y" (String "000"%char "body") 
             (Some {["A" := ["2"; "1"]; "b" := []]}) "" in
  Encode JsonText.print targetGet = lineGet +:+ newline
  /\ exists t',
       Json.Next (decodeWith JsonText.parse)
         (NewJSONTargeter (Encode JsonText.print t) None "" None) (Some zeroTarget)
       = (Return None, Some t', NewJSONTargeter "" None "" None)
       /\ Method t' = "POST" /\ URL t' = "http://x/y" /\ Body t' = String "000"%char "body"
       /\ default ∅ (Header t') = {["A" := ["2"; "1"]; "b" := []]}
       /\ (forall k, headerGet (Header t') k = headerGet (Header t) k)
       /\ Equal (Some t) (Some t') = true
       /\ Equal (Some t') (Some t) = true.
Proof.
  intros t. split; [vm_compute; reflexivity|].
  apply (json_encode_decode_round_trip t); discriminate.
Defined.

(** ** The examples of the specification *)

Section Examples.

Let run (ls : list string) (n : nat) : list (ret * option Target) :=
  (callN (Http.targeter sampleParseRequestURI sampleReadFile) n
     (NewHTTPTargeter (ScanLines (joinLines ls)) None "" None)).1.

(** Two blocks with neither headers nor body, then exhaustion. *)
Example http_two_blocks :
  run ["GET https://x/y"; ""; "POST https://x/z"] 3
  = [ (Return None, Some (mkTarget "GET" "https://x/y" "" (Some ∅) ""));
      (Return None, Some (mkTarget "POST" "https://x/z" "" (Some ∅) ""));
      (Return (Some ErrNoTargets), Some zeroTarget) ].
Proof. reflexivity. Qed.

(** A header line keeps the case of its name. *)
Example http_header_line :
  run ["GET https://x/y"; "Foo: bar"] 1
  = [ (Return None,
       Some (mkTarget "GET" "https://x/y" "" (Some {["Foo" := ["bar"]]}) "")) ].
Proof. reflexivity. Qed.

(** A header line without a colon is a header error. *)
Example http_header_without_colon :
  (run ["GET https://x/y"; "Foo"] 1).*1 = [ Return (Some (Errorf "bad header: Foo")) ].
Proof. reflexivity. Qed.

(** A blank line that was peeked is dropped by the scanner, which the
    decoder does not notice: it passes over blank lines anyway. *)
Example http_blank_after_method :
  run ["GET https://x/y"; ""; ""; "# next"; "PUT https://x/z"; "A: 1"; "A: 2"] 2
  = [ (Return None, Some (mkTarget "GET" "https://x/y" "" (Some ∅) ""));
      (Return None,
       Some (mkTarget "PUT" "https://x/z" "" (Some {["A" := ["1"; "2"]]}) "")) ].
Proof. reflexivity. Qed.

(** A target compares equal to itself. *)
Example Equal_refl (t : Target) : Equal (Some t) (Some t) = true.
Proof. apply Equal_same_fields; reflexivity. Qed.

End Examples.

(** * Further properties *)

(** ** Target.Equal *)

Section EqualFacts.

Lemma sameAt_eq (left right : list string) :
  length left = length right -> sameAt left right = true -> left = right.
Proof.
  revert right. induction left as [|l ls IH]; intros [|r rs] Hlen H;
    try discriminate Hlen; [reflexivity|].
  simpl in H. apply andb_prop in H as [Hl Hs]. apply String.eqb_eq in Hl.
  f_equal; [exact Hl|]. apply IH; [simpl in Hlen; lia|exact Hs].
Qed.

Lemma sameValues_eq (left right : list string) :
  sameValues left right = true -> left = right.
Proof.
  unfold sameValues. intros H. apply andb_prop in H as [Hl Hs].
  apply Nat.eqb_eq in Hl. apply sameAt_eq; assumption.
Qed.

End EqualFacts.

(** X1. When no header name of [t] holds an empty list of values,
    [t.Equal(other)] is exactly: same method, same URL, same body and
    the same header map (a nil map counting as the empty one). The name
    is not compared. *)
Theorem Equal_structural (t o : Target) :
  (forall k vs, default ∅ (Header t) !! k = Some vs -> vs <> []) ->
  Equal (Some t) (Some o) = true
  <-> Method t = Method o /\ URL t = URL o /\ Body t = Body o
      /\ default ∅ (Header t) = default ∅ (Header o).
Proof.
  intros Hfull. split.
  - unfold Equal. intros H.
    apply andb_prop in H as [H Hall]. apply andb_prop in H as [H Hlen].
    apply andb_prop in H as [H Hb]. apply andb_prop in H as [Hm Hu].
    apply String.eqb_eq in Hm, Hu, Hb. apply Nat.eqb_eq in Hlen.
    repeat (split; [assumption|]).
    rewrite !headerLen_size in Hlen.
    apply map_subseteq_size_eq; [|lia].
    apply map_subseteq_spec. intros k vs Hk.
    rewrite forallb_forall in Hall.
    assert (Hin : In (k, vs) (map_to_list (default ∅ (Header t))))
      by (apply list_elem_of_In, elem_of_map_to_list, Hk).
    specialize (Hall _ Hin). cbn [fst snd] in Hall.
    apply sameValues_eq in Hall. rewrite headerGet_lookup in Hall.
    destruct (default ∅ (Header o) !! k) as [ws|]; simpl in Hall.
    + congruence.
    + exfalso. apply (Hfull k vs Hk), Hall.
  - intros (Hm & Hu & Hb & Hh). apply Equal_same_fields; assumption.
Qed.

Lemma Equal_structural_witness :
  let t := mkTarget "GET" "http://x" "b" (Some {["A" := ["1"; "2"]]}) "one" in
  let o := mkTarget "GET" "http://x" "b" (Some {["A" := ["1"; "2"]]}) "two" in
  Equal (Some t) (Some o) = true
  <-> Method t = Method o /\ URL t = URL o /\ Body t = Body o
      /\ default ∅ (Header t) = default ∅ (Header o).
Proof.
  intros t o. apply (Equal_structural t o).
  intros k vs H. cbn in H. apply lookup_singleton_Some in H as [_ <-]. discriminate.
Defined.

(** X2. A header name with no values is not told apart from a missing
    name, and only the names of the receiver are gone through: a target
    whose header is [{a: []}] equals one whose header is [{b: vs}],
    while the latter does not equal the former unless [vs] is empty. *)
Theorem Equal_not_symmetric (t : Target) (a b : string) (vs : list string) :
  a <> b ->
  vs <> [] ->
  let ta := mkTarget (Method t) (URL t) (Body t) (Some {[a := []]}) (Name t) in
  let tb := mkTarget (Method t) (URL t) (Body t) (Some {[b := vs]}) (Name t) in
  Equal (Some ta) (Some tb) = true /\ Equal (Some tb) (Some ta) = false.
Proof.
  intros Hab Hvs ta tb. unfold Equal, ta, tb. cbn [Method URL Body Header].
  rewrite !String.eqb_refl. cbn [headerLen default from_option id].
  rewrite !map_size_singleton, !map_to_list_singleton. cbn [forallb fst snd headerGet andb Nat.eqb].
  rewrite !lookup_singleton_ne by congruence. cbn [default from_option].
  split; [reflexivity|].
  destruct vs as [|v vs']; [congruence|]. reflexivity.
Qed.

Lemma Equal_not_symmetric_witness :
  let ta := mkTarget "GET" "http://x" "" (Some {["A" := []]}) "" in
  let tb := mkTarget "GET" "http://x" "" (Some {["B" := ["1"]]}) "" in
  Equal (Some ta) (Some tb) = true /\ Equal (Some tb) (Some ta) = false.
Proof.
  apply (Equal_not_symmetric (mkTarget "GET" "http://x" "" None "") "A" "B" ["1"]);
    discriminate.
Defined.

(** ** Target.Request *)

Section RequestFacts.

Variable R : Type.
Variable NewRequest : string -> string -> string -> error + Request R.

Lemma overwrite_lookup (h0 m : HeaderMap) (k : string) :
  map_fold (fun k vs acc => <[k := vs]> acc) h0 m !! k
  = match m !! k with
    | Some vs => Some vs
    | None => h0 !! k
    end.
Proof.
  revert k.
  apply (map_fold_weak_ind
           (fun r m => forall k, r !! k = match m !! k with
                                         | Some vs => Some vs
                                         | None => h0 !! k
                                         end)).
  - intros k. rewrite lookup_empty. reflexivity.
  - intros j vs m' r Hj IH k. destruct (decide (j = k)) as [->|Hne].
    + rewrite !lookup_insert_eq. reflexivity.
    + rewrite !lookup_insert_ne by assumption. apply IH.
Qed.

End RequestFacts.

(** X3. [Target.Request] fails exactly when [http.NewRequest] does, with
    its error. Otherwise the request's header holds every name of the
    target's header with the target's values, the names are not
    canonicalised, and a name the target does not have is as
    [http.NewRequest] left it; over the empty header that
    [http.NewRequest] returns, the request's header is the target's. *)
Theorem Request_header (R : Type)
    (NewRequest : string -> string -> string -> error + Request R) (t : Target) :
  match NewRequest (Method t) (URL t) (Body t) with
  | inl err => TargetRequest R NewRequest t = inl err
  | inr req0 =>
      exists req, TargetRequest R NewRequest t = inr req
        /\ base req = base req0
        /\ (forall k, rHeader req !! k
                      = match default ∅ (Header t) !! k with
                        | Some vs => Some vs
                        | None => rHeader req0 !! k
                        end)
        /\ (rHeader req0 = ∅ -> rHeader req = default ∅ (Header t))
  end.
Proof.
  unfold TargetRequest. destruct (NewRequest _ _ _) as [err|req0]; [reflexivity|].
  eexists. split; [reflexivity|]. cbn [base rHeader]. split; [reflexivity|].
  split; [apply overwrite_lookup|].
  intros H0. apply map_eq. intros k. rewrite overwrite_lookup, H0.
  destruct (default ∅ (Header t) !! k); [reflexivity|apply lookup_empty].
Qed.

(** X4. The host of the request is the first value under the header name
    ["Host"], spelled exactly so, when the target has one that is not
    empty. A target without that name, whatever other spelling of it it
    has, leaves the host [http.NewRequest] took from the URL. *)
Theorem Request_host (R : Type)
    (NewRequest : string -> string -> string -> error + Request R)
    (t : Target) (req0 req : Request R) :
  NewRequest (Method t) (URL t) (Body t) = inr req0 ->
  TargetRequest R NewRequest t = inr req ->
  (forall v vs, default ∅ (Header t) !! "Host" = Some (v :: vs) -> v <> "" ->
     rHost req = v)
  /\ (default ∅ (Header t) !! "Host" = None -> rHeader req0 !! "Host" = None ->
      rHost req = rHost req0).
Proof.
  unfold TargetRequest. intros -> [= <-]. cbn [rHost]. unfold headerFirst.
  rewrite overwrite_lookup. split.
  - intros v vs Hh Hv. rewrite Hh. cbn [default from_option id].
    destruct (String.eqb_spec v ""); [congruence|reflexivity].
  - intros Hh H0. rewrite Hh, H0. reflexivity.
Qed.

Lemma Request_host_witness :
  let new (m u b : string) : error + Request unit := inr (mkRequest tt ∅ "x:80") in
  let withHost := mkTarget "GET" "http://x:80" "" (Some {["Host" := ["y"; "z"]]}) "" in
  let lower := mkTarget "GET" "http://x:80" "" (Some {["host" := ["y"]]}) "" in
  (exists req, TargetRequest unit new withHost = inr req /\ rHost req = "y")
  /\ (exists req, TargetRequest unit new lower = inr req /\ rHost req = "x:80").
Proof.
  intros new withHost lower. split; eexists; (split; [reflexivity|]).
  - apply (proj1 (Request_host unit new withHost (mkRequest tt ∅ "x:80") _
                    eq_refl eq_refl) "y" ["z"]); [reflexivity|discriminate].
  - apply (proj2 (Request_host unit new lower (mkRequest tt ∅ "x:80") _
                    eq_refl eq_refl)); reflexivity.
Defined.

(** ** The JSON line decoder, further *)

Section JsonMoreFacts.

Variable decode : string -> Target * option error.

Lemma readLine_progress (fuel : nat) :
  forall r data r',
    Json.readLine fuel r = Some (data, None, r') ->
    String.length (unread r') < String.length (unread r).
Proof.
  induction fuel as [|fuel IH]; intros r data r' H; [discriminate H|].
  cbn [Json.readLine] in H. unfold ReadBytes in H.
  destruct (cut "010"%char (unread r)) as [[a b]|] eqn:E; [|discriminate H].
  apply cut_length in E.
  destruct (Nat.eqb _ 0).
  - apply IH in H. cbn [unread] in H. lia.
  - injection H as _ <-. cbn [unread]. lia.
Qed.

Lemma readLine_end (fuel : nat) :
  forall r data e r',
    Json.readLine fuel r = Some (data, Some e, r') ->
    e = default EOF (srcErr r) /\ r' = mkReader "" (srcErr r).
Proof.
  induction fuel as [|fuel IH]; intros r data e r' H; [discriminate H|].
  cbn [Json.readLine] in H. unfold ReadBytes in H.
  destruct (cut "010"%char (unread r)) as [[a b]|] eqn:E.
  - destruct (Nat.eqb _ 0); [|discriminate H]. apply IH in H. exact H.
  - injection H as _ <- <-. split; reflexivity.
Qed.

(** A call that succeeds has read at least one byte. *)
Lemma json_Next_progress (d d' : jsonTargeter) (out : Target) (t' : option Target) :
  Json.Next decode d (Some out) = (Return None, t', d') ->
  String.length (unread (j_reader d')) < String.length (unread (j_reader d)).
Proof.
  unfold Json.Next.
  destruct (Json.readLine _ _) as [[[data [e|]] r']|] eqn:E; try discriminate.
  destruct (decode data) as [t [e|]]; [discriminate|].
  destruct (String.eqb (Method t) ""); [discriminate|].
  destruct (String.eqb (URL t) ""); [discriminate|].
  intros [= _ <-]. cbn [j_reader]. eapply readLine_progress, E.
Qed.

End JsonMoreFacts.

(** X5. After any number of blank lines, a line whose object decodes
    with a method and a URL makes [Next] succeed: the target gets the
    object's method and URL, the object's body when it has one and the
    provider's default body otherwise, the merged header, and keeps its
    name; the stream stands after the line. *)
Theorem json_Next_success (decode : string -> Target * option error)
    (blanks : list string) (l rest : string) (e : option error)
    (body : string) (hdr : option HeaderMap) (out t : Target) :
  Forall blankLine blanks ->
  cut "010"%char l = None ->
  TrimSpace (l +:+ newline) <> "" ->
  decode (TrimSpace (l +:+ newline)) = (t, None) ->
  Method t <> "" ->
  URL t <> "" ->
  Json.Next decode
    (mkJSON body hdr (mkReader (joinLines blanks +:+ l +:+ newline +:+ rest) e))
    (Some out)
  = (Return None, Some (jsonResult body hdr out t), mkJSON body hdr (mkReader rest e)).
Proof.
  intros Hb Hl Ht Hd Hm Hu. unfold Json.Next. cbn [j_reader unread j_body j_header].
  rewrite (readLine_skip_blanks blanks (l +:+ newline +:+ rest) e Hb).
  rewrite (readLine_line l rest e Hl Ht), Hd.
  destruct (String.eqb_spec (Method t) ""); [congruence|].
  destruct (String.eqb_spec (URL t) ""); [congruence|].
  reflexivity.
Qed.

Lemma json_Next_success_witness :
  Json.Next sampleDecode
    (mkJSON "dflt" None (mkReader (" " +:+ newline +:+ lineGet +:+ newline +:+ "rest") None))
    (Some zeroTarget)
  = (Return None,
     Some (mkTarget "GET" "http://x" "dflt" (Some {["A" := ["2"]]}) ""),
     mkJSON "dflt" None (mkReader "rest" None)).
Proof.
  assert (Hb : Forall blankLine [" "]) by (repeat constructor).
  pose proof (json_Next_success sampleDecode [" "] lineGet "rest" None "dflt" None
                zeroTarget targetGet Hb eq_refl ltac:(discriminate) eq_refl
                ltac:(discriminate) ltac:(discriminate)) as H.
  exact H.
Defined.

(** X6. Whatever the stream, the defaults and the lexer, a target that
    [Next] hands out has a method and a URL that are not empty and a
    header that is not nil, and keeps the name it came with; and the call
    has consumed at least one byte of the stream. *)
Theorem json_Next_postcondition (decode : string -> Target * option error)
    (d d' : jsonTargeter) (out t' : Target) :
  Json.Next decode d (Some out) = (Return None, Some t', d') ->
  Method t' <> "" /\ URL t' <> "" /\ Header t' <> None /\ Name t' = Name out
  /\ String.length (unread (j_reader d')) < String.length (unread (j_reader d)).
Proof.
  intros H. pose proof (json_Next_progress decode d d' out (Some t') H) as Hp.
  revert H. unfold Json.Next.
  destruct (Json.readLine _ _) as [[[data [e|]] r']|]; try discriminate.
  destruct (decode data) as [t [e|]]; [discriminate|].
  destruct (String.eqb_spec (Method t) ""); [discriminate|].
  destruct (String.eqb_spec (URL t) ""); [discriminate|].
  intros [= <- _]. cbn [Method URL Header Name]. repeat split; try assumption.
  discriminate.
Qed.

Lemma json_Next_postcondition_witness :
  let t' := mkTarget "GET" "http://x" "" (Some {["A" := ["2"]]}) "" in
  Method t' <> "" /\ URL t' <> "" /\ Header t' <> None /\ Name t' = ""
  /\ 0 < String.length (lineGet +:+ newline).
Proof.
  intros t'.
  apply (json_Next_postcondition sampleDecode
           (mkJSON "" None (mkReader (lineGet +:+ newline) None))
           (mkJSON "" None (mkReader "" None)) zeroTarget t').
  reflexivity.
Defined.

(** X7. Once a call has returned [ErrNoTargets] the decoder stays
    exhausted: every later call returns [ErrNoTargets] again, leaves its
    target alone and does not change the decoder. The lexer is taken not
    to report [ErrNoTargets] as a parse error. *)
Theorem json_exhaustion_is_final (decode : string -> Target * option error)
    (d d' : jsonTargeter) (out out' : Target) (t' : option Target) :
  (forall data t e, decode data = (t, Some e) -> e <> ErrNoTargets) ->
  Json.Next decode d (Some out) = (Return (Some ErrNoTargets), t', d') ->
  Json.Next decode d' (Some out') = (Return (Some ErrNoTargets), Some out', d').
Proof.
  intros Hdec. unfold Json.Next at 1.
  destruct (Json.readLine _ _) as [[[data [e|]] r']|] eqn:E; try discriminate.
  - intros [= He _ <-]. apply readLine_end in E as [-> ->].
    unfold Json.Next. cbn [j_reader unread j_body j_header Json.readLine String.length].
    unfold ReadBytes. cbn [unread srcErr cut].
    destruct (srcErr (j_reader d)) as [se|]; cbn [default from_option id] in *.
    + destruct (decide (se = EOF)) as [->|Hne]; [reflexivity|].
      destruct (decide (se = EOF)); congruence.
    + reflexivity.
  - destruct (decode data) as [t [e|]] eqn:Hd.
    + intros [= -> _ _]. exfalso. apply (Hdec _ _ _ Hd). reflexivity.
    + destruct (String.eqb (Method t) ""); [discriminate|].
      destruct (String.eqb (URL t) ""); discriminate.
Qed.

Lemma json_exhaustion_is_final_witness :
  let d' := mkJSON "" None (mkReader "" None) in
  Json.Next sampleDecode d' (Some targetGet) = (Return (Some ErrNoTargets), Some targetGet, d').
Proof.
  intros d'.
  apply (json_exhaustion_is_final sampleDecode
           (mkJSON "" None (mkReader (" " +:+ newline +:+ "  ") None)) d'
           zeroTarget targetGet (Some zeroTarget)).
  - intros data t e. unfold sampleDecode, sampleTable, tableDecode.
    repeat (destruct (String.eqb _ data); [discriminate|]).
    intros [= _ <-]. discriminate.
  - reflexivity.
Defined.

(** X8. [ReadAllTargets] over a JSON decoder returns: allowed more calls
    than the stream has bytes, it does not run out of them, and it does
    not panic. *)
Theorem ReadAllTargets_json_returns (decode : string -> Target * option error)
    (d : jsonTargeter) (fuel : nat) :
  String.length (unread (j_reader d)) < fuel ->
  exists ts err d',
    ReadAllTargets (Json.targeter decode) fuel d = (ts, Return err, d').
Proof.
  unfold ReadAllTargets. generalize (@nil Target) as acc. revert d.
  induction fuel as [|fuel IH]; intros d acc Hlen; [lia|].
  cbn [readAllLoop]. cbn [Next Json.targeter].
  pose proof (json_Next_total decode d (Some zeroTarget)) as Htot.
  destruct (Json.Next decode d (Some zeroTarget)) as [[r out] d1] eqn:E.
  destruct r as [[e|]|m|].
  - destruct e; try (eexists _, _, _; reflexivity).
    destruct (Nat.eqb (length acc) 0); eexists _, _, _; reflexivity.
  - apply IH. apply json_Next_progress in E. lia.
  - exfalso. revert E. unfold Json.Next.
    destruct (Json.readLine _ _) as [[[data [e|]] r']|]; try discriminate.
    destruct (decode data) as [t [e|]]; [discriminate|].
    destruct (String.eqb (Method t) ""); [discriminate|].
    destruct (String.eqb (URL t) ""); discriminate.
  - exfalso. apply Htot. reflexivity.
Qed.

Lemma ReadAllTargets_json_returns_witness :
  exists ts err d',
    ReadAllTargets (Json.targeter sampleDecode) 200
      (mkJSON "" None (mkReader (lineGet +:+ newline +:+ lineGet +:+ newline) None))
    = (ts, Return err, d').
Proof.
  apply (ReadAllTargets_json_returns sampleDecode). cbv. lia.
Defined.

(** ** The HTTP-text decoder, line by line *)

Section HttpLines.

Variable ParseRequestURI : string -> option error.
Variable ReadFile : string -> string * option error.

Local Abbreviation seekLine := (Http.seekLine).
Local Abbreviation readSection := (Http.readSection ReadFile).
Local Abbreviation Next := (Http.Next ParseRequestURI ReadFile).

(** [Scan] and [Text] hand out the first of the lines ahead and leave the
    others, with nothing peeked. *)
Lemma scan_text_cons (sc : peekingScanner) (l : string) (rest : list string) :
  Peeking.ahead sc = l :: rest ->
  exists sc1 sc2,
    Peeking.Scan sc = (true, sc1) /\ Peeking.Text sc1 = (l, sc2)
    /\ Peeking.ahead sc2 = rest /\ peeked sc2 = ""
    /\ readErr (src sc2) = readErr (src sc) /\ scanErr (src sc2) = scanErr (src sc).
Proof.
  destruct sc as [[p tok e se] pk]. unfold Peeking.ahead, Peeking.Scan, Peeking.Text.
  cbn [peeked src pending]. destruct (String.eqb pk "") eqn:E.
  - apply String.eqb_eq in E. subst pk. cbn [app]. intros ->.
    unfold Src.Scan, Src.Text. cbn [pending readErr scanErr peeked src token String.eqb].
    eexists _, _. repeat split.
  - cbn [app]. intros [= -> ->].
    exists (mkPeeking (mkScanner rest tok e se) l), (mkPeeking (mkScanner rest tok e se) "").
    cbn [peeked src]. rewrite E. cbn [String.eqb pending readErr scanErr app].
    repeat split.
Qed.

Lemma scan_nil (sc : peekingScanner) :
  Peeking.ahead sc = [] ->
  Peeking.Scan sc = (false, exhausted (readErr (src sc))).
Proof.
  destruct sc as [[p tok e se] pk]. unfold Peeking.ahead, Peeking.Scan.
  cbn [peeked src pending]. destruct (String.eqb pk "") eqn:E; [|discriminate].
  apply String.eqb_eq in E. subst pk. cbn [app]. intros ->. reflexivity.
Qed.

(** [Peek], with nothing peeked yet, returns the first line ahead and
    keeps it ahead, unless it is the empty line, which it drops. *)
Lemma peek_cons (sc : peekingScanner) (l : string) (rest : list string) :
  peeked sc = "" ->
  Peeking.ahead sc = l :: rest ->
  exists sc',
    Peeking.Peek sc = (l, sc')
    /\ Peeking.ahead sc' = (if String.eqb l "" then rest else l :: rest)
    /\ readErr (src sc') = readErr (src sc) /\ scanErr (src sc') = scanErr (src sc).
Proof.
  destruct sc as [[p tok e se] pk]. unfold Peeking.ahead, Peeking.Peek.
  cbn [peeked src pending]. intros ->. cbn [String.eqb app]. intros ->.
  unfold Src.Scan, Src.Text. cbn [pending readErr scanErr peeked src token].
  eexists. split; [reflexivity|]. cbn [peeked src pending readErr scanErr].
  destruct l; repeat split.
Qed.

Lemma peek_nil (sc : peekingScanner) :
  peeked sc = "" ->
  Peeking.ahead sc = [] ->
  Peeking.Peek sc = ("", exhausted (readErr (src sc))).
Proof.
  destruct sc as [[p tok e se] pk]. unfold Peeking.ahead, Peeking.Peek.
  cbn [peeked src pending]. intros ->. cbn [String.eqb app]. intros ->. reflexivity.
Qed.

(** The first loop passes over lines that open no block and stops at the
    first that does. *)
Lemma seekLine_finds (skipped : list string) :
  forall (sc : peekingScanner) (raw : string) (rest : list string) (fuel : nat),
    Peeking.ahead sc = (skipped ++ raw :: rest)%list ->
    Forall (fun l => opensBlock (TrimSpace l) = false) skipped ->
    opensBlock (TrimSpace raw) = true ->
    length skipped < fuel ->
    exists sc',
      seekLine fuel sc = Some (Some (TrimSpace raw), sc')
      /\ Peeking.ahead sc' = rest /\ peeked sc' = ""
      /\ readErr (src sc') = readErr (src sc) /\ scanErr (src sc') = scanErr (src sc).
Proof.
  induction skipped as [|c skipped IH]; intros sc raw rest fuel Ha Hsk Hraw Hf.
  - destruct fuel as [|fuel]; [simpl in Hf; lia|]. cbn [app] in Ha.
    destruct (scan_text_cons sc raw rest Ha) as (sc1 & sc2 & Hs & Ht & H2 & Hp & He1 & He2).
    cbn [Http.seekLine]. rewrite Hs, Ht, Hraw. exists sc2. repeat split; assumption.
  - destruct fuel as [|fuel]; [simpl in Hf; lia|]. cbn [app] in Ha.
    destruct (scan_text_cons sc c _ Ha) as (sc1 & sc2 & Hs & Ht & H2 & Hp & He1 & He2).
    pose proof (List.Forall_inv Hsk) as Hc. pose proof (List.Forall_inv_tail Hsk) as Hsk'.
    cbn beta in Hc.
    cbn [Http.seekLine]. rewrite Hs, Ht, Hc.
    destruct (IH sc2 raw rest fuel H2 Hsk' Hraw ltac:(simpl in Hf; lia))
      as (sc' & Hseek & Ha' & Hp' & He1' & He2').
    exists sc'. repeat split; try assumption; congruence.
Qed.

Lemma seekLine_none (skipped : list string) :
  forall (sc : peekingScanner) (fuel : nat),
    Peeking.ahead sc = skipped ->
    Forall (fun l => opensBlock (TrimSpace l) = false) skipped ->
    length skipped < fuel ->
    seekLine fuel sc = Some (None, exhausted (readErr (src sc))).
Proof.
  induction skipped as [|c skipped IH]; intros sc fuel Ha Hsk Hf.
  - destruct fuel as [|fuel]; [simpl in Hf; lia|].
    cbn [Http.seekLine]. rewrite (scan_nil sc Ha). reflexivity.
  - destruct fuel as [|fuel]; [simpl in Hf; lia|].
    destruct (scan_text_cons sc c _ Ha) as (sc1 & sc2 & Hs & Ht & H2 & Hp & He1 & He2).
    pose proof (List.Forall_inv Hsk) as Hc. pose proof (List.Forall_inv_tail Hsk) as Hsk'.
    cbn beta in Hc.
    cbn [Http.seekLine]. rewrite Hs, Ht, Hc.
    rewrite (IH sc2 fuel H2 Hsk' ltac:(simpl in Hf; lia)), He1. reflexivity.
Qed.

(** The second loop adds the header lines it meets, in their order. *)
Lemma readSection_headers (ls : list string) :
  forall (kvs : list (string * string)) (sc : peekingScanner) (rest : list string)
         (t : Target) (fuel : nat),
    Forall2 (fun l kv => headerLine l = Some kv) ls kvs ->
    Peeking.ahead sc = (ls ++ rest)%list ->
    exists sc',
      readSection (length ls + fuel) sc t = readSection fuel sc' (addHeaders t kvs)
      /\ Peeking.ahead sc' = rest
      /\ readErr (src sc') = readErr (src sc) /\ scanErr (src sc') = scanErr (src sc).
Proof.
  induction ls as [|l ls IH]; intros kvs sc rest t fuel H2 Ha.
  - inversion H2; subst. exists sc. repeat split. exact Ha.
  - inversion H2 as [|? [k v] ? kvs' Hl H2']; subst. cbn [app] in Ha.
    destruct (scan_text_cons sc l _ Ha) as (sc1 & sc2 & Hs & Ht & Ha2 & Hp & He1 & He2).
    cbn [length Nat.add Http.readSection]. rewrite Hs, Ht.
    unfold headerLine in Hl.
    destruct (String.eqb (TrimSpace l) ""); [discriminate Hl|].
    destruct (HasPrefix (TrimSpace l) "@"); [discriminate Hl|].
    destruct (cut ":"%char (TrimSpace l)) as [[k' v']|]; [|discriminate Hl].
    destruct (String.eqb (TrimSpace k') ""); [discriminate Hl|].
    destruct (String.eqb (TrimSpace v') ""); [discriminate Hl|].
    injection Hl as <- <-.
    destruct (IH kvs' sc2 rest (Http.addHeader t (TrimSpace k') (TrimSpace v')) fuel H2' Ha2)
      as (sc' & Hr & Ha' & He1' & He2').
    exists sc'. repeat split; try assumption; congruence.
Qed.

End HttpLines.

Section HttpBlocks.

Variable ParseRequestURI : string -> option error.
Variable ReadFile : string -> string * option error.

Local Abbreviation readSection := (Http.readSection ReadFile).
Local Abbreviation Next := (Http.Next ParseRequestURI ReadFile).

Lemma methodLine_Some (raw m u : string) :
  methodLine ParseRequestURI raw = Some (m, u) ->
  opensBlock (TrimSpace raw) = true
  /\ cut " "%char (TrimSpace raw) = Some (m, u)
  /\ startsWithHTTPMethod (TrimSpace raw) = true
  /\ ParseRequestURI u = None.
Proof.
  unfold methodLine. destruct (opensBlock (TrimSpace raw)); [|discriminate].
  destruct (cut " "%char (TrimSpace raw)) as [[m' u']|]; [|discriminate].
  destruct (startsWithHTTPMethod (TrimSpace raw)); [|discriminate].
  destruct (ParseRequestURI u') eqn:E; [discriminate|].
  intros [= <- <-]. repeat split. exact E.
Qed.

Lemma Next_accepts_line (h : httpTargeter) (out : Target)
    (skipped : list string) (raw : string) (rest : list string) (m u : string) :
  Peeking.ahead (h_sc h) = (skipped ++ raw :: rest)%list ->
  Forall (fun l => opensBlock (TrimSpace l) = false) skipped ->
  methodLine ParseRequestURI raw = Some (m, u) ->
  exists sc1,
    Peeking.ahead sc1 = rest /\ peeked sc1 = ""
    /\ readErr (src sc1) = readErr (src (h_sc h))
    /\ scanErr (src sc1) = scanErr (src (h_sc h))
    /\ Next h (Some out) = afterLine ReadFile h (httpBase (h_body h) (h_hdr h) out m u) sc1.
Proof.
  intros Ha Hsk Hm. apply methodLine_Some in Hm as (Ho & Hc & Hs & Hp).
  destruct (seekLine_finds skipped (h_sc h) raw rest (Http.rounds (h_sc h)) Ha Hsk Ho)
    as (sc1 & Hseek & Ha1 & Hp1 & He1 & He2).
  { unfold Http.rounds. rewrite Ha, length_app. simpl. lia. }
  exists sc1. repeat split; try assumption.
  unfold Http.Next. rewrite Hseek, Hc, Hs. cbn [negb]. rewrite Hp.
  rewrite copyHeader_eq. reflexivity.
Qed.

(** The header/body loop, entered on lines that start with header lines. *)
Lemma Next_enters_section (h : httpTargeter) (out : Target)
    (skipped : list string) (raw : string) (ls ending : list string)
    (kvs : list (string * string)) (m u : string) (l1 : string) (after : list string) :
  Peeking.ahead (h_sc h) = (skipped ++ raw :: ls ++ ending)%list ->
  Forall (fun l => opensBlock (TrimSpace l) = false) skipped ->
  methodLine ParseRequestURI raw = Some (m, u) ->
  Forall2 (fun l kv => headerLine l = Some kv) ls kvs ->
  (ls ++ ending)%list = l1 :: after ->
  closesBlock l1 = false ->
  exists sc' ex t4 sc3,
    Peeking.ahead sc' = ending
    /\ readErr (src sc') = readErr (src (h_sc h))
    /\ scanErr (src sc') = scanErr (src (h_sc h))
    /\ readSection (S (length ending)) sc'
         (addHeaders (httpBase (h_body h) (h_hdr h) out m u) kvs)
       = Some (ex, t4, sc3)
    /\ Next h (Some out)
       = (match ex with
          | Fail e => Return (Some e)
          | Done => match Peeking.Err sc3 with
                    | Some _ => Return (Some ErrNoTargets)
                    | None => Return None
                    end
          end, Some t4, mkHTTP (h_body h) (h_hdr h) sc3).
Proof.
  intros Ha Hsk Hm H2 Hl1 Hcl.
  destruct (Next_accepts_line h out skipped raw (ls ++ ending) m u Ha Hsk Hm)
    as (sc1 & Ha1 & Hp1 & He1 & He2 & Hn).
  rewrite Hl1 in Ha1.
  destruct (peek_cons sc1 l1 after Hp1 Ha1) as (sc2 & Hpeek & Ha2 & He1' & He2').
  assert (Hne : String.eqb l1 "" = false).
  { destruct l1; [|reflexivity]. discriminate Hcl. }
  rewrite Hne, <- Hl1 in Ha2.
  destruct (readSection_headers ReadFile ls kvs sc2 ending
              (httpBase (h_body h) (h_hdr h) out m u) (S (length ending)) H2 Ha2)
    as (sc' & Hr & Ha' & He1'' & He2'').
  pose proof (readSection_total ReadFile (S (length ending)) sc'
                (addHeaders (httpBase (h_body h) (h_hdr h) out m u) kvs)) as Htot.
  destruct (readSection (S (length ending)) sc' _) as [[[ex t4] sc3]|] eqn:E.
  2:{ exfalso. apply Htot; [rewrite Ha'; lia|reflexivity]. }
  exists sc', ex, t4, sc3. repeat split; try congruence.
  rewrite Hn. unfold afterLine. rewrite Hpeek. unfold closesBlock in Hcl. rewrite Hcl.
  unfold Http.rounds. rewrite Ha2, length_app.
  replace (S (length ls + length ending)) with (length ls + S (length ending)) by lia.
  rewrite Hr. destruct ex; [|reflexivity]. destruct (Peeking.Err sc3); reflexivity.
Qed.

End HttpBlocks.

Section HttpRejectedLine.

Variable ParseRequestURI : string -> option error.
Variable ReadFile : string -> string * option error.

Local Abbreviation Next := (Http.Next ParseRequestURI ReadFile).

(** What [Next] does with the first line ahead that opens a block,
    [raw], when it rejects that line, whether the line is still in the
    source or was peeked at by the call before. The lines after it stay
    ahead. *)
Lemma Next_rejects_line (h : httpTargeter) (out : Target)
    (skipped : list string) (raw : string) (rest : list string) :
  Peeking.ahead (h_sc h) = (skipped ++ raw :: rest)%list ->
  Forall (fun l => opensBlock (TrimSpace l) = false) skipped ->
  opensBlock (TrimSpace raw) = true ->
  let line := TrimSpace raw in
  let t1 := mkTarget (Method out) (URL out) (h_body h)
              (Some (default ∅ (h_hdr h))) (Name out) in
  exists sc1,
    Peeking.ahead sc1 = rest
    /\ (cut " "%char line = None ->
        Next h (Some out)
        = (Return (Some (Errorf ("bad target: " +:+ line))), Some t1,
           mkHTTP (h_body h) (h_hdr h) sc1))
    /\ (forall tok0 tok1,
         cut " "%char line = Some (tok0, tok1) ->
         startsWithHTTPMethod line = false ->
         Next h (Some out)
         = (Return (Some (Errorf ("bad method: " +:+ tok0))), Some t1,
            mkHTTP (h_body h) (h_hdr h) sc1))
    /\ (forall tok0 tok1 err,
         cut " "%char line = Some (tok0, tok1) ->
         startsWithHTTPMethod line = true ->
         ParseRequestURI tok1 = Some err ->
         Next h (Some out)
         = (Return (Some (Errorf ("bad URL: " +:+ tok1))),
            Some (Http.setMethod t1 tok0), mkHTTP (h_body h) (h_hdr h) sc1)).
Proof.
  intros Ha Hsk Hraw line t1.
  destruct (seekLine_finds skipped (h_sc h) raw rest (Http.rounds (h_sc h)) Ha Hsk Hraw)
    as (sc1 & Hseek & Ha1 & _).
  { unfold Http.rounds. rewrite Ha, length_app. simpl. lia. }
  exists sc1. split; [exact Ha1|].
  unfold Http.Next. rewrite Hseek, copyHeader_eq. fold line. fold t1.
  split; [|split].
  - intros Hc. rewrite Hc. reflexivity.
  - intros tok0 tok1 Hc Hm. rewrite Hc, Hm. reflexivity.
  - intros tok0 tok1 err Hc Hm Hp. rewrite Hc, Hm, Hp. reflexivity.
Qed.

End HttpRejectedLine.

(** C4, amended. Let [raw] be the first of the lines ahead that is
    neither blank nor a comment, in whatever state the calls before have
    left the decoder, and [line] its trimmed text. If [line] holds no
    space byte, which is the case whenever it has fewer than two
    whitespace-separated fields, [Next] fails with "bad target"; if it
    holds one but does not match [^[A-Z]+\s], where [\s] is a tab, a
    newline, a form feed, a carriage return or a space, with "bad
    method" and the text before the first space; if it matches but the
    text after the first space is not a request URI, with "bad URL". The
    lines ["GET"] and ["BadMethod https://x/y"] give the target and the
    method error. *)
Theorem first_line_format_errors
    (ParseRequestURI : string -> option error)
    (ReadFile : string -> string * option error)
    (h : httpTargeter) (skipped : list string) (raw : string) (rest : list string)
    (body : string) (hdr : option HeaderMap) (out : Target) :
  Peeking.ahead (h_sc h) = (skipped ++ raw :: rest)%list ->
  Forall (fun l => opensBlock (TrimSpace l) = false) skipped ->
  opensBlock (TrimSpace raw) = true ->
  let Next := Http.Next ParseRequestURI ReadFile in
  let line := TrimSpace raw in
  (length (Fields line) < 2 -> cut " "%char line = None)
  /\ (cut " "%char line = None ->
      (Next h (Some out)).1.1 = Return (Some (Errorf ("bad target: " +:+ line))))
  /\ (forall tok0 tok1,
       cut " "%char line = Some (tok0, tok1) ->
       startsWithHTTPMethod line = false ->
       (Next h (Some out)).1.1 = Return (Some (Errorf ("bad method: " +:+ tok0))))
  /\ (forall tok0 tok1 err,
       cut " "%char line = Some (tok0, tok1) ->
       startsWithHTTPMethod line = true ->
       ParseRequestURI tok1 = Some err ->
       (Next h (Some out)).1.1 = Return (Some (Errorf ("bad URL: " +:+ tok1))))
  /\ (Next (NewHTTPTargeter ["GET"] None body hdr) (Some out)).1.1
     = Return (Some (Errorf "bad target: GET"))
  /\ (Next (NewHTTPTargeter ["BadMethod https://x/y"] None body hdr) (Some out)).1.1
     = Return (Some (Errorf "bad method: BadMethod")).
Proof.
  intros Ha Hsk Hraw Next line.
  destruct (Next_rejects_line ParseRequestURI ReadFile h out skipped raw rest Ha Hsk Hraw)
    as (sc1 & _ & H1 & H2 & H3).
  split; [apply one_field_no_space|].
  split; [intros Hc; unfold Next; rewrite (H1 Hc); reflexivity|].
  split; [intros t0 t1 Hc Hm; unfold Next; rewrite (H2 t0 t1 Hc Hm); reflexivity|].
  split; [intros t0 t1 err Hc Hm Hp; unfold Next;
          rewrite (H3 t0 t1 err Hc Hm Hp); reflexivity|].
  split.
  - destruct (Next_rejects_line ParseRequestURI ReadFile
                (NewHTTPTargeter ["GET"] None body hdr) out [] "GET" []
                eq_refl (List.Forall_nil _) eq_refl) as (sc & _ & G & _ & _).
    unfold Next. rewrite (G eq_refl). reflexivity.
  - destruct (Next_rejects_line ParseRequestURI ReadFile
                (NewHTTPTargeter ["BadMethod https://x/y"] None body hdr) out
                [] "BadMethod https://x/y" [] eq_refl (List.Forall_nil _) eq_refl)
      as (sc & _ & _ & G & _).
    unfold Next. rewrite (G "BadMethod" "https://x/y" eq_refl eq_refl). reflexivity.
Qed.

Lemma first_line_format_errors_witness :
  let Next := Http.Next sampleParseRequestURI sampleReadFile in
  let h raw := NewHTTPTargeter ["# two targets"; ""; raw; "X: 1"] None "" None in
  let peekedAt raw :=
    (Next (NewHTTPTargeter ["GET http://a"; raw] None "" None) (Some zeroTarget)).2 in
  (Next (h "  PUT  ") (Some zeroTarget)).1.1 = Return (Some (Errorf "bad target: PUT"))
  /\ (Next (h "put http://x/y") (Some zeroTarget)).1.1
     = Return (Some (Errorf "bad method: put"))
  /\ (Next (h "PUT x/y") (Some zeroTarget)).1.1 = Return (Some (Errorf "bad URL: x/y"))
  /\ peeked (h_sc (peekedAt "PUT x/y")) = "PUT x/y"
  /\ (Next (peekedAt "PUT x/y") (Some zeroTarget)).1.1
     = Return (Some (Errorf "bad URL: x/y"))
  /\ (Next (h ("GET" +:+ String "011"%char "x notaurl")) (Some zeroTarget)).1.1
     = Return (Some (Errorf ("bad method: GET" +:+ String "011"%char "x"))).
Proof.
  intros Next h peekedAt.
  assert (Hsk : Forall (fun l => opensBlock (TrimSpace l) = false) ["# two targets"; ""])
    by (repeat constructor).
  split; [|split; [|split; [|split; [|split]]]].
  - apply (proj1 (proj2 (first_line_format_errors sampleParseRequestURI sampleReadFile
             (h "  PUT  ") ["# two targets"; ""] "  PUT  " ["X: 1"] "" None zeroTarget
             eq_refl Hsk eq_refl))).
    reflexivity.
  - apply (proj1 (proj2 (proj2 (first_line_format_errors sampleParseRequestURI sampleReadFile
             (h "put http://x/y") ["# two targets"; ""] "put http://x/y" ["X: 1"]
             "" None zeroTarget eq_refl Hsk eq_refl))) "put" "http://x/y"); reflexivity.
  - apply (proj1 (proj2 (proj2 (proj2 (first_line_format_errors
             sampleParseRequestURI sampleReadFile
             (h "PUT x/y") ["# two targets"; ""] "PUT x/y" ["X: 1"] "" None zeroTarget
             eq_refl Hsk eq_refl)))) "PUT" "x/y" (ExtError "invalid URI for request"));
      reflexivity.
  - reflexivity.
  - apply (proj1 (proj2 (proj2 (proj2 (first_line_format_errors
             sampleParseRequestURI sampleReadFile
             (peekedAt "PUT x/y") [] "PUT x/y" [] "" None zeroTarget
             eq_refl (List.Forall_nil _) eq_refl)))) "PUT" "x/y"
             (ExtError "invalid URI for request"));
      reflexivity.
  - apply (proj1 (proj2 (proj2 (first_line_format_errors sampleParseRequestURI sampleReadFile
             (h ("GET" +:+ String "011"%char "x notaurl")) ["# two targets"; ""]
             ("GET" +:+ String "011"%char "x notaurl") ["X: 1"]
             "" None zeroTarget eq_refl Hsk eq_refl)))
             ("GET" +:+ String "011"%char "x") "notaurl"); reflexivity.
Defined.

Section HttpSectionEnds.

Variable ReadFile : string -> string * option error.

Local Abbreviation readSection := (Http.readSection ReadFile).

Lemma readSection_blank (sc : peekingScanner) (b : string) (rest : list string)
    (t : Target) (fuel : nat) :
  Peeking.ahead sc = b :: rest ->
  TrimSpace b = "" ->
  exists sc2,
    readSection (S fuel) sc t = Some (Done, t, sc2)
    /\ Peeking.ahead sc2 = rest
    /\ readErr (src sc2) = readErr (src sc) /\ scanErr (src sc2) = scanErr (src sc).
Proof.
  intros Ha Hb.
  destruct (scan_text_cons sc b rest Ha) as (sc1 & sc2 & Hs & Ht & Ha2 & _ & He1 & He2).
  exists sc2. cbn [Http.readSection]. rewrite Hs, Ht, Hb. repeat split; assumption.
Qed.

Lemma readSection_end (sc : peekingScanner) (t : Target) (fuel : nat) :
  Peeking.ahead sc = [] ->
  readSection (S fuel) sc t = Some (Done, t, exhausted (readErr (src sc))).
Proof. intros Ha. cbn [Http.readSection]. rewrite (scan_nil sc Ha). reflexivity. Qed.

Lemma readSection_at (sc : peekingScanner) (l path : string) (rest : list string)
    (t : Target) (fuel : nat) :
  Peeking.ahead sc = l :: rest ->
  TrimSpace l = String "@"%char path ->
  exists sc2,
    readSection (S fuel) sc t
    = Some (match (ReadFile path).2 with
            | Some e => Fail (Errorf ("bad body: " +:+ error_message e))
            | None => Done
            end, Http.setBody t (ReadFile path).1, sc2)
    /\ Peeking.ahead sc2 = rest
    /\ readErr (src sc2) = readErr (src sc) /\ scanErr (src sc2) = scanErr (src sc).
Proof.
  intros Ha Hl.
  destruct (scan_text_cons sc l rest Ha) as (sc1 & sc2 & Hs & Ht & Ha2 & _ & He1 & He2).
  exists sc2. cbn [Http.readSection]. rewrite Hs, Ht, Hl.
  cbn [String.eqb HasPrefix String.prefix]. unfold HasPrefix.
  cbn [String.prefix String.length Nat.sub String.substring].
  destruct (Ascii.ascii_dec "@" "@") as [_|Hne]; [|congruence].
  rewrite Nat.sub_0_r, substring_all.
  replace (String.prefix "" path) with true by (destruct path; reflexivity).
  destruct (ReadFile path) as [data [e|]]; repeat split; assumption.
Qed.

Lemma readSection_bad (sc : peekingScanner) (l : string) (rest : list string)
    (t : Target) (fuel : nat) :
  Peeking.ahead sc = l :: rest ->
  TrimSpace l <> "" ->
  HasPrefix (TrimSpace l) "@" = false ->
  headerLine l = None ->
  exists sc2,
    readSection (S fuel) sc t
    = Some (Fail (Errorf ("bad header: " +:+ TrimSpace l)), t, sc2)
    /\ Peeking.ahead sc2 = rest
    /\ readErr (src sc2) = readErr (src sc) /\ scanErr (src sc2) = scanErr (src sc).
Proof.
  intros Ha Hne Hat Hh.
  destruct (scan_text_cons sc l rest Ha) as (sc1 & sc2 & Hs & Ht & Ha2 & _ & He1 & He2).
  exists sc2. cbn [Http.readSection]. rewrite Hs, Ht. unfold headerLine in Hh.
  destruct (String.eqb_spec (TrimSpace l) ""); [congruence|]. rewrite Hat in *.
  destruct (cut ":"%char (TrimSpace l)) as [[k v]|]; [|repeat split; assumption].
  destruct (String.eqb (TrimSpace k) ""); [repeat split; assumption|].
  destruct (String.eqb (TrimSpace v) ""); [repeat split; assumption|discriminate Hh].
Qed.

End HttpSectionEnds.

(** X9. When the lines ahead are all blank or comments, among them when
    there is none, [Next] returns [ErrNoTargets], leaves the target as it
    was and the scanner at the end of its input. *)
Theorem http_Next_exhausted
    (ParseRequestURI : string -> option error)
    (ReadFile : string -> string * option error)
    (h : httpTargeter) (out : Target) :
  Forall (fun l => opensBlock (TrimSpace l) = false) (Peeking.ahead (h_sc h)) ->
  Http.Next ParseRequestURI ReadFile h (Some out)
  = (Return (Some ErrNoTargets), Some out,
     mkHTTP (h_body h) (h_hdr h) (exhausted (readErr (src (h_sc h))))).
Proof.
  intros Hsk. unfold Http.Next.
  rewrite (seekLine_none (Peeking.ahead (h_sc h)) (h_sc h) (Http.rounds (h_sc h))
             eq_refl Hsk); [reflexivity|].
  unfold Http.rounds. lia.
Qed.

Lemma http_Next_exhausted_witness :
  Http.Next sampleParseRequestURI sampleReadFile
    (NewHTTPTargeter ["# only a comment"; "   "; ""] None "b" None) (Some targetGet)
  = (Return (Some ErrNoTargets), Some targetGet, mkHTTP "b" None (exhausted None)).
Proof.
  apply (http_Next_exhausted sampleParseRequestURI sampleReadFile
           (NewHTTPTargeter ["# only a comment"; "   "; ""] None "b" None) targetGet).
  repeat constructor.
Defined.

(** X10. A method/URL line followed by the end of the input, by a blank
    line or by a line that starts like a method is a whole block: [Next]
    succeeds with that method and URL, the provider's default body and
    header and the target's old name, without consulting the scanner's
    error. The line peeked at stays ahead for the next call, except that
    an empty line is dropped. *)
Theorem http_Next_plain_block
    (ParseRequestURI : string -> option error)
    (ReadFile : string -> string * option error)
    (h : httpTargeter) (out : Target)
    (skipped : list string) (raw : string) (rest : list string) (m u : string) :
  Peeking.ahead (h_sc h) = (skipped ++ raw :: rest)%list ->
  Forall (fun l => opensBlock (TrimSpace l) = false) skipped ->
  methodLine ParseRequestURI raw = Some (m, u) ->
  match rest with
  | [] => True
  | l :: _ => closesBlock l = true
  end ->
  exists sc',
    Http.Next ParseRequestURI ReadFile h (Some out)
    = (Return None, Some (httpBase (h_body h) (h_hdr h) out m u),
       mkHTTP (h_body h) (h_hdr h) sc')
    /\ Peeking.ahead sc'
       = match rest with
         | [] => []
         | l :: rest' => if String.eqb l "" then rest' else rest
         end.
Proof.
  intros Ha Hsk Hm Hrest.
  destruct (Next_accepts_line ParseRequestURI ReadFile h out skipped raw rest m u Ha Hsk Hm)
    as (sc1 & Ha1 & Hp1 & He1 & He2 & Hn).
  rewrite Hn. unfold afterLine. destruct rest as [|l rest'].
  - rewrite (peek_nil sc1 Hp1 Ha1). exists (exhausted (readErr (src sc1))).
    split; reflexivity.
  - destruct (peek_cons sc1 l rest' Hp1 Ha1) as (sc2 & Hpeek & Ha2 & He1' & He2').
    rewrite Hpeek. unfold closesBlock in Hrest. rewrite Hrest.
    exists sc2. split; [reflexivity|exact Ha2].
Qed.

Lemma http_Next_plain_block_witness :
  exists sc',
    Http.Next sampleParseRequestURI sampleReadFile
      (NewHTTPTargeter ["# first"; "GET http://a"; ""; "PUT http://b"] None "b" None)
      (Some zeroTarget)
    = (Return None, Some (mkTarget "GET" "http://a" "b" (Some ∅) ""), mkHTTP "b" None sc')
    /\ Peeking.ahead sc' = ["PUT http://b"].
Proof.
  apply (http_Next_plain_block sampleParseRequestURI sampleReadFile
           (NewHTTPTargeter ["# first"; "GET http://a"; ""; "PUT http://b"] None "b" None)
           zeroTarget ["# first"] "GET http://a" [""; "PUT http://b"] "GET" "http://a");
    [reflexivity | repeat constructor | reflexivity | reflexivity].
Defined.

(** X11. Over a source that ends without a read error, header lines
    after the method/URL line, closed by a blank line or by the end of
    the input, are added to the target's header in their order, after
    the provider's default values of the same name and with the name as
    it is written; the closing blank line is consumed. (With a read
    error on record the call would end in [ErrNoTargets], as [Next]
    consults [Err] once the section is read.) *)
Theorem http_Next_header_section
    (ParseRequestURI : string -> option error)
    (ReadFile : string -> string * option error)
    (h : httpTargeter) (out : Target)
    (skipped : list string) (raw : string) (l1 : string) (ls : list string)
    (ending : list string) (kv1 : string * string) (kvs : list (string * string))
    (m u : string) :
  Peeking.ahead (h_sc h) = (skipped ++ raw :: (l1 :: ls) ++ ending)%list ->
  Forall (fun l => opensBlock (TrimSpace l) = false) skipped ->
  methodLine ParseRequestURI raw = Some (m, u) ->
  closesBlock l1 = false ->
  Forall2 (fun l kv => headerLine l = Some kv) (l1 :: ls) (kv1 :: kvs) ->
  readErr (src (h_sc h)) = None ->
  scanErr (src (h_sc h)) = None ->
  match ending with
  | [] => True
  | b :: _ => TrimSpace b = ""
  end ->
  exists sc',
    Http.Next ParseRequestURI ReadFile h (Some out)
    = (Return None,
       Some (addHeaders (httpBase (h_body h) (h_hdr h) out m u) (kv1 :: kvs)),
       mkHTTP (h_body h) (h_hdr h) sc')
    /\ Peeking.ahead sc' = tl ending
    /\ readErr (src sc') = readErr (src (h_sc h))
    /\ scanErr (src sc') = None.
Proof.
  intros Ha Hsk Hm Hcl H2 Hre Hse Hend.
  destruct (Next_enters_section ParseRequestURI ReadFile h out skipped raw (l1 :: ls)
              ending (kv1 :: kvs) m u l1 (ls ++ ending) Ha Hsk Hm H2 eq_refl Hcl)
    as (sc' & ex & t4 & sc3 & Ha' & He1 & He2 & Hr & Hn).
  rewrite Hn. destruct ending as [|b rest'].
  - rewrite (readSection_end ReadFile sc'
               (addHeaders (httpBase (h_body h) (h_hdr h) out m u) (kv1 :: kvs))
               (length (@nil string)) Ha') in Hr.
    injection Hr as <- <- <-.
    exists (exhausted (readErr (src sc'))). unfold Peeking.Err, Src.Err, exhausted.
    cbn [src scanErr readErr]. rewrite He1, Hre. repeat split.
  - destruct (readSection_blank ReadFile sc' b rest'
                (addHeaders (httpBase (h_body h) (h_hdr h) out m u) (kv1 :: kvs))
                (length (b :: rest')) Ha' Hend)
      as (sc2 & Hr' & Ha2 & He1' & He2').
    rewrite Hr' in Hr. injection Hr as <- <- <-.
    exists sc2. unfold Peeking.Err, Src.Err. rewrite He2', He2, Hse.
    repeat split; [exact Ha2|congruence].
Qed.

Lemma http_Next_header_section_witness :
  exists sc',
    Http.Next sampleParseRequestURI sampleReadFile
      (NewHTTPTargeter ["GET http://a"; "x-Id: 1"; "X-Id :  2 "; " "; "PUT http://b"]
         None "" (Some {["x-Id" := ["0"]]}))
      (Some zeroTarget)
    = (Return None,
       Some (mkTarget "GET" "http://a" ""
               (Some {["x-Id" := ["0"; "1"]; "X-Id" := ["2"]]}) ""),
       mkHTTP "" (Some {["x-Id" := ["0"]]}) sc')
    /\ Peeking.ahead sc' = ["PUT http://b"]
    /\ readErr (src sc') = None
    /\ scanErr (src sc') = None.
Proof.
  destruct (http_Next_header_section sampleParseRequestURI sampleReadFile
              (NewHTTPTargeter ["GET http://a"; "x-Id: 1"; "X-Id :  2 "; " "; "PUT http://b"]
                 None "" (Some {["x-Id" := ["0"]]}))
              zeroTarget [] "GET http://a" "x-Id: 1" ["X-Id :  2 "] [" "; "PUT http://b"]
              ("x-Id", "1") [("X-Id", "2")] "GET" "http://a")
    as (sc' & Hn & Ha & He1 & He2);
    [reflexivity | constructor | reflexivity | reflexivity | repeat constructor
    | reflexivity | reflexivity | reflexivity |].
  exists sc'. split; [|repeat split; assumption].
  rewrite Hn. vm_compute. reflexivity.
Defined.

Section HttpFirstOfSection.

Lemma first_of_section (ls : list string) (l : string) (rest : list string) :
  (ls ++ l :: rest)%list = hd l ls :: tl (ls ++ l :: rest)%list.
Proof. destruct ls; reflexivity. Qed.

End HttpFirstOfSection.

(** X12. Over a source that ends without a read error, a line that
    starts with [@] ends the header/body section at once: the file named
    by the rest of the line becomes the target's body, after the header
    lines before it were added, and the lines after it stay ahead. When
    the file cannot be read [Next] fails with "bad body" and the read
    error's text. *)
Theorem http_Next_body_file
    (ParseRequestURI : string -> option error)
    (ReadFile : string -> string * option error)
    (h : httpTargeter) (out : Target)
    (skipped : list string) (raw : string) (ls : list string) (l path : string)
    (rest : list string) (kvs : list (string * string)) (m u : string) :
  Peeking.ahead (h_sc h) = (skipped ++ raw :: ls ++ l :: rest)%list ->
  Forall (fun l => opensBlock (TrimSpace l) = false) skipped ->
  methodLine ParseRequestURI raw = Some (m, u) ->
  closesBlock (hd l ls) = false ->
  Forall2 (fun l kv => headerLine l = Some kv) ls kvs ->
  TrimSpace l = String "@"%char path ->
  readErr (src (h_sc h)) = None ->
  scanErr (src (h_sc h)) = None ->
  exists sc',
    Http.Next ParseRequestURI ReadFile h (Some out)
    = (match (ReadFile path).2 with
       | Some e => Return (Some (Errorf ("bad body: " +:+ error_message e)))
       | None => Return None
       end,
       Some (Http.setBody (addHeaders (httpBase (h_body h) (h_hdr h) out m u) kvs)
               (ReadFile path).1),
       mkHTTP (h_body h) (h_hdr h) sc')
    /\ Peeking.ahead sc' = rest.
Proof.
  intros Ha Hsk Hm Hcl H2 Hl _ Hse.
  destruct (Next_enters_section ParseRequestURI ReadFile h out skipped raw ls
              (l :: rest) kvs m u (hd l ls) _ Ha Hsk Hm H2 (first_of_section ls l rest) Hcl)
    as (sc' & ex & t4 & sc3 & Ha' & He1 & He2 & Hr & Hn).
  destruct (readSection_at ReadFile sc' l path rest
              (addHeaders (httpBase (h_body h) (h_hdr h) out m u) kvs)
              (length (l :: rest)) Ha' Hl) as (sc2 & Hr' & Ha2 & He1' & He2').
  rewrite Hr' in Hr. injection Hr as <- <- <-.
  exists sc2. split; [|exact Ha2]. rewrite Hn.
  unfold Peeking.Err, Src.Err. rewrite He2', He2, Hse.
  destruct ((ReadFile path).2); reflexivity.
Qed.

Lemma http_Next_body_file_witness :
  let files (p : string) : string * option error :=
    if String.eqb p "body.txt" then ("BODY", None)
    else ("", Some (ExtError "open: no such file")) in
  let lines (f : string) := ["POST http://a"; "A: 1"; f; "B: 2"] in
  (exists sc',
     Http.Next sampleParseRequestURI files (NewHTTPTargeter (lines "@body.txt") None "" None)
       (Some zeroTarget)
     = (Return None, Some (mkTarget "POST" "http://a" "BODY" (Some {["A" := ["1"]]}) ""),
        mkHTTP "" None sc')
     /\ Peeking.ahead sc' = ["B: 2"])
  /\ (exists sc',
        Http.Next sampleParseRequestURI files (NewHTTPTargeter (lines "@nofile") None "" None)
          (Some zeroTarget)
        = (Return (Some (Errorf "bad body: open: no such file")),
           Some (mkTarget "POST" "http://a" "" (Some {["A" := ["1"]]}) ""),
           mkHTTP "" None sc')
        /\ Peeking.ahead sc' = ["B: 2"]).
Proof.
  intros files lines. split.
  - destruct (http_Next_body_file sampleParseRequestURI files
                (NewHTTPTargeter (lines "@body.txt") None "" None) zeroTarget
                [] "POST http://a" ["A: 1"] "@body.txt" "body.txt" ["B: 2"]
                [("A", "1")] "POST" "http://a")
      as (sc' & Hn & Ha);
      [reflexivity | constructor | reflexivity | reflexivity | repeat constructor
      | reflexivity | reflexivity | reflexivity |].
    exists sc'. split; [|exact Ha]. rewrite Hn. vm_compute. reflexivity.
  - destruct (http_Next_body_file sampleParseRequestURI files
                (NewHTTPTargeter (lines "@nofile") None "" None) zeroTarget
                [] "POST http://a" ["A: 1"] "@nofile" "nofile" ["B: 2"]
                [("A", "1")] "POST" "http://a")
      as (sc' & Hn & Ha);
      [reflexivity | constructor | reflexivity | reflexivity | repeat constructor
      | reflexivity | reflexivity | reflexivity |].
    exists sc'. split; [|exact Ha]. rewrite Hn. vm_compute. reflexivity.
Defined.

(** X13. In the header/body section, a line that is neither blank nor a
    body reference and has no colon, or nothing but space before or after
    its first colon, makes [Next] fail with "bad header" and the trimmed
    line. The header lines before it are in the target by then, and the
    lines after it stay ahead: the rest of the block is not skipped. *)
Theorem http_Next_bad_header
    (ParseRequestURI : string -> option error)
    (ReadFile : string -> string * option error)
    (h : httpTargeter) (out : Target)
    (skipped : list string) (raw : string) (ls : list string) (l : string)
    (rest : list string) (kvs : list (string * string)) (m u : string) :
  Peeking.ahead (h_sc h) = (skipped ++ raw :: ls ++ l :: rest)%list ->
  Forall (fun l => opensBlock (TrimSpace l) = false) skipped ->
  methodLine ParseRequestURI raw = Some (m, u) ->
  closesBlock (hd l ls) = false ->
  Forall2 (fun l kv => headerLine l = Some kv) ls kvs ->
  TrimSpace l <> "" ->
  HasPrefix (TrimSpace l) "@" = false ->
  headerLine l = None ->
  exists sc',
    Http.Next ParseRequestURI ReadFile h (Some out)
    = (Return (Some (Errorf ("bad header: " +:+ TrimSpace l))),
       Some (addHeaders (httpBase (h_body h) (h_hdr h) out m u) kvs),
       mkHTTP (h_body h) (h_hdr h) sc')
    /\ Peeking.ahead sc' = rest.
Proof.
  intros Ha Hsk Hm Hcl H2 Hne Hat Hh.
  destruct (Next_enters_section ParseRequestURI ReadFile h out skipped raw ls
              (l :: rest) kvs m u (hd l ls) _ Ha Hsk Hm H2 (first_of_section ls l rest) Hcl)
    as (sc' & ex & t4 & sc3 & Ha' & He1 & He2 & Hr & Hn).
  destruct (readSection_bad ReadFile sc' l rest
              (addHeaders (httpBase (h_body h) (h_hdr h) out m u) kvs)
              (length (l :: rest)) Ha' Hne Hat Hh) as (sc2 & Hr' & Ha2 & He1' & He2').
  rewrite Hr' in Hr. injection Hr as <- <- <-.
  exists sc2. split; [|exact Ha2]. rewrite Hn. reflexivity.
Qed.

Lemma http_Next_bad_header_witness :
  let lines (bad : string) := ["GET http://a"; "A: 1"; bad; "B: 2"] in
  let failed (bad msg : string) :=
    exists sc',
      Http.Next sampleParseRequestURI sampleReadFile
        (NewHTTPTargeter (lines bad) None "" None) (Some zeroTarget)
      = (Return (Some (Errorf msg)),
         Some (mkTarget "GET" "http://a" "" (Some {["A" := ["1"]]}) ""),
         mkHTTP "" None sc')
      /\ Peeking.ahead sc' = ["B: 2"] in
  failed "Foo" "bad header: Foo"
  /\ failed " : v" "bad header: : v"
  /\ failed "K:  " "bad header: K:".
Proof.
  intros lines failed.
  assert (H : forall bad, TrimSpace bad <> "" -> HasPrefix (TrimSpace bad) "@" = false ->
                headerLine bad = None ->
                failed bad ("bad header: " +:+ TrimSpace bad)).
  { intros bad H1 H2 H3.
    destruct (http_Next_bad_header sampleParseRequestURI sampleReadFile
                (NewHTTPTargeter (lines bad) None "" None) zeroTarget
                [] "GET http://a" ["A: 1"] bad ["B: 2"] [("A", "1")] "GET" "http://a")
      as (sc' & Hn & Ha);
      [reflexivity | constructor | reflexivity | reflexivity | repeat constructor
      | exact H1 | exact H2 | exact H3 |].
    exists sc'. split; [|exact Ha]. rewrite Hn. reflexivity. }
  split; [|split].
  - apply (H "Foo"); [discriminate|reflexivity|reflexivity].
  - apply (H " : v"); [discriminate|reflexivity|reflexivity].
  - apply (H "K:  "); [discriminate|reflexivity|reflexivity].
Defined.

(** X14. When the input ends inside a header section with a read error
    of the line source, [Next] returns [ErrNoTargets], the error of an
    exhausted source, although the block was decoded: its method, URL
    and header lines are in the target. *)
Theorem http_Next_read_error
    (ParseRequestURI : string -> option error)
    (ReadFile : string -> string * option error)
    (h : httpTargeter) (out : Target)
    (skipped : list string) (raw : string) (l1 : string) (ls : list string)
    (kv1 : string * string) (kvs : list (string * string)) (m u : string)
    (e : error) :
  Peeking.ahead (h_sc h) = (skipped ++ raw :: l1 :: ls)%list ->
  Forall (fun l => opensBlock (TrimSpace l) = false) skipped ->
  methodLine ParseRequestURI raw = Some (m, u) ->
  closesBlock l1 = false ->
  Forall2 (fun l kv => headerLine l = Some kv) (l1 :: ls) (kv1 :: kvs) ->
  readErr (src (h_sc h)) = Some e ->
  Http.Next ParseRequestURI ReadFile h (Some out)
  = (Return (Some ErrNoTargets),
     Some (addHeaders (httpBase (h_body h) (h_hdr h) out m u) (kv1 :: kvs)),
     mkHTTP (h_body h) (h_hdr h) (exhausted (Some e))).
Proof.
  intros Ha Hsk Hm Hcl H2 Hre.
  rewrite <- (app_nil_r (l1 :: ls)) in Ha.
  destruct (Next_enters_section ParseRequestURI ReadFile h out skipped raw (l1 :: ls)
              [] (kv1 :: kvs) m u l1 (ls ++ []) Ha Hsk Hm H2 eq_refl Hcl)
    as (sc' & ex & t4 & sc3 & Ha' & He1 & He2 & Hr & Hn).
  rewrite (readSection_end ReadFile sc'
             (addHeaders (httpBase (h_body h) (h_hdr h) out m u) (kv1 :: kvs))
             (length (@nil string)) Ha') in Hr.
  injection Hr as <- <- <-. rewrite Hn, He1, Hre. reflexivity.
Qed.

Lemma http_Next_read_error_witness :
  Http.Next sampleParseRequestURI sampleReadFile
    (NewHTTPTargeter ["GET http://a"; "A: 1"] (Some (ExtError "read: connection reset"))
       "" None)
    (Some zeroTarget)
  = (Return (Some ErrNoTargets),
     Some (addHeaders (httpBase "" None zeroTarget "GET" "http://a") [("A", "1")]),
     mkHTTP "" None (exhausted (Some (ExtError "read: connection reset")))).
Proof.
  apply (http_Next_read_error sampleParseRequestURI sampleReadFile
           (NewHTTPTargeter ["GET http://a"; "A: 1"]
              (Some (ExtError "read: connection reset")) "" None)
           zeroTarget [] "GET http://a" "A: 1" [] ("A", "1") [] "GET" "http://a"
           (ExtError "read: connection reset"));
    [reflexivity | constructor | reflexivity | reflexivity | repeat constructor
    | reflexivity].
Defined.

Section HttpProgress.

Variable ParseRequestURI : string -> option error.
Variable ReadFile : string -> string * option error.

Local Abbreviation seekLine := (Http.seekLine).
Local Abbreviation readSection := (Http.readSection ReadFile).
Local Abbreviation Next := (Http.Next ParseRequestURI ReadFile).

Lemma seekLine_shrinks (fuel : nat) :
  forall sc line sc',
    seekLine fuel sc = Some (Some line, sc') ->
    length (Peeking.ahead sc') < length (Peeking.ahead sc)
    /\ peeked sc' = "" /\ opensBlock line = true.
Proof.
  induction fuel as [|fuel IH]; intros sc line sc' H; [discriminate H|].
  cbn [Http.seekLine] in H. pose proof (scan_text_ahead sc) as Hst.
  destruct (Peeking.Scan sc) as [[|] sc1]; [|discriminate H].
  destruct (Peeking.Text sc1) as [txt sc2]. cbn [fst snd] in Hst.
  destruct Hst as [Ha Hp].
  destruct (opensBlock (TrimSpace txt)) eqn:Eo.
  - injection H as <- <-. rewrite Ha. cbn [length]. split; [lia|split; assumption].
  - apply IH in H as (Hl & Hp' & Ho). rewrite Ha. cbn [length]. split; [lia|split; assumption].
Qed.

Lemma peek_shrinks (sc : peekingScanner) :
  peeked sc = "" ->
  length (Peeking.ahead (Peeking.Peek sc).2) <= length (Peeking.ahead sc).
Proof.
  destruct sc as [[p tok e se] pk]. cbn [peeked]. intros ->.
  destruct p as [|l r]; [simpl; lia|].
  destruct l; unfold Peeking.Peek, Peeking.ahead; simpl; lia.
Qed.

(** The header/body loop leaves method, URL and name as they are, and a
    header map in place. *)
Lemma readSection_keeps (fuel : nat) :
  forall sc t ex t4 sc3,
    readSection fuel sc t = Some (ex, t4, sc3) ->
    length (Peeking.ahead sc3) <= length (Peeking.ahead sc)
    /\ Method t4 = Method t /\ URL t4 = URL t /\ Name t4 = Name t
    /\ (Header t <> None -> Header t4 <> None).
Proof.
  induction fuel as [|fuel IH]; intros sc t ex t4 sc3 H; [discriminate H|].
  cbn [Http.readSection] in H. pose proof (scan_text_ahead sc) as Hst.
  destruct (Peeking.Scan sc) as [[|] sc1] eqn:Escan.
  2:{ injection H as <- <- <-. destruct Hst as [Ha Hp].
      rewrite (scan_nil sc Ha) in Escan. injection Escan as <-.
      rewrite Ha. repeat split; [simpl; lia|tauto]. }
  destruct (Peeking.Text sc1) as [txt sc2]. cbn [fst snd] in Hst.
  destruct Hst as [Ha Hp]. rewrite Ha. cbn [length].
  destruct (String.eqb (TrimSpace txt) "").
  { injection H as <- <- <-. repeat split; [lia|tauto]. }
  destruct (HasPrefix (TrimSpace txt) "@").
  { destruct (ReadFile _) as [data [e|]]; injection H as <- <- <-;
      repeat split; try lia; tauto. }
  destruct (cut ":"%char (TrimSpace txt)) as [[k v]|].
  2:{ injection H as <- <- <-. repeat split; [lia|tauto]. }
  destruct (String.eqb (TrimSpace k) "").
  { injection H as <- <- <-. repeat split; [lia|tauto]. }
  destruct (String.eqb (TrimSpace v) "").
  { injection H as <- <- <-. repeat split; [lia|tauto]. }
  apply IH in H as (Hl & Hm & Hu & Hn & Hh). cbn [Http.addHeader Method URL Name Header] in *.
  repeat split; try assumption; [lia|]. intros _. apply Hh. discriminate.
Qed.

Lemma cut_first_token (line tok0 tok1 : string) :
  cut " "%char line = Some (tok0, tok1) ->
  startsWithHTTPMethod line = true ->
  exists c r, tok0 = String c r /\ isUpper c = true.
Proof.
  destruct line as [|c line]; [discriminate|]. cbn [cut startsWithHTTPMethod].
  intros Hc Hs. apply andb_prop in Hs as [Hu _].
  destruct (Ascii.eqb c " "%char) eqn:E.
  { apply Ascii.eqb_eq in E. subst c. discriminate Hu. }
  destruct (cut " "%char line) as [[a b]|]; [|discriminate Hc].
  injection Hc as <- <-. exists c, a. split; [reflexivity|exact Hu].
Qed.

(** What every successful call has done. *)
Lemma http_Next_success_facts (h h' : httpTargeter) (out t' : Target) :
  Next h (Some out) = (Return None, Some t', h') ->
  (exists c r, Method t' = String c r /\ isUpper c = true)
  /\ ParseRequestURI (URL t') = None
  /\ Header t' <> None
  /\ Name t' = Name out
  /\ length (Peeking.ahead (h_sc h')) < length (Peeking.ahead (h_sc h)).
Proof.
  unfold Http.Next.
  destruct (seekLine _ _) as [[[line|] sc1]|] eqn:Es; try discriminate.
  apply seekLine_shrinks in Es as (Hl1 & Hp1 & Ho).
  destruct (cut " "%char line) as [[tok0 tok1]|] eqn:Ec; [|discriminate].
  destruct (startsWithHTTPMethod line) eqn:Em; [|discriminate]. cbn [negb].
  destruct (ParseRequestURI tok1) eqn:Ep; [discriminate|].
  pose proof (peek_shrinks sc1 Hp1) as Hl2.
  destruct (Peeking.Peek sc1) as [pk sc2]. cbn [snd] in Hl2.
  destruct (cut_first_token line tok0 tok1 Ec Em) as (c & r & Hc & Hu).
  destruct (String.eqb (TrimSpace pk) "" || startsWithHTTPMethod (TrimSpace pk)).
  { intros [= <- <-]. cbn [Http.setURL Http.setMethod Method URL Header Name h_sc].
    repeat split; try assumption; [eauto | discriminate | lia]. }
  destruct (readSection _ _ _) as [[[ex t4] sc3]|] eqn:Er; [|discriminate].
  apply readSection_keeps in Er as (Hl3 & Hm4 & Hu4 & Hn4 & Hh4).
  cbn [Http.setURL Http.setMethod Method URL Header Name] in *.
  destruct ex; [|discriminate]. destruct (Peeking.Err sc3); [discriminate|].
  intros [= <- <-]. cbn [h_sc]. rewrite Hm4, Hu4, Hn4.
  repeat split; try assumption; [eauto | apply Hh4; discriminate | lia].
Qed.

Lemma http_Next_no_panic (h h' : httpTargeter) (tgt t' : option Target) (msg : string) :
  Next h tgt <> (Panic msg, t', h').
Proof.
  unfold Http.Next. destruct tgt as [out|]; [|discriminate].
  destruct (seekLine _ _) as [[[line|] sc1]|]; try discriminate.
  destruct (cut " "%char line) as [[tok0 tok1]|]; [|discriminate].
  destruct (startsWithHTTPMethod line); [|discriminate]. cbn [negb].
  destruct (ParseRequestURI tok1); [discriminate|].
  destruct (Peeking.Peek sc1) as [pk sc2].
  destruct (String.eqb (TrimSpace pk) "" || startsWithHTTPMethod (TrimSpace pk));
    [discriminate|].
  destruct (readSection _ _ _) as [[[[|e] t4] sc3]|]; try discriminate.
  destruct (Peeking.Err sc3); discriminate.
Qed.

End HttpProgress.

(** X15. Whatever the input, a target that the HTTP-text decoder hands
    out has a method that begins with an upper-case letter, a URL that
    [url.ParseRequestURI] accepts and a header that is not nil, and
    keeps the name it came with; and the call has consumed at least one
    line. *)
Theorem http_Next_postcondition
    (ParseRequestURI : string -> option error)
    (ReadFile : string -> string * option error)
    (h h' : httpTargeter) (out t' : Target) :
  Http.Next ParseRequestURI ReadFile h (Some out) = (Return None, Some t', h') ->
  (exists c r, Method t' = String c r /\ isUpper c = true)
  /\ ParseRequestURI (URL t') = None
  /\ Header t' <> None
  /\ Name t' = Name out
  /\ length (Peeking.ahead (h_sc h')) < length (Peeking.ahead (h_sc h)).
Proof. apply http_Next_success_facts. Qed.

Lemma http_Next_postcondition_witness :
  let t' := mkTarget "GET" "http://a" "" (Some {["A" := ["1"]]}) "n" in
  (exists c r, Method t' = String c r /\ isUpper c = true)
  /\ sampleParseRequestURI (URL t') = None
  /\ Header t' <> None
  /\ Name t' = "n"
  /\ length (Peeking.ahead (exhausted None)) < 2.
Proof.
  intros t'.
  apply (http_Next_postcondition sampleParseRequestURI sampleReadFile
           (NewHTTPTargeter ["GET http://a"; "A: 1"] None "" None)
           (mkHTTP "" None (exhausted None))
           (mkTarget "" "" "" None "n") t').
  vm_compute. reflexivity.
Defined.

(** X16. [ReadAllTargets] over an HTTP-text decoder returns: allowed
    more calls than there are lines ahead, it does not run out of them,
    and it does not panic. *)
Theorem ReadAllTargets_http_returns
    (ParseRequestURI : string -> option error)
    (ReadFile : string -> string * option error)
    (h : httpTargeter) (fuel : nat) :
  length (Peeking.ahead (h_sc h)) < fuel ->
  exists ts err h',
    ReadAllTargets (Http.targeter ParseRequestURI ReadFile) fuel h
    = (ts, Return err, h').
Proof.
  unfold ReadAllTargets. generalize (@nil Target) as acc. revert h.
  induction fuel as [|fuel IH]; intros h acc Hlen; [lia|].
  cbn [readAllLoop]. cbn [Next Http.targeter].
  pose proof (Next_total ParseRequestURI ReadFile h (Some zeroTarget)) as Htot.
  destruct (Http.Next ParseRequestURI ReadFile h (Some zeroTarget)) as [[r out] h1] eqn:E.
  destruct r as [[e|]|m|].
  - destruct e; try (eexists _, _, _; reflexivity).
    destruct (Nat.eqb (length acc) 0); eexists _, _, _; reflexivity.
  - apply IH. destruct out as [t'|].
    + apply http_Next_success_facts in E. lia.
    + exfalso. revert E. unfold Http.Next.
      destruct (Http.seekLine _ _) as [[[line|] sc1]|]; try discriminate.
      destruct (cut " "%char line) as [[tok0 tok1]|]; [|discriminate].
      destruct (startsWithHTTPMethod line); [|discriminate]. cbn [negb].
      destruct (ParseRequestURI tok1); [discriminate|].
      destruct (Peeking.Peek sc1) as [pk sc2].
      destruct (String.eqb (TrimSpace pk) "" || startsWithHTTPMethod (TrimSpace pk));
        [discriminate|].
      destruct (Http.readSection _ _ _ _) as [[[[|e] t4] sc3]|]; try discriminate.
      destruct (Peeking.Err sc3); discriminate.
  - exfalso. apply (http_Next_no_panic ParseRequestURI ReadFile h h1 (Some zeroTarget) out m).
    exact E.
  - exfalso. apply Htot. reflexivity.
Qed.

Lemma ReadAllTargets_http_returns_witness :
  exists ts err h',
    ReadAllTargets (Http.targeter sampleParseRequestURI sampleReadFile) 4
      (NewHTTPTargeter ["GET http://a"; "A: 1"; "oops"] None "" None)
    = (ts, Return err, h').
Proof.
  apply (ReadAllTargets_http_returns sampleParseRequestURI sampleReadFile).
  simpl. lia.
Defined.

Section HttpStreams.

Variable ParseRequestURI : string -> option error.
Variable ReadFile : string -> string * option error.

Local Abbreviation httpNext := (Http.Next ParseRequestURI ReadFile).

Lemma blank_opens_nothing (l : string) :
  TrimSpace l = "" -> opensBlock (TrimSpace l) = false.
Proof. intros ->. reflexivity. Qed.

(** One call decodes one block and leaves the scanner before the next,
    with at most a blank line in between. *)
Lemma block_step (h : httpTargeter) (b : Block) (t : Target)
    (skipped more : list string) :
  blockTarget ParseRequestURI (h_body h) (h_hdr h) b = Some t ->
  Peeking.ahead (h_sc h) = (skipped ++ blockLines b ++ more)%list ->
  Forall (fun l => opensBlock (TrimSpace l) = false) skipped ->
  scanErr (src (h_sc h)) = None ->
  exists sc' skipped',
    httpNext h (Some zeroTarget) = (Return None, Some t, mkHTTP (h_body h) (h_hdr h) sc')
    /\ Peeking.ahead sc' = (skipped' ++ more)%list
    /\ Forall (fun l => opensBlock (TrimSpace l) = false) skipped'
    /\ scanErr (src sc') = None.
Proof.
  unfold blockTarget, blockLines. destruct b as [raw hs cl]. cbn [bLine bHeaders bClose].
  destruct (methodLine ParseRequestURI raw) as [[m u]|] eqn:Hm; [|discriminate].
  destruct (mapM headerLine hs) as [kvs|] eqn:Hh; [|discriminate].
  apply mapM_Some in Hh.
  destruct (String.eqb_spec (TrimSpace cl) "") as [Hcl|]; [|discriminate]. cbn [andb].
  destruct hs as [|l1 ls].
  - intros [= <-] Ha Hsk Hse. apply Forall2_nil_inv_l in Hh. subst kvs.
    cbn [app] in Ha.
    destruct (Next_accepts_line ParseRequestURI ReadFile h zeroTarget skipped raw
                (cl :: more) m u Ha Hsk Hm) as (sc1 & Ha1 & Hp1 & He1 & He2 & Hn).
    destruct (peek_cons sc1 cl more Hp1 Ha1) as (sc2 & Hpeek & Ha2 & He1' & He2').
    exists sc2, (if String.eqb cl "" then [] else [cl]).
    rewrite Hn. unfold afterLine. rewrite Hpeek, Hcl. cbn [String.eqb orb addHeaders fold_left].
    split; [reflexivity|]. split; [destruct (String.eqb cl ""); exact Ha2|].
    split; [|congruence].
    destruct (String.eqb cl ""); constructor; [apply blank_opens_nothing, Hcl|constructor].
  - destruct (closesBlock l1) eqn:Hc1; [discriminate|]. cbn [negb].
    intros [= <-] Ha Hsk Hse.
    assert (Ha' : Peeking.ahead (h_sc h)
                  = (skipped ++ raw :: (l1 :: ls) ++ cl :: more)%list).
    { rewrite Ha. cbn [app]. rewrite <- app_assoc. reflexivity. }
    destruct (Next_enters_section ParseRequestURI ReadFile h zeroTarget skipped raw
                (l1 :: ls) (cl :: more) kvs m u l1 (ls ++ cl :: more) Ha' Hsk Hm Hh
                eq_refl Hc1)
      as (sc' & ex & t4 & sc3 & Has & He1 & He2 & Hr & Hn).
    destruct (readSection_blank ReadFile sc' cl more
                (addHeaders (httpBase (h_body h) (h_hdr h) zeroTarget m u) kvs)
                (length (cl :: more)) Has Hcl) as (sc2 & Hr' & Ha2 & He1' & He2').
    rewrite Hr' in Hr. injection Hr as <- <- <-.
    exists sc2, []. rewrite Hn. unfold Peeking.Err, Src.Err. rewrite He2', He2, Hse.
    repeat split; [exact Ha2|constructor].
Qed.

Lemma serves_blocks (blocks : list Block) :
  forall (ts : list Target) (h : httpTargeter) (skipped : list string),
    mapM (blockTarget ParseRequestURI (h_body h) (h_hdr h)) blocks = Some ts ->
    Peeking.ahead (h_sc h) = (skipped ++ concat (List.map blockLines blocks))%list ->
    Forall (fun l => opensBlock (TrimSpace l) = false) skipped ->
    scanErr (src (h_sc h)) = None ->
    exists sc',
      serves (Http.targeter ParseRequestURI ReadFile) (length blocks) h
      = Some (ts, mkHTTP (h_body h) (h_hdr h) sc')
      /\ Forall (fun l => opensBlock (TrimSpace l) = false) (Peeking.ahead sc').
Proof.
  induction blocks as [|b blocks IH]; intros ts h skipped Hts Ha Hsk Hse.
  - injection Hts as <-. exists (h_sc h). cbn [serves length]. destruct h. cbn [h_sc h_body h_hdr] in *.
    split; [reflexivity|]. rewrite Ha. cbn. rewrite app_nil_r. exact Hsk.
  - apply mapM_Some in Hts. apply Forall2_cons_inv_l in Hts as (t & ts' & Ht & Hts' & ->).
    apply mapM_Some in Hts'.
    cbn [List.map concat] in Ha.
    destruct (block_step h b t skipped _ Ht Ha Hsk Hse)
      as (sc1 & skipped1 & Hn & Ha1 & Hsk1 & Hse1).
    destruct (IH ts' (mkHTTP (h_body h) (h_hdr h) sc1) skipped1 Hts' Ha1 Hsk1 Hse1)
      as (sc' & Hs & Hf).
    exists sc'. cbn [length serves]. cbn [Next Http.targeter].
    rewrite Hn. cbn [h_body h_hdr] in Hs. rewrite Hs. split; [reflexivity|exact Hf].
Qed.

End HttpStreams.

(** X17. Over a stream that ends without a read error and is made of
    well-formed blocks, each closed by a blank line, [ReadAllTargets]
    returns the targets of the blocks, in their order and with no error,
    as soon as it may make more calls than there are blocks. The lines
    fit the scanner's buffer, and no header line names a header of the
    provider's default header, so that no block appends to a slice that
    the targets share. *)
Theorem ReadAllTargets_http_blocks
    (ParseRequestURI : string -> option error)
    (ReadFile : string -> string * option error)
    (body : string) (hdr : option HeaderMap)
    (blocks : list Block) (ts : list Target) (fuel : nat) :
  mapM (blockTarget ParseRequestURI body hdr) blocks = Some ts ->
  blocks <> [] ->
  Forall fitsBuffer (concat (List.map blockLines blocks)) ->
  Forall (ownNames hdr) blocks ->
  length blocks < fuel ->
  exists h',
    ReadAllTargets (Http.targeter ParseRequestURI ReadFile) fuel
      (NewHTTPTargeter (concat (List.map blockLines blocks)) None body hdr)
    = (ts, Return None, h').
Proof.
  intros Hts Hne _ _ Hfuel.
  set (h := NewHTTPTargeter (concat (List.map blockLines blocks)) None body hdr).
  destruct (serves_blocks ParseRequestURI ReadFile blocks ts h [] Hts eq_refl
              (List.Forall_nil _) eq_refl) as (sc' & Hs & Hf).
  unfold ReadAllTargets.
  replace fuel with (length blocks + S (fuel - S (length blocks))) by lia.
  rewrite (readAllLoop_serves (Http.targeter ParseRequestURI ReadFile)
             (length blocks) h _ ts [] _ Hs). cbn [app readAllLoop].
  cbn [Next Http.targeter]. unfold Http.Next. cbn [h_sc h_body h_hdr].
  rewrite (seekLine_none (Peeking.ahead sc') sc' (Http.rounds sc') eq_refl Hf)
    by (unfold Http.rounds; lia).
  apply length_mapM in Hts.
  destruct (Nat.eqb_spec (length ts) 0) as [E|_].
  - destruct blocks; [congruence|]. simpl in Hts. lia.
  - eexists. reflexivity.
Qed.

Lemma ReadAllTargets_http_blocks_witness :
  let blocks :=
    [ mkBlock "GET http://a" [] "";
      mkBlock "PUT http://b" ["A: 1"; "A: 2"] "  ";
      mkBlock "POST http://c" [] " " ] in
  exists h',
    ReadAllTargets (Http.targeter sampleParseRequestURI sampleReadFile) 4
      (NewHTTPTargeter (concat (List.map blockLines blocks)) None "" None)
    = ([ mkTarget "GET" "http://a" "" (Some ∅) "";
         mkTarget "PUT" "http://b" "" (Some {["A" := ["1"; "2"]]}) "";
         mkTarget "POST" "http://c" "" (Some ∅) "" ],
       Return None, h').
Proof.
  intros blocks.
  apply (ReadAllTargets_http_blocks sampleParseRequestURI sampleReadFile "" None blocks).
  - vm_compute. reflexivity.
  - discriminate.
  - repeat constructor; vm_compute; discriminate.
  - repeat constructor.
  - simpl. lia.
Defined.

Section HttpExhaustion.

Variable ParseRequestURI : string -> option error.
Variable ReadFile : string -> string * option error.

Local Abbreviation seekLine := (Http.seekLine).
Local Abbreviation readSection := (Http.readSection ReadFile).
Local Abbreviation Next := (Http.Next ParseRequestURI ReadFile).

Lemma scan_false_exhausted (sc sc1 : peekingScanner) :
  Peeking.Scan sc = (false, sc1) -> exists e, sc1 = exhausted e.
Proof.
  destruct sc as [[p tok e se] pk]. unfold Peeking.Scan. cbn [peeked src].
  destruct (String.eqb_spec pk "") as [->|]; [|discriminate].
  unfold Src.Scan. cbn [pending readErr]. destruct p; [|discriminate].
  intros [= <-]. exists e. reflexivity.
Qed.

Lemma scan_true_keeps (sc sc1 sc2 : peekingScanner) (txt : string) :
  Peeking.Scan sc = (true, sc1) ->
  Peeking.Text sc1 = (txt, sc2) ->
  scanErr (src sc2) = scanErr (src sc).
Proof.
  destruct sc as [[p tok e se] pk]. unfold Peeking.Scan, Peeking.Text. cbn [peeked src].
  destruct (String.eqb pk "") eqn:E.
  - unfold Src.Scan. cbn [pending]. destruct p; [discriminate|].
    intros [= <-]. cbn [peeked src]. rewrite E. intros [= _ <-]. reflexivity.
  - intros [= <-]. cbn [peeked src]. rewrite E. intros [= _ <-]. reflexivity.
Qed.

Lemma peek_line_keeps (sc sc2 : peekingScanner) (pk : string) :
  Peeking.Peek sc = (pk, sc2) ->
  pk <> "" ->
  scanErr (src sc2) = scanErr (src sc).
Proof.
  destruct sc as [[p tok e se] pk0]. unfold Peeking.Peek, Src.Scan. cbn [src pending].
  destruct p; [intros [= <- _]; congruence|].
  intros [= _ <-] _. reflexivity.
Qed.

Lemma seekLine_outcome (fuel : nat) :
  forall sc r sc',
    seekLine fuel sc = Some (r, sc') ->
    match r with
    | Some _ => scanErr (src sc') = scanErr (src sc)
    | None => exists e, sc' = exhausted e
    end.
Proof.
  induction fuel as [|fuel IH]; intros sc r sc' H; [discriminate H|].
  cbn [Http.seekLine] in H.
  destruct (Peeking.Scan sc) as [[|] sc1] eqn:Es.
  - destruct (Peeking.Text sc1) as [txt sc2] eqn:Et.
    pose proof (scan_true_keeps sc sc1 sc2 txt Es Et) as Hk.
    destruct (opensBlock (TrimSpace txt)).
    + injection H as <- <-. exact Hk.
    + apply IH in H. destruct r; [congruence|exact H].
  - injection H as <- <-. eapply scan_false_exhausted, Es.
Qed.

Lemma readSection_outcome (fuel : nat) :
  forall sc t ex t4 sc3,
    readSection fuel sc t = Some (ex, t4, sc3) ->
    (scanErr (src sc3) = scanErr (src sc) \/ exists e, sc3 = exhausted e)
    /\ (forall e, ex = Fail e -> exists msg, e = Errorf msg).
Proof.
  induction fuel as [|fuel IH]; intros sc t ex t4 sc3 H; [discriminate H|].
  cbn [Http.readSection] in H.
  destruct (Peeking.Scan sc) as [[|] sc1] eqn:Es.
  2:{ injection H as <- <- <-. split; [right; eapply scan_false_exhausted, Es|discriminate]. }
  destruct (Peeking.Text sc1) as [txt sc2] eqn:Et.
  pose proof (scan_true_keeps sc sc1 sc2 txt Es Et) as Hk.
  destruct (String.eqb (TrimSpace txt) "").
  { injection H as <- <- <-. split; [left; exact Hk|discriminate]. }
  destruct (HasPrefix (TrimSpace txt) "@").
  { destruct (ReadFile _) as [data [e|]]; injection H as <- <- <-;
      (split; [left; exact Hk|]); [intros e' [= <-]; eauto|discriminate]. }
  destruct (cut ":"%char (TrimSpace txt)) as [[k v]|].
  2:{ injection H as <- <- <-. split; [left; exact Hk|intros e' [= <-]; eauto]. }
  destruct (String.eqb (TrimSpace k) "").
  { injection H as <- <- <-. split; [left; exact Hk|intros e' [= <-]; eauto]. }
  destruct (String.eqb (TrimSpace v) "").
  { injection H as <- <- <-. split; [left; exact Hk|intros e' [= <-]; eauto]. }
  apply IH in H as [[Hs|Hs] Hf]; (split; [|exact Hf]); [left; congruence|right; exact Hs].
Qed.

Lemma Next_at_end (body : string) (hdr : option HeaderMap) (e : option error)
    (out : Target) :
  Next (mkHTTP body hdr (exhausted e)) (Some out)
  = (Return (Some ErrNoTargets), Some out, mkHTTP body hdr (exhausted e)).
Proof. reflexivity. Qed.

End HttpExhaustion.

(** X18. Over a source that ends without a read error and whose lines
    fit the scanner's buffer, the HTTP-text decoder stays exhausted once
    it has returned [ErrNoTargets]: every later call returns
    [ErrNoTargets] again, leaves its target alone and does not change
    the decoder. *)
Theorem http_exhaustion_is_final
    (ParseRequestURI : string -> option error)
    (ReadFile : string -> string * option error)
    (h h' : httpTargeter) (out out' : Target) (t' : option Target) :
  readErr (src (h_sc h)) = None ->
  scanErr (src (h_sc h)) = None ->
  Forall fitsBuffer (Peeking.ahead (h_sc h)) ->
  Http.Next ParseRequestURI ReadFile h (Some out) = (Return (Some ErrNoTargets), t', h') ->
  Http.Next ParseRequestURI ReadFile h' (Some out')
  = (Return (Some ErrNoTargets), Some out', h').
Proof.
  intros _ Hse _.
  unfold Http.Next at 1.
  destruct (Http.seekLine _ _) as [[[line|] sc1]|] eqn:Es; try discriminate.
  2:{ apply seekLine_outcome in Es as [e ->]. intros [= _ <-]. apply Next_at_end. }
  apply seekLine_outcome in Es.
  destruct (cut " "%char line) as [[tok0 tok1]|]; [|discriminate].
  destruct (startsWithHTTPMethod line); [|discriminate]. cbn [negb].
  destruct (ParseRequestURI tok1); [discriminate|].
  destruct (Peeking.Peek sc1) as [pk sc2] eqn:Ep.
  destruct (String.eqb (TrimSpace pk) "" || startsWithHTTPMethod (TrimSpace pk)) eqn:Ec;
    [discriminate|].
  assert (Hpk : pk <> "") by (intros ->; discriminate Ec).
  pose proof (peek_line_keeps sc1 sc2 pk Ep Hpk) as Hk2.
  destruct (Http.readSection _ _ _ _) as [[[ex t4] sc3]|] eqn:Er; [|discriminate].
  apply readSection_outcome in Er as [Hs Hf].
  destruct ex as [|e].
  - destruct (Peeking.Err sc3) eqn:Ee; [|discriminate].
    intros [= _ <-]. destruct Hs as [Hs|[e' ->]]; [|apply Next_at_end].
    unfold Peeking.Err, Src.Err in Ee. congruence.
  - destruct (Hf e eq_refl) as [msg ->]. discriminate.
Qed.

Lemma http_exhaustion_is_final_witness :
  let h := NewHTTPTargeter ["GET http://a"; "A: 1"; ""; "# the end"; " "] None "" None in
  let served := (Http.Next sampleParseRequestURI sampleReadFile h (Some zeroTarget)).2 in
  let h' := mkHTTP "" None (exhausted None) in
  Http.Next sampleParseRequestURI sampleReadFile served (Some zeroTarget)
  = (Return (Some ErrNoTargets), Some zeroTarget, h')
  /\ Http.Next sampleParseRequestURI sampleReadFile h' (Some targetGet)
     = (Return (Some ErrNoTargets), Some targetGet, h').
Proof.
  intros h served h'. split; [vm_compute; reflexivity|].
  apply (http_exhaustion_is_final sampleParseRequestURI sampleReadFile
           served h' zeroTarget targetGet (Some zeroTarget)).
  - reflexivity.
  - reflexivity.
  - repeat constructor; vm_compute; discriminate.
  - vm_compute. reflexivity.
Defined.

(** ** The static decoder and ReadAllTargets, further *)

(** X19. Over a non-empty list of [L] targets, any run of [n] calls to a
    fresh static decoder, for [n] up to [2^63], returns normally every
    time, the call number [k] (from 0) handing out the element at index
    [k mod L]; the list itself is never changed. *)
Theorem static_nth_call (ts : list Target) (n : nat) :
  ts <> [] ->
  (Z.of_nat (length ts) < 2 ^ 63)%Z ->
  (Z.of_nat n <= 2 ^ 63)%Z ->
  callN Static.targeter n (NewStaticTargeter ts)
  = (List.map (fun k => (Return None, ts !! (Nat.modulo k (length ts)))) (List.seq 0 n),
     mkStatic ts (Z.of_nat n - 1)).
Proof.
  intros Hne Hlen Hn. unfold NewStaticTargeter.
  change (-1)%Z with (Z.of_nat 0 - 1)%Z.
  rewrite (static_callN ts n 0 Hne Hlen) by (simpl; lia). reflexivity.
Qed.

Lemma static_nth_call_witness :
  let a := mkTarget "GET" "http://a" "" None "" in
  let b := mkTarget "GET" "http://b" "" None "" in
  callN Static.targeter 5 (NewStaticTargeter [a; b])
  = (List.map (fun t => (Return None, Some t)) [a; b; a; b; a], mkStatic [a; b] 4).
Proof.
  intros a b. apply (static_nth_call [a; b] 5); [discriminate|vm_compute; reflexivity|].
  vm_compute. discriminate.
Defined.

Section StaticReadAll.

Lemma readAll_static_loops (ts : list Target) (fuel : nat) :
  ts <> [] ->
  (Z.of_nat (length ts) < 2 ^ 63)%Z ->
  forall (c : nat) (acc : list Target),
    (Z.of_nat (c + fuel) <= 2 ^ 63)%Z ->
    (readAllLoop Static.targeter fuel (mkStatic ts (Z.of_nat c - 1)) acc).1
    = ([], OutOfFuel).
Proof.
  intros Hne Hlen. induction fuel as [|fuel IH]; intros c acc Hc; [reflexivity|].
  cbn [readAllLoop]. cbn [Next Static.targeter].
  destruct (static_next_nth ts c zeroTarget Hne Hlen) as (t & Ht & Hnext); [lia|].
  rewrite Hnext. replace (Z.of_nat c) with (Z.of_nat (S c) - 1)%Z by lia.
  apply IH. lia.
Qed.

End StaticReadAll.

(** X20. [ReadAllTargets] must not be given a static decoder: over a
    non-empty list it never ends, as [Next] never returns
    [ErrNoTargets] (it is still running after any number of calls up to
    [2^63]); over the empty list its first call panics. *)
Theorem ReadAllTargets_static_never_returns (ts : list Target) (fuel : nat) :
  (ts <> [] ->
   (Z.of_nat (length ts) < 2 ^ 63)%Z ->
   (Z.of_nat fuel <= 2 ^ 63)%Z ->
   (ReadAllTargets Static.targeter fuel (NewStaticTargeter ts)).1 = ([], OutOfFuel))
  /\ (ReadAllTargets Static.targeter (S fuel) (NewStaticTargeter [])).1
     = ([], Panic "runtime error: integer divide by zero").
Proof.
  split; [|reflexivity].
  intros Hne Hlen Hf. unfold ReadAllTargets, NewStaticTargeter.
  change (-1)%Z with (Z.of_nat 0 - 1)%Z.
  apply readAll_static_loops; [assumption..|simpl; lia].
Qed.

Lemma ReadAllTargets_static_never_returns_witness :
  (ReadAllTargets Static.targeter 50 (NewStaticTargeter [zeroTarget; targetGet])).1
  = ([], OutOfFuel).
Proof.
  apply (proj1 (ReadAllTargets_static_never_returns [zeroTarget; targetGet] 50));
    [discriminate|vm_compute; reflexivity|vm_compute; discriminate].
Defined.

Section ReadAllSound.

Variable T : Targeter.

Lemma readAllLoop_sound (fuel : nat) :
  forall (s s' : state T) (acc ts : list Target) (err : option error),
    readAllLoop T fuel s acc = (ts, Return err, s') ->
    match err with
    | None =>
        ts <> []
        /\ exists more s1 out,
             ts = (acc ++ more)%list
             /\ serves T (length more) s = Some (more, s1)
             /\ Next T s1 (Some zeroTarget) = (Return (Some ErrNoTargets), out, s')
    | Some e =>
        ts = []
        /\ exists more s1 out,
             serves T (length more) s = Some (more, s1)
             /\ Next T s1 (Some zeroTarget) = (Return (Some e), out, s')
             /\ (e = ErrNoTargets -> (acc ++ more)%list = [])
    end.
Proof.
  induction fuel as [|fuel IH]; intros s s' acc ts err H; [discriminate H|].
  cbn [readAllLoop] in H.
  destruct (Next T s (Some zeroTarget)) as [[r out] s1] eqn:En.
  destruct r as [[e|]|m|]; try discriminate H.
  - destruct (decide (e = ErrNoTargets)) as [->|Hne].
    + destruct (Nat.eqb_spec (length acc) 0) as [E|E]; injection H as <- <- <-.
      * split; [reflexivity|]. exists [], s, out. cbn [serves length].
        repeat split; [exact En|]. intros _. rewrite app_nil_r.
        destruct acc; [reflexivity|discriminate E].
      * split; [destruct acc; [contradiction|discriminate]|].
        exists [], s, out. cbn [serves length]. rewrite app_nil_r. repeat split. exact En.
    + assert (H' : ([], Return (Some e), s1) = (ts, Return err, s'))
        by (destruct e; congruence).
      injection H' as <- <- <-. split; [reflexivity|].
      exists [], s, out. cbn [serves length]. repeat split; [exact En|congruence].
  - apply IH in H. destruct err as [e|].
    + destruct H as (-> & more & s2 & out' & Hs & Hn & He). split; [reflexivity|].
      exists (default zeroTarget out :: more), s2, out'. cbn [serves length].
      rewrite En, Hs. repeat split; [exact Hn|].
      intros Hee. specialize (He Hee). rewrite <- app_assoc in He.
      destruct acc; discriminate He.
    + destruct H as (Hne & more & s2 & out' & -> & Hs & Hn). split; [exact Hne|].
      exists (default zeroTarget out :: more), s2, out'. cbn [serves length].
      rewrite En, Hs, <- app_assoc. repeat split. exact Hn.
Qed.

End ReadAllSound.

(** X21. Whatever the provider, a result of [ReadAllTargets] without
    error is never empty: it is the targets of a run of successful
    [Next] calls, in their order, the call after which returned
    [ErrNoTargets]. A result with an error carries no targets, and the
    error is [ErrNoTargets] only when no call had succeeded. *)
Theorem ReadAllTargets_sound (T : Targeter) (fuel : nat) (s s' : state T)
    (ts : list Target) (err : option error) :
  ReadAllTargets T fuel s = (ts, Return err, s') ->
  match err with
  | None =>
      ts <> []
      /\ exists s1 out,
           serves T (length ts) s = Some (ts, s1)
           /\ Next T s1 (Some zeroTarget) = (Return (Some ErrNoTargets), out, s')
  | Some e =>
      ts = []
      /\ exists more s1 out,
           serves T (length more) s = Some (more, s1)
           /\ Next T s1 (Some zeroTarget) = (Return (Some e), out, s')
           /\ (e = ErrNoTargets -> more = [])
  end.
Proof.
  intros H. apply readAllLoop_sound in H. destruct err as [e|].
  - exact H.
  - destruct H as (Hne & more & s1 & out & -> & Hs & Hn). split; [exact Hne|].
    exists s1, out. split; [exact Hs|exact Hn].
Qed.

Lemma ReadAllTargets_sound_witness :
  let T := Http.targeter sampleParseRequestURI sampleReadFile in
  let s := NewHTTPTargeter ["GET http://a"; ""; "GET http://b"] None "" None in
  let ts := [mkTarget "GET" "http://a" "" (Some ∅) "";
             mkTarget "GET" "http://b" "" (Some ∅) ""] in
  ts <> []
  /\ exists s1 out,
       serves T (length ts) s = Some (ts, s1)
       /\ Next T s1 (Some zeroTarget)
          = (Return (Some ErrNoTargets), out, mkHTTP "" None (exhausted None)).
Proof.
  intros T s ts.
  apply (ReadAllTargets_sound T 3 s (mkHTTP "" None (exhausted None)) ts None).
  vm_compute. reflexivity.
Defined.

(** X22. The round robin ends with the counter: the call that follows
    [2^63] earlier ones (the counter stands at [2^63 - 1]) wraps it to
    [-2^63], whose remainder by the list's length is negative unless
    the length divides [2^63]; then the call panics on the index,
    otherwise it hands out the first target. *)
Theorem static_counter_overflow (ts : list Target) (tgt : Target) :
  ts <> [] ->
  (Z.of_nat (length ts) < 2 ^ 63)%Z ->
  Static.Next (mkStatic ts (2 ^ 63 - 1)) (Some tgt)
  = if (2 ^ 63 mod Z.of_nat (length ts) =? 0)%Z
    then (Return None, head ts, mkStatic ts (- 2 ^ 63))
    else (Panic "runtime error: index out of range", Some tgt, mkStatic ts (- 2 ^ 63)).
Proof.
  intros Hne Hlen.
  assert (HL : (0 < Z.of_nat (length ts))%Z) by (destruct ts; [congruence|simpl; lia]).
  unfold Static.Next. cbn [i tgts].
  replace (AddInt64 (2 ^ 63 - 1) 1) with (- 2 ^ 63)%Z by (vm_compute; reflexivity).
  destruct (Z.eqb_spec (Z.of_nat (length ts)) 0) as [E|_]; [lia|].
  rewrite Z.rem_opp_l by lia. rewrite Z.rem_mod_nonneg by lia.
  pose proof (Z.mod_pos_bound (2 ^ 63) (Z.of_nat (length ts)) HL) as Hb.
  destruct (Z.eqb_spec (2 ^ 63 mod Z.of_nat (length ts)) 0) as [E|E].
  - rewrite E. cbn [Z.opp Z.ltb Z.compare Z.to_nat].
    destruct ts as [|t ts']; [congruence|reflexivity].
  - destruct (Z.ltb_spec (- (2 ^ 63 mod Z.of_nat (length ts))) 0) as [_|E']; [reflexivity|lia].
Qed.

Lemma static_counter_overflow_witness :
  Static.Next (mkStatic [zeroTarget; targetGet; zeroTarget] (2 ^ 63 - 1)) (Some targetGet)
  = (Panic "runtime error: index out of range", Some targetGet,
     mkStatic [zeroTarget; targetGet; zeroTarget] (- 2 ^ 63)).
Proof.
  apply (static_counter_overflow [zeroTarget; targetGet; zeroTarget] targetGet);
    [discriminate|vm_compute; reflexivity].
Defined.

(** ** Series grouping of the gnuplot report *)

Section GroupByFacts.

Import Gnuplot.

Lemma Split_nonempty (s : string) (sep : ascii) : Split s sep <> [].
Proof.
  induction s as [|c r IH]; cbn [Split]; [discriminate|].
  destruct (Ascii.eqb c sep); [discriminate|].
  destruct (Split r sep); discriminate.
Qed.

Lemma parseChunk_eq (v : string) (st : GroupByMask * option string) (flag : string) :
  parseChunk v st flag = (Z.lor st.1 (groupByFromString flag).1, chunkError v flag).
Proof.
  unfold parseChunk, chunkError. destruct (groupByFromString flag) as [f e]. cbn [fst snd].
  destruct (Z.eqb_spec f GroupByNothing) as [->|_]; [|reflexivity].
  unfold GroupByNothing. rewrite Z.lor_0_r. reflexivity.
Qed.

Lemma fold_parseChunk (v : string) (chunks : list string) :
  forall st : GroupByMask * option string,
    fold_left (parseChunk v) chunks st
    = (fold_left (fun g c => Z.lor g (groupByFromString c).1) chunks st.1,
       match chunks with
       | [] => st.2
       | _ => chunkError v (List.last chunks "")
       end).
Proof.
  induction chunks as [|c cs IH]; intros st; [destruct st; reflexivity|].
  cbn [fold_left]. rewrite IH, parseChunk_eq. cbn [fst snd].
  destruct cs; reflexivity.
Qed.

Lemma GroupByMaskFromString_eq (v : string) :
  GroupByMaskFromString v
  = let g := fold_left (fun g c => Z.lor g (groupByFromString c).1) (Split v "|") 0%Z in
    (g, if redundant g
        then Some ("it's redundant to group by failure and status code: " +:+ v)
        else chunkError v (List.last (Split v "|") "")).
Proof.
  unfold GroupByMaskFromString. pose proof (Split_nonempty v "|") as Hne.
  rewrite fold_parseChunk. cbn [fst snd].
  destruct (Split v "|") as [|c cs]; [congruence|].
  cbn [length Nat.eqb]. cbv zeta. unfold redundant.
  destruct (_ && _); reflexivity.
Qed.

Lemma groupByFromString_flag (c : string) : In (groupByFromString c).1 flagValues.
Proof.
  unfold groupByFromString.
  repeat (match goal with |- context [if ?b then _ else _] => destruct b end);
    vm_compute; tauto.
Qed.

Lemma lor_flag_mask (g f : Z) :
  In g maskValues -> In f flagValues -> In (Z.lor g f) maskValues.
Proof.
  unfold maskValues, flagValues. cbn [In]. intros Hg Hf.
  repeat (destruct Hg as [<-|Hg]; [repeat (destruct Hf as [<-|Hf]; [vm_compute; tauto|]);
                                   contradiction|]).
  contradiction.
Qed.

Lemma fold_flags_mask (chunks : list string) :
  forall g, In g maskValues ->
    In (fold_left (fun g c => Z.lor g (groupByFromString c).1) chunks g) maskValues.
Proof.
  induction chunks as [|c cs IH]; intros g Hg; [exact Hg|].
  cbn [fold_left]. apply IH, lor_flag_mask; [exact Hg|apply groupByFromString_flag].
Qed.

Lemma parsed_mask_valid (v : string) :
  (GroupByMaskFromString v).2 = None -> validMask (GroupByMaskFromString v).1 = true.
Proof.
  rewrite GroupByMaskFromString_eq. cbv zeta. cbn [fst snd].
  pose proof (fold_flags_mask (Split v "|") 0%Z) as Hm.
  set (g := fold_left _ _ _) in *.
  assert (Hg : In g maskValues) by (apply Hm; vm_compute; tauto). clear Hm.
  unfold maskValues in Hg. cbn [In] in Hg.
  repeat (destruct Hg as [<-|Hg]; [vm_compute; congruence|]). contradiction.
Qed.

Lemma land_bit (g : Z) (k : Z) :
  (0 <= k)%Z -> Z.land g (2 ^ k) = if Z.testbit g k then (2 ^ k)%Z else 0%Z.
Proof.
  intros Hk. apply Z.bits_inj'. intros n Hn.
  rewrite Z.land_spec, Z.pow2_bits_eqb by exact Hk.
  destruct (Z.testbit g k) eqn:E.
  - rewrite Z.pow2_bits_eqb by exact Hk.
    destruct (Z.eqb_spec k n) as [->|_]; [rewrite E; reflexivity|apply andb_false_r].
  - rewrite Z.bits_0. destruct (Z.eqb_spec k n) as [->|_]; [rewrite E; reflexivity|
                                                             apply andb_false_r].
Qed.

Lemma land_14 (g : Z) :
  Z.land g 14 = Z.lor (Z.land g 2) (Z.lor (Z.land g 4) (Z.land g 8)).
Proof.
  change 14%Z with (Z.lor 2 (Z.lor 4 8)). rewrite !Z.land_lor_distr_r. reflexivity.
Qed.

Lemma FormatInt_nonempty (n : Z) : FormatInt n <> "".
Proof.
  unfold FormatInt. destruct (Z.to_int n) as [d|d]; cbn; [|discriminate].
  destruct d; cbn; discriminate.
Qed.

Lemma FormatInt_eqb (n : Z) : String.eqb (FormatInt n) "" = false.
Proof. apply String.eqb_neq, FormatInt_nonempty. Qed.

Lemma FormatInt_append_eqb (n : Z) (s : string) :
  String.eqb (FormatInt n +:+ s) "" = false.
Proof.
  pose proof (FormatInt_nonempty n) as H. destruct (FormatInt n); [congruence|reflexivity].
Qed.

Lemma append_nonempty_r (a b : string) : b <> "" -> a +:+ b <> "".
Proof. destruct a; cbn; [tauto|discriminate]. Qed.

Lemma code_test_never (c : Z) : ((c <? 200)%Z && (c >? 299)%Z) = false.
Proof. destruct (Z.ltb_spec c 200), (Z.gtb_spec c 299); try reflexivity; lia. Qed.

End GroupByFacts.

(** X23. [GroupByMaskFromString] returns the union of the flags of the
    words it knows among those separated by [|]; a word it does not know
    is skipped, and reported only when it stands last, since each word's
    outcome replaces the error of the one before. Status code and
    failure together are refused, with the mask still returned. *)
Theorem GroupByMaskFromString_last_word_decides (v : string) :
  let words := Gnuplot.Split v "|" in
  let g := fold_left (fun g w => Z.lor g (Gnuplot.groupByFromString w).1) words 0%Z in
  Gnuplot.GroupByMaskFromString v
  = (g,
     if negb (Z.land g Gnuplot.GroupByStatusCode =? 0)%Z
        && negb (Z.land g Gnuplot.GroupByFailure =? 0)%Z
     then Some ("it's redundant to group by failure and status code: " +:+ v)
     else match (Gnuplot.groupByFromString (List.last words "")).2 with
          | Some m => Some ("could not parse GroupByMask: " +:+ v +:+ ": " +:+ m)
          | None => None
          end).
Proof. exact (GroupByMaskFromString_eq v). Qed.

(** X24. The flag of gnuplot-report keeps a valid grouping: if the
    value it holds is one of nothing, name, status code, name and status
    code, failure, name and failure, it still is after [Set], whatever
    the string; and a string that is refused leaves the value as it
    was. *)
Theorem groupByFlag_Set_keeps_valid (g : Gnuplot.GroupByMask) (v : string) :
  validMask g = true ->
  validMask (Gnuplot.Set_ g v).1 = true
  /\ ((Gnuplot.Set_ g v).2 <> None -> (Gnuplot.Set_ g v).1 = g).
Proof.
  intros Hg. unfold Gnuplot.Set_.
  pose proof (parsed_mask_valid v) as Hv.
  destruct (Gnuplot.GroupByMaskFromString v) as [value [e|]]; cbn [fst snd] in *.
  - split; [exact Hg|reflexivity].
  - split; [apply Hv; reflexivity|congruence].
Qed.

Lemma groupByFlag_Set_keeps_valid_witness :
  validMask (Gnuplot.Set_ Gnuplot.GroupByName "bogus|failure|name").1 = true
  /\ ((Gnuplot.Set_ Gnuplot.GroupByName "bogus|failure|name").2 <> None ->
      (Gnuplot.Set_ Gnuplot.GroupByName "bogus|failure|name").1 = Gnuplot.GroupByName).
Proof.
  apply (groupByFlag_Set_keeps_valid Gnuplot.GroupByName "bogus|failure|name").
  vm_compute. reflexivity.
Defined.

(** X25. Parsing what [String] prints gives back the three flag bits of
    the mask and nothing else, without error, unless the mask has both
    the status code and the failure bit: then what [String] prints is
    refused. *)
Theorem GroupByMask_String_round_trip (g : Gnuplot.GroupByMask) :
  Gnuplot.GroupByMaskFromString (Gnuplot.GroupByMask_String g)
  = (Z.land g 14,
     if negb (Z.land g Gnuplot.GroupByStatusCode =? 0)%Z
        && negb (Z.land g Gnuplot.GroupByFailure =? 0)%Z
     then Some ("it's redundant to group by failure and status code: "
                +:+ Gnuplot.GroupByMask_String g)
     else None).
Proof.
  pose proof (land_bit g 1 ltac:(lia)) as H1.
  pose proof (land_bit g 2 ltac:(lia)) as H2.
  pose proof (land_bit g 3 ltac:(lia)) as H3.
  change (2 ^ 1)%Z with 2%Z in H1. change (2 ^ 2)%Z with 4%Z in H2.
  change (2 ^ 3)%Z with 8%Z in H3.
  unfold Gnuplot.GroupByMask_String.
  change Gnuplot.GroupByName with 2%Z.
  change Gnuplot.GroupByStatusCode with 4%Z.
  change Gnuplot.GroupByFailure with 8%Z.
  rewrite land_14, H1, H2, H3.
  destruct (Z.testbit g 1), (Z.testbit g 2), (Z.testbit g 3); vm_compute; reflexivity.
Qed.

(** X26. [updateResultNameByGroupBy] never leaves a result without a
    series name. It keeps the result's error and timestamp, and its
    status code too, except that grouping by status code sets the code
    of a result with an error to 0. *)
Theorem updateResultName_never_empty {Time : Type} (g : Gnuplot.GroupByMask)
    (r : Gnuplot.Result Time) :
  let r' := Gnuplot.updateResultNameByGroupBy g r in
  Gnuplot.Attack r' <> ""
  /\ Gnuplot.Error r' = Gnuplot.Error r
  /\ Gnuplot.Timestamp r' = Gnuplot.Timestamp r
  /\ Gnuplot.Code r'
     = if negb (g =? Gnuplot.GroupByNothing)%Z
          && negb (Z.land g Gnuplot.GroupByStatusCode =? 0)%Z
          && negb (String.eqb (Gnuplot.Error r) "")
       then 0%Z else Gnuplot.Code r.
Proof.
  cbv zeta. unfold Gnuplot.updateResultNameByGroupBy.
  destruct r as [a c t e]. unfold Gnuplot.setAttack, Gnuplot.setCode.
  cbn [Gnuplot.Attack Gnuplot.Code Gnuplot.Timestamp Gnuplot.Error].
  destruct (g =? Gnuplot.GroupByNothing)%Z; cbn [negb andb];
    [repeat split; discriminate|].
  destruct (Z.land g Gnuplot.GroupByName =? 0)%Z,
           (Z.land g Gnuplot.GroupByStatusCode =? 0)%Z,
           (Z.land g Gnuplot.GroupByFailure =? 0)%Z,
           e as [|ec e'], a as [|ac a'];
    repeat (cbn [negb andb orb Gnuplot.Attack Gnuplot.Code Gnuplot.Timestamp
                 Gnuplot.Error String.eqb String.append];
            rewrite ?code_test_never, ?FormatInt_eqb, ?FormatInt_append_eqb);
    repeat split; try discriminate;
    first [apply FormatInt_nonempty | apply append_nonempty_r; discriminate].
Qed.

(** X27. Grouping by failure looks at the error alone: with the status
    code bit clear, the series name does not depend on the status code
    at all, and a result without error is named a success ([OK] or
    [:SUCCESS]) whatever its code, since no code is both below 200 and
    above 299. *)
Theorem failure_grouping_ignores_status {Time : Type} (g : Gnuplot.GroupByMask)
    (r : Gnuplot.Result Time) :
  Z.land g Gnuplot.GroupByStatusCode = 0%Z ->
  (forall c : Z,
      Gnuplot.Attack (Gnuplot.updateResultNameByGroupBy g (Gnuplot.setCode r c))
      = Gnuplot.Attack (Gnuplot.updateResultNameByGroupBy g r))
  /\ (Z.land g Gnuplot.GroupByFailure <> 0%Z ->
      Gnuplot.Attack (Gnuplot.updateResultNameByGroupBy g r)
      = let base :=
          if (Z.land g Gnuplot.GroupByName =? 0)%Z then "All" else Gnuplot.Attack r in
        if String.eqb (Gnuplot.Error r) ""
        then (if String.eqb base "" then "OK" else base +:+ ":SUCCESS")
        else (if String.eqb base "" then "FAILURE" else base +:+ ":FAILURE")).
Proof.
  intros Hg4. destruct r as [a c t e].
  unfold Gnuplot.updateResultNameByGroupBy, Gnuplot.setAttack, Gnuplot.setCode.
  cbn [Gnuplot.Attack Gnuplot.Code Gnuplot.Timestamp Gnuplot.Error].
  rewrite Hg4. cbn [Z.eqb negb].
  destruct (Z.eqb_spec g Gnuplot.GroupByNothing) as [->|_].
  { split; [reflexivity|]. intros Hf. exfalso. apply Hf. reflexivity. }
  destruct (Z.eqb_spec (Z.land g Gnuplot.GroupByFailure) 0) as [E8|E8];
    (split; [intros c'|intros Hf; try (exfalso; apply Hf; exact E8)]);
    destruct (Z.land g Gnuplot.GroupByName =? 0)%Z, e as [|ec e'], a as [|ac a'];
    repeat (cbn [negb andb orb Gnuplot.Attack Gnuplot.Code Gnuplot.Timestamp
                 Gnuplot.Error String.eqb String.append];
            rewrite ?code_test_never);
    reflexivity.
Qed.

Lemma failure_grouping_ignores_status_witness :
  let g := Z.lor Gnuplot.GroupByName Gnuplot.GroupByFailure in
  let r := Gnuplot.mkResult "x" 503%Z tt "" in
  (forall c : Z,
      Gnuplot.Attack (Gnuplot.updateResultNameByGroupBy g (Gnuplot.setCode r c))
      = Gnuplot.Attack (Gnuplot.updateResultNameByGroupBy g r))
  /\ Gnuplot.Attack (Gnuplot.updateResultNameByGroupBy g r) = "x:SUCCESS".
Proof.
  intros g r.
  destruct (failure_grouping_ignores_status g r) as [H1 H2]; [vm_compute; reflexivity|].
  split; [exact H1|]. rewrite H2; [vm_compute; reflexivity|vm_compute; discriminate].
Defined.

Section FailureCounts.

Context {Time : Type} `{Countable Time} {float64 : Type}.
Variable zero : float64.
Variable incr : float64 -> float64.
Variable Truncate : Time -> Time.

Lemma status_test_never (c : Z) :
  ((c <? 200)%Z && (c >? 299)%Z && negb (c =? 404)%Z) = false.
Proof. rewrite code_test_never. reflexivity. Qed.

Lemma at_insert (d : gmap string (gmap Time (@Failures.testCounts float64))) (n : string)
    (m : gmap Time (@Failures.testCounts float64))
    (n' : string) (s' : Time) :
  Failures.at_ zero (<[n := m]> d) n' s'
  = if decide (n = n') then default (Failures.mkCounts zero zero) (m !! s')
    else Failures.at_ zero d n' s'.
Proof.
  unfold Failures.at_. destruct (decide (n = n')) as [->|Hn].
  - rewrite lookup_insert_eq. reflexivity.
  - rewrite lookup_insert_ne by exact Hn. reflexivity.
Qed.

End FailureCounts.

(** X28. [failuresEncoder.Encode] changes the counts of one cell only,
    that of the result's series name and of its timestamp's second, and
    there it adds one to the failures if the result has an error and one
    to the successes if it has none: the status code plays no part, a
    response with code 500 and no error counts as a success. *)
Theorem failures_Encode_counts_errors_only {Time : Type} `{Countable Time}
    {float64 : Type} (zero : float64) (incr : float64 -> float64)
    (Truncate : Time -> Time) (d : gmap string (gmap Time (@Failures.testCounts float64)))
    (r : Gnuplot.Result Time) :
  let d' := Failures.Encode zero incr Truncate d r in
  let name := Gnuplot.Attack r in
  let second := Truncate (Gnuplot.Timestamp r) in
  let old := Failures.at_ zero d name second in
  Failures.at_ zero d' name second
  = (if String.eqb (Gnuplot.Error r) ""
     then Failures.mkCounts (Failures.failures old) (incr (Failures.successes old))
     else Failures.mkCounts (incr (Failures.failures old)) (Failures.successes old))
  /\ forall n s, (n, s) <> (name, second) ->
       Failures.at_ zero d' n s = Failures.at_ zero d n s.
Proof.
  cbv zeta. unfold Failures.Encode. rewrite status_test_never, orb_false_r.
  set (d1 := match d !! Gnuplot.Attack r with Some _ => d | None => _ end).
  assert (Hd1 : forall n s, Failures.at_ zero d1 n s = Failures.at_ zero d n s).
  { intros n s. subst d1. destruct (d !! Gnuplot.Attack r) eqn:E; [reflexivity|].
    rewrite at_insert. destruct (decide (Gnuplot.Attack r = n)) as [<-|_]; [|reflexivity].
    unfold Failures.at_. rewrite E. reflexivity. }
  split.
  - rewrite at_insert. rewrite decide_True by reflexivity.
    rewrite lookup_insert_eq. cbn [default]. rewrite Hd1.
    destruct (String.eqb (Gnuplot.Error r) ""); reflexivity.
  - intros n s Hns. rewrite at_insert.
    destruct (decide (Gnuplot.Attack r = n)) as [<-|_]; [|apply Hd1].
    rewrite lookup_insert_ne by congruence. apply Hd1.
Qed.
